(** * The signaling server of remoted (signaling-server/src/server.ts)

    A shallow embedding of [class SignalingServer] and of the message types of
    shared/src/types.ts, followed by the properties of the registry, of the
    router and of the disconnect path.

    The two JavaScript [Map]s keep insertion order, and the server relies on
    it (the disconnect loop stops at the first match, broadcasts and device
    lists follow the iteration order): they are association lists with the
    semantics of [Map.prototype.set/get/delete].  [Device] objects are shared
    between [clients] and [devices] and mutated in place on disconnect: they
    live in an object store and the maps hold references. *)

From Stdlib Require Import ZArith String.
From stdpp Require Import base decidable option list strings sorting.

(** ** JavaScript values found in the fields the server reads *)

(** What [JSON.parse] can put in a property: the primitives, and objects or
    arrays.  The server never looks inside an object (an [offer], an [answer],
    a [candidate]).  It compares it by identity, when it is the key of a
    [Map], and it converts it to a string, when it is interpolated in the
    template literal of a log line: that conversion throws a TypeError for an
    object that has a property [toString] of its own, such as
    [{"toString": null}], and for an array that holds such an object.  So an
    object is known by its identity and by whether its conversion to a string
    returns.  Numbers are the integers. *)
Inductive value : Type :=
| VUndefined
| VNull
| VBool (b : bool)
| VNum (n : Z)
| VStr (s : string)
| VObject (addr : nat) (to_string_returns : bool).

#[global] Instance value_eq_dec : EqDecision value.
Proof. solve_decision. Defined.

(** [v || ...]: which values count as true. *)
Definition truthy (v : value) : bool :=
  match v with
  | VUndefined | VNull => false
  | VBool b => b
  | VNum n => negb (n =? 0)%Z
  | VStr s => negb (String.eqb s "")
  | VObject _ _ => true
  end.

(** [`${v}`]: whether the conversion of [v] to a string returns; it does for
    every primitive, [undefined] and [null] included. *)
Definition printable (v : value) : bool :=
  match v with
  | VObject _ to_string_returns => to_string_returns
  | _ => true
  end.

(** A parsed message is a plain object: its own properties, in order. *)
Definition Message : Type := list (string * value).

(** [message.name]: [undefined] when the property is absent. *)
Fixpoint prop (message : Message) (name : string) : value :=
  match message with
  | [] => VUndefined
  | (n, v) :: rest => if String.eqb n name then v else prop rest name
  end.

(** ** shared/src/types.ts *)

Inductive MessageType : Type :=
| REGISTER_HOST | REGISTER_CLIENT | AUTH_SUCCESS | AUTH_ERROR
| GET_DEVICES | DEVICE_LIST | DEVICE_ONLINE | DEVICE_OFFLINE
| CONNECT_REQUEST | OFFER | ANSWER | ICE_CANDIDATE
| CONNECTION_ACCEPTED | CONNECTION_REJECTED | DISCONNECT
| ERROR.

#[global] Instance MessageType_eq_dec : EqDecision MessageType.
Proof. solve_decision. Defined.

(** The string each member of the enum stands for. *)
Definition MessageType_value (t : MessageType) : string :=
  match t with
  | REGISTER_HOST => "register_host"
  | REGISTER_CLIENT => "register_client"
  | AUTH_SUCCESS => "auth_success"
  | AUTH_ERROR => "auth_error"
  | GET_DEVICES => "get_devices"
  | DEVICE_LIST => "device_list"
  | DEVICE_ONLINE => "device_online"
  | DEVICE_OFFLINE => "device_offline"
  | CONNECT_REQUEST => "connect_request"
  | OFFER => "offer"
  | ANSWER => "answer"
  | ICE_CANDIDATE => "ice_candidate"
  | CONNECTION_ACCEPTED => "connection_accepted"
  | CONNECTION_REJECTED => "connection_rejected"
  | DISCONNECT => "disconnect"
  | ERROR => "error"
  end.

Definition all_MessageTypes : list MessageType :=
  [REGISTER_HOST; REGISTER_CLIENT; AUTH_SUCCESS; AUTH_ERROR;
   GET_DEVICES; DEVICE_LIST; DEVICE_ONLINE; DEVICE_OFFLINE;
   CONNECT_REQUEST; OFFER; ANSWER; ICE_CANDIDATE;
   CONNECTION_ACCEPTED; CONNECTION_REJECTED; DISCONNECT; ERROR].

(** The [case] label a [switch (message.type)] selects: strict equality with
    the enum's strings, so only a string can select one. *)
Definition case_label (type : value) : option MessageType :=
  match type with
  | VStr s => List.find (fun t => String.eqb (MessageType_value t) s) all_MessageTypes
  | _ => None
  end.

(** [interface Device]. *)
Record Device : Type := mkDevice {
  deviceId : value;
  deviceName : value;
  platform : value;
  online : bool;
  lastSeen : Z;
}.

(** ** What the server hands to [ws.send] *)

(** One constructor per object literal the server builds, and [Forwarded] for
    an inbound message object passed on as it is. *)
Inductive Outbound : Type :=
| AuthSuccess (timestamp : Z) (id : value)
| DeviceList (timestamp : Z) (devices : list Device)
| DeviceStatus (status : MessageType) (timestamp : Z) (device : Device)
| ConnectRequest (timestamp : Z) (targetDeviceId clientId : value)
| ConnectionAccepted (timestamp : Z) (hostId : value)
| ErrorMessage (timestamp : Z) (error : string) (details : value)
| Forwarded (message : Message).

(** The [timestamp] property of an outbound object. *)
Definition Outbound_timestamp (o : Outbound) : value :=
  match o with
  | AuthSuccess t _ | DeviceList t _ | DeviceStatus _ t _
  | ConnectRequest t _ _ | ConnectionAccepted t _ | ErrorMessage t _ _ => VNum t
  | Forwarded message => prop message "timestamp"
  end.

(** ** server.ts: the state of the process *)

(** A [WebSocket] object is known by its identity. *)
Definition WebSocket : Type := nat.

Inductive ReadyState : Type := CONNECTING | OPEN | CLOSING | CLOSED.

#[global] Instance ReadyState_eq_dec : EqDecision ReadyState.
Proof. solve_decision. Defined.

(** A reference to a [Device] object in the store. *)
Definition DeviceRef : Type := nat.

Inductive ClientType : Type := host | client.

#[global] Instance ClientType_eq_dec : EqDecision ClientType.
Proof. solve_decision. Defined.

(** [interface Client]. *)
Record Client : Type := mkClient {
  client_id : value;
  client_ws : WebSocket;
  client_type : ClientType;
  client_device : option DeviceRef;
}.

(** A JavaScript [Map]: keys compared by SameValueZero (equality, on the
    values above), entries kept in insertion order. *)
Section JsMap.
Context {V : Type}.

Fixpoint Map_get (key : value) (m : list (value * V)) : option V :=
  match m with
  | [] => None
  | (k, v) :: rest => if decide (k = key) then Some v else Map_get key rest
  end.

(** [set] on a present key replaces the value and keeps the position. *)
Fixpoint Map_set (key : value) (v : V) (m : list (value * V)) : list (value * V) :=
  match m with
  | [] => [(key, v)]
  | (k, v') :: rest =>
      if decide (k = key) then (key, v) :: rest else (k, v') :: Map_set key v rest
  end.

Fixpoint Map_delete (key : value) (m : list (value * V)) : list (value * V) :=
  match m with
  | [] => []
  | (k, v) :: rest =>
      if decide (k = key) then rest else (k, v) :: Map_delete key rest
  end.

Definition Map_keys (m : list (value * V)) : list value := map fst m.
Definition Map_values (m : list (value * V)) : list V := map snd m.
End JsMap.

(** The fields of [SignalingServer], the store of [Device] objects, the state
    of the sockets, how many times [Date.now()] and [uuidv4()] were called,
    and the frames written with [ws.send], oldest first.  [sent_at] is the
    history of the writes: for each frame of [wire], how many times
    [Date.now()] had been called when the frame was written. *)
Record State : Type := mkState {
  clients : list (value * Client);
  devices : list (value * DeviceRef);
  heap : DeviceRef -> Device;
  next_ref : DeviceRef;
  readyState : WebSocket -> ReadyState;
  date_calls : nat;
  uuid_calls : nat;
  wire : list (WebSocket * Outbound);
  sent_at : list nat;
}.

(** ** Handlers run in a state monad *)

Definition M (A : Type) : Type := State -> A * State.

Definition ret {A} (a : A) : M A := fun s => (a, s).

Definition bind {A B} (c : M A) (k : A -> M B) : M B :=
  fun s => let (a, s') := c s in k a s'.

Notation "x <- c ;; k" := (bind c (fun x => k))
  (at level 100, c at next level, k at level 200, right associativity).
Notation "c ;;; k" := (bind c (fun _ => k))
  (at level 100, k at level 200, right associativity).

Definition get : M State := fun s => (s, s).

(** The state a command leaves. *)
Definition exec {A} (c : M A) (s : State) : State := snd (c s).

(** What a command wrote on the sockets. *)
Definition sent_from (s s' : State) : list (WebSocket * Outbound) :=
  drop (length (wire s)) (wire s').

Definition with_clients (f : list (value * Client) -> list (value * Client)) : M unit :=
  fun s => (tt, mkState (f (clients s)) (devices s) (heap s) (next_ref s)
                        (readyState s) (date_calls s) (uuid_calls s) (wire s) (sent_at s)).

Definition with_devices (f : list (value * DeviceRef) -> list (value * DeviceRef)) : M unit :=
  fun s => (tt, mkState (clients s) (f (devices s)) (heap s) (next_ref s)
                        (readyState s) (date_calls s) (uuid_calls s) (wire s) (sent_at s)).

(** [new Device {...}]: a fresh object. *)
Definition new_Device (d : Device) : M DeviceRef :=
  fun s => (next_ref s,
            mkState (clients s) (devices s)
                    (fun r => if decide (r = next_ref s) then d else heap s r)
                    (S (next_ref s))
                    (readyState s) (date_calls s) (uuid_calls s) (wire s) (sent_at s)).

(** Assignment to the fields of the object behind a reference. *)
Definition update_Device (ref : DeviceRef) (f : Device -> Device) : M unit :=
  fun s => (tt, mkState (clients s) (devices s)
                        (fun r => if decide (r = ref) then f (heap s r) else heap s r)
                        (next_ref s)
                        (readyState s) (date_calls s) (uuid_calls s) (wire s) (sent_at s)).

Definition set_online (b : bool) (d : Device) : Device :=
  mkDevice (deviceId d) (deviceName d) (platform d) b (lastSeen d).

Definition set_lastSeen (t : Z) (d : Device) : Device :=
  mkDevice (deviceId d) (deviceName d) (platform d) (online d) t.

(** [ws.send(JSON.stringify(message))]. *)
Definition ws_send (ws : WebSocket) (message : Outbound) : M unit :=
  fun s => (tt, mkState (clients s) (devices s) (heap s) (next_ref s)
                        (readyState s) (date_calls s) (uuid_calls s)
                        (wire s ++ [(ws, message)])
                        (sent_at s ++ [date_calls s])).

(** The sockets belong to the peers: a socket opens when it is accepted and
    is [CLOSED] when its close event is delivered. *)
Definition set_readyState (ws : WebSocket) (r : ReadyState) : M unit :=
  fun s => (tt, mkState (clients s) (devices s) (heap s) (next_ref s)
                        (fun w => if decide (w = ws) then r else readyState s w)
                        (date_calls s) (uuid_calls s) (wire s) (sent_at s)).

Section SignalingServer.

(** [clock n] is what the [n]-th call of [Date.now()] returns and [uuid n]
    what the [n]-th call of [uuidv4()] returns. *)
Variable clock : nat -> Z.
Variable uuid : nat -> string.

Definition Date_now : M Z :=
  fun s => (clock (date_calls s),
            mkState (clients s) (devices s) (heap s) (next_ref s)
                    (readyState s) (S (date_calls s)) (uuid_calls s) (wire s)
                    (sent_at s)).

Definition uuidv4 : M string :=
  fun s => (uuid (uuid_calls s),
            mkState (clients s) (devices s) (heap s) (next_ref s)
                    (readyState s) (date_calls s) (S (uuid_calls s)) (wire s)
                    (sent_at s)).

Definition send (ws : WebSocket) (message : Outbound) : M unit :=
  s <- get;;
  if decide (readyState s ws = OPEN) then ws_send ws message else ret tt.

Definition sendError (ws : WebSocket) (error : string) (details : value) : M unit :=
  now <- Date_now;;
  send ws (ErrorMessage now error details).

(** The loop of [broadcastDeviceStatus] over [this.clients.values()]. *)
Fixpoint broadcast_loop (message : Outbound) (values : list Client) : M unit :=
  match values with
  | [] => ret tt
  | c :: rest =>
      (if decide (client_type c = client) then send (client_ws c) message else ret tt);;;
      broadcast_loop message rest
  end.

(** The message object holds the device by reference and is serialised at
    each [send]; nothing assigns to the device during the loop, so every
    frame carries the fields the device has when the loop starts. *)
Definition broadcastDeviceStatus (device : DeviceRef) (status : MessageType) : M unit :=
  now <- Date_now;;
  s <- get;;
  broadcast_loop (DeviceStatus status now (heap s device)) (Map_values (clients s)).

(** How a call ends: it returns, or it throws. *)
Inductive Completion : Type := Normal | Throw.

(** A log line whose argument is a template literal: the interpolated
    values are converted to strings from left to right, and a conversion that
    throws leaves the handler.  The other log lines pass their arguments
    as they are and never throw. *)
Definition console_log (interpolated : list value) : M Completion :=
  ret (if forallb printable interpolated then Normal else Throw).

Notation "c ;;? k" :=
  (bind c (fun r => match r with Normal => k | Throw => ret Throw end))
  (at level 100, k at level 200, right associativity).

Definition handleRegisterHost (ws : WebSocket) (message : Message) : M Completion :=
  let deviceId := prop message "deviceId" in
  let deviceName := prop message "deviceName" in
  let platform := prop message "platform" in
  now <- Date_now;;
  device <- new_Device (mkDevice deviceId deviceName platform true now);;
  let c := mkClient deviceId ws host (Some device) in
  with_clients (Map_set deviceId c);;;
  with_devices (Map_set deviceId device);;;
  console_log [deviceName; deviceId];;?
  now <- Date_now;;
  send ws (AuthSuccess now deviceId);;;
  broadcastDeviceStatus device DEVICE_ONLINE;;;
  ret Normal.

Definition handleRegisterClient (ws : WebSocket) (message : Message) : M Completion :=
  clientId <- (if truthy (prop message "clientId")
               then ret (prop message "clientId")
               else (u <- uuidv4;; ret (VStr u)));;
  let c := mkClient clientId ws client None in
  with_clients (Map_set clientId c);;;
  console_log [clientId];;?
  now <- Date_now;;
  send ws (AuthSuccess now clientId);;;
  ret Normal.

Definition handleGetDevices (ws : WebSocket) : M Completion :=
  s <- get;;
  let devices := map (heap s) (Map_values (devices s)) in
  now <- Date_now;;
  send ws (DeviceList now devices);;;
  ret Normal.

Definition handleConnectRequest (ws : WebSocket) (message : Message) : M Completion :=
  let targetDeviceId := prop message "targetDeviceId" in
  let clientId := prop message "clientId" in
  s <- get;;
  match Map_get targetDeviceId (clients s) with
  | Some targetClient =>
      if decide (client_type targetClient = host) then
        console_log [clientId; targetDeviceId];;?
        now <- Date_now;;
        send (client_ws targetClient) (ConnectRequest now targetDeviceId clientId);;;
        now <- Date_now;;
        send ws (ConnectionAccepted now targetDeviceId);;;
        ret Normal
      else sendError ws "Target device not found or offline" VUndefined;;; ret Normal
  | None => sendError ws "Target device not found or offline" VUndefined;;; ret Normal
  end.

(** The [else] branch logs with a template literal too. *)
Definition handleOffer (message : Message) : M Completion :=
  s <- get;;
  match Map_get (prop message "to") (clients s) with
  | Some targetClient =>
      console_log [prop message "from"; prop message "to"];;?
      send (client_ws targetClient) (Forwarded message);;;
      ret Normal
  | None => console_log [prop message "to"]
  end.

Definition handleAnswer (message : Message) : M Completion :=
  s <- get;;
  match Map_get (prop message "to") (clients s) with
  | Some targetClient =>
      console_log [prop message "from"; prop message "to"];;?
      send (client_ws targetClient) (Forwarded message);;;
      ret Normal
  | None => console_log [prop message "to"]
  end.

Definition handleIceCandidate (message : Message) : M Completion :=
  s <- get;;
  match Map_get (prop message "to") (clients s) with
  | Some targetClient =>
      console_log [prop message "from"; prop message "to"];;?
      send (client_ws targetClient) (Forwarded message);;;
      ret Normal
  | None => console_log [prop message "to"]
  end.

(** The body of the [if (client.ws === ws)] of [handleDisconnect]: the log
    line comes first. *)
Definition disconnect_entry (id : value) (c : Client) : M Completion :=
  console_log [id];;?
  match client_type c, client_device c with
  | host, Some device =>
      update_Device device (set_online false);;;
      now <- Date_now;;
      update_Device device (set_lastSeen now);;;
      broadcastDeviceStatus device DEVICE_OFFLINE;;;
      with_devices (Map_delete id)
  | _, _ => ret tt
  end;;;
  with_clients (Map_delete id);;;
  ret Normal.

(** [for (const [id, client] of this.clients.entries())], left by [break]
    at the first entry whose socket is [ws]. *)
Fixpoint disconnect_loop (ws : WebSocket) (entries : list (value * Client))
  : M Completion :=
  match entries with
  | [] => ret Normal
  | (id, c) :: rest =>
      if decide (client_ws c = ws) then disconnect_entry id c
      else disconnect_loop ws rest
  end.

Definition handleDisconnect (ws : WebSocket) : M Completion :=
  s <- get;;
  disconnect_loop ws (clients s).

(** What [JSON.parse] returned for a frame it accepted. *)
Inductive Parsed : Type :=
| PNull                       (* null *)
| POther                      (* a boolean, a number, a string or an array *)
| PObject (message : Message).

(** The [switch (message.type)] of [handleMessage], on an object. *)
Definition dispatch (ws : WebSocket) (m : Message) : M Completion :=
  match case_label (prop m "type") with
  | Some REGISTER_HOST => handleRegisterHost ws m
  | Some REGISTER_CLIENT => handleRegisterClient ws m
  | Some GET_DEVICES => handleGetDevices ws
  | Some CONNECT_REQUEST => handleConnectRequest ws m
  | Some OFFER => handleOffer m
  | Some ANSWER => handleAnswer m
  | Some ICE_CANDIDATE => handleIceCandidate m
  | Some DISCONNECT => handleDisconnect ws
  | _ => ret Normal
  end.

(** [message.type] throws a TypeError on [null] and is [undefined] on a
    value that has no such property, which selects the [default] case. *)
Definition handleMessage (ws : WebSocket) (message : Parsed) : M Completion :=
  match message with
  | PNull => ret Throw
  | POther => ret Normal
  | PObject m => dispatch ws m
  end.

(** A frame, as [JSON.parse(data.toString())] takes it. *)
Inductive Frame : Type :=
| Unparsable                  (* JSON.parse throws a SyntaxError *)
| Parses (message : Parsed).

(** [ws.on('message', ...)]: the [try]/[catch] around parsing and
    dispatch catches what [JSON.parse], [handleMessage] or a handler throws;
    what the handler did before it threw stays done. *)
Definition on_message (ws : WebSocket) (data : Frame) : M unit :=
  match data with
  | Unparsable => sendError ws "Invalid message format" VUndefined
  | Parses message =>
      c <- handleMessage ws message;;
      match c with
      | Normal => ret tt
      | Throw => sendError ws "Invalid message format" VUndefined
      end
  end.

(** [ws.on('close', ...)]: no [try]/[catch] here. *)
Definition on_close (ws : WebSocket) : M Completion := handleDisconnect ws.

(** What happens to the process: a socket is accepted, a frame arrives on
    a socket, a socket closes. *)
Inductive Event : Type :=
| Connection (ws : WebSocket)
| MessageEvent (ws : WebSocket) (data : Frame)
| CloseEvent (ws : WebSocket).

(** The listener of an event.  The socket is [OPEN] when it is accepted and
    [CLOSED] when its close listener runs. *)
Definition listener (e : Event) : M Completion :=
  match e with
  | Connection ws => set_readyState ws OPEN;;; ret Normal
  | MessageEvent ws data => on_message ws data;;; ret Normal
  | CloseEvent ws => set_readyState ws CLOSED;;; on_close ws
  end.

Definition step (s : State) (e : Event) : State := exec (listener e) s.

(** An exception that leaves a listener is caught nowhere: it ends the
    process, in the state [step] gives. *)
Definition uncaught (s : State) (e : Event) : bool :=
  match fst (listener e s) with
  | Normal => false
  | Throw => true
  end.

Definition run (s : State) (events : list Event) : State :=
  fold_left step events s.

(** No listener of the run ends the process. *)
Fixpoint survives (s : State) (events : list Event) : bool :=
  match events with
  | [] => true
  | e :: rest => negb (uncaught s e) && survives (step s e) rest
  end.

End SignalingServer.

(** [new SignalingServer(PORT)]: both maps empty, nothing sent. *)
Definition initial : State :=
  mkState [] [] (fun _ => mkDevice VUndefined VUndefined VUndefined false 0%Z) 0
          (fun _ => CLOSED) 0 0 [] [].

(** The states the running process can be in. *)
Definition reachable (clock : nat -> Z) (uuid : nat -> string) (s : State) : Prop :=
  exists events,
    survives clock uuid initial events = true /\ s = run clock uuid initial events.

(** ** Vocabulary of the statements *)

(** The history entries of frames written after [n] calls of [Date.now()]. *)
Definition at_calls (n : nat) (frames : list (WebSocket * Outbound)) : list nat :=
  map (fun _ => n) frames.

(** [s] with [frames] written after what was already sent. *)
Definition push (s : State) (frames : list (WebSocket * Outbound)) : State :=
  mkState (clients s) (devices s) (heap s) (next_ref s)
          (readyState s) (date_calls s) (uuid_calls s) (wire s ++ frames)
          (sent_at s ++ at_calls (date_calls s) frames).

(** What [send] writes: the frame when the socket is [OPEN], nothing
    otherwise. *)
Definition written (s : State) (ws : WebSocket) (message : Outbound)
  : list (WebSocket * Outbound) :=
  if decide (readyState s ws = OPEN) then [(ws, message)] else [].

(** What [handleOffer], [handleAnswer] and [handleIceCandidate] all do. *)
Definition relay (message : Message) (s : State) : Completion * State :=
  match Map_get (prop message "to") (clients s) with
  | Some targetClient =>
      if printable (prop message "from") && printable (prop message "to")
      then (Normal, push s (written s (client_ws targetClient) (Forwarded message)))
      else (Throw, s)
  | None => (if printable (prop message "to") then Normal else Throw, s)
  end.

(** The [catch] of the message listener, after the handler ended: a handler
    that threw is answered with ERROR "Invalid message format", in the state the
    handler left. *)
Definition caught (clock : nat -> Z) (ws : WebSocket) (r : Completion * State)
  : State :=
  match fst r with
  | Normal => snd r
  | Throw => exec (sendError clock ws "Invalid message format" VUndefined) (snd r)
  end.

(** The participants a broadcast reaches: role client, socket [OPEN]. *)
Definition listening (s : State) (c : Client) : Prop :=
  client_type c = client /\ readyState s (client_ws c) = OPEN.

#[global] Instance listening_dec s c : Decision (listening s c).
Proof. unfold listening. apply _. Defined.

(** One frame for each of them, in the order of the [clients] map. *)
Definition broadcast_frames (s : State) (message : Outbound) (values : list Client)
  : list (WebSocket * Outbound) :=
  map (fun c => (client_ws c, message)) (filter (listening s) values).

(** The first entry of the [clients] map whose socket is [ws]. *)
Definition first_on (ws : WebSocket) (entries : list (value * Client))
  : option (value * Client) :=
  List.find (fun e => bool_decide (client_ws (snd e) = ws)) entries.

(** The entries of the [clients] map whose socket is [ws]. *)
Definition entries_on (ws : WebSocket) (entries : list (value * Client))
  : list (value * Client) :=
  filter (fun e => client_ws (snd e) = ws) entries.

(** What every reachable state satisfies: keys are unique, a participant is
    stored under its own id, a host's device is the object the [devices] map
    holds under the same id, and the devices in that map are online and carry
    the id they are stored under. *)
Record consistent (s : State) : Prop := mkConsistent {
  clients_NoDup : NoDup (Map_keys (clients s));
  devices_NoDup : NoDup (Map_keys (devices s));
  clients_key : forall k c, (k, c) ∈ clients s -> client_id c = k;
  hosts_device : forall k c, (k, c) ∈ clients s -> client_type c = host ->
                 exists r, client_device c = Some r /\ (k, r) ∈ devices s;
  clients_device : forall k c, (k, c) ∈ clients s -> client_type c = client ->
                   client_device c = None;
  devices_allocated : forall k r, (k, r) ∈ devices s -> r < next_ref s;
  devices_key : forall k r, (k, r) ∈ devices s -> deviceId (heap s r) = k;
  devices_online : forall k r, (k, r) ∈ devices s -> online (heap s r) = true;
}.

(** The Device invariant of the data model: every device the [devices] map
    holds is online and belongs to exactly one registered participant, a host
    with the same id. *)
Definition owns (d : Device) (e : value * Client) : Prop :=
  client_type (snd e) = host /\ client_id (snd e) = deviceId d.

#[global] Instance owns_dec d e : Decision (owns d e).
Proof. unfold owns. apply _. Defined.

Definition Device_invariant (s : State) : Prop :=
  forall k r, (k, r) ∈ devices s ->
    online (heap s r) = true /\
    length (filter (owns (heap s r)) (clients s)) = 1.

(** Two states with the same registry: maps and [Device] objects. *)
Definition same_registry (s s' : State) : Prop :=
  clients s' = clients s /\ devices s' = devices s /\
  heap s' = heap s /\ next_ref s' = next_ref s.

(** The device a departing host leaves: offline, last seen at [t]. *)
Definition offline_at (t : Z) (d : Device) : Device :=
  mkDevice (deviceId d) (deviceName d) (platform d) false t.

(** Events that run the disconnect path for [ws]: its close event, or a
    DISCONNECT message on it. *)
Definition disconnects (ws : WebSocket) (e : Event) : Prop :=
  e = CloseEvent ws \/
  exists m, e = MessageEvent ws (Parses (PObject m)) /\
            case_label (prop m "type") = Some DISCONNECT.

(** A REGISTER_HOST with this [deviceId]. *)
Definition registers_host (id : value) (e : Event) : Prop :=
  exists ws m,
    e = MessageEvent ws (Parses (PObject m)) /\
    case_label (prop m "type") = Some REGISTER_HOST /\
    prop m "deviceId" = id.

(** The interfaces of types.ts, as far as the server reads the fields:
    [timestamp] is a number and the ids and names are strings. *)
Definition is_string (v : value) : bool :=
  match v with VStr _ => true | _ => false end.

Definition is_number (v : value) : bool :=
  match v with VNum _ => true | _ => false end.

Definition is_object (v : value) : bool :=
  match v with VObject _ _ => true | _ => false end.

Definition matches_interface (m : Message) : bool :=
  is_number (prop m "timestamp") &&
  match case_label (prop m "type") with
  | Some REGISTER_HOST =>
      is_string (prop m "deviceId") && is_string (prop m "deviceName")
      && is_string (prop m "platform")
  | Some REGISTER_CLIENT => is_string (prop m "clientId")
  | Some CONNECT_REQUEST =>
      is_string (prop m "targetDeviceId") && is_string (prop m "clientId")
  | Some OFFER =>
      is_object (prop m "offer") && is_string (prop m "from") && is_string (prop m "to")
  | Some ANSWER =>
      is_object (prop m "answer") && is_string (prop m "from") && is_string (prop m "to")
  | Some ICE_CANDIDATE =>
      is_object (prop m "candidate") && is_string (prop m "from")
      && is_string (prop m "to")
  | Some _ => true
  | None => false
  end.

(** A frame that does not parse, or parses to something that is not a
    message of the type it declares. *)
Definition malformed (data : Frame) : Prop :=
  match data with
  | Unparsable => True
  | Parses (PObject m) => matches_interface m = false
  | Parses _ => True
  end.

(** The reply to a malformed frame: one ERROR "Invalid message format" to the
    sender, nothing to anyone else, both maps as they were. *)
Definition answers_invalid_format (s s' : State) (ws : WebSocket) : Prop :=
  (exists t details,
     sent_from s s' = [(ws, ErrorMessage t "Invalid message format" details)]) /\
  clients s' = clients s /\ devices s' = devices s.

Definition is_AuthSuccess (f : WebSocket * Outbound) : Prop :=
  match snd f with AuthSuccess _ _ => True | _ => False end.

#[global] Instance is_AuthSuccess_dec f : Decision (is_AuthSuccess f).
Proof. unfold is_AuthSuccess. destruct (snd f); apply _. Defined.

(** A frame the server wrote as a relay of the message of event [e]. *)
Definition relayed (e : Event) (o : Outbound) : Prop :=
  exists ws m label,
    e = MessageEvent ws (Parses (PObject m)) /\
    case_label (prop m "type") = Some label /\
    (label = OFFER \/ label = ANSWER \/ label = ICE_CANDIDATE) /\
    o = Forwarded m.

(** An object literal of a handler: not a relayed object, and when it is an
    ERROR, the one of [handleConnectRequest]. *)
Definition handler_built (o : Outbound) : Prop :=
  match o with
  | Forwarded _ => False
  | ErrorMessage _ error details =>
      error = "Target device not found or offline" /\ details = VUndefined
  | _ => True
  end.

(** An object literal of the [catch] of the message listener. *)
Definition invalid_format (o : Outbound) : Prop :=
  match o with
  | ErrorMessage _ error _ => error = "Invalid message format"
  | _ => False
  end.

(** What a step wrote, with the history of each write. *)
Definition reads_from (s s' : State) : list nat :=
  drop (length (sent_at s)) (sent_at s').

(** The frame carries the capture time at the moment it is sent: it is
    written after [n] calls of [Date.now()], its [timestamp] is what the last
    of them returned, and that call was made while handling the event that
    started in [s]. *)
Definition timely (clock : nat -> Z) (s : State) (o : Outbound) (n : nat) : Prop :=
  date_calls s < n /\ Outbound_timestamp o = VNum (clock (n - 1)).

(** Every frame written between [s] and [s'] carries the capture time of
    its sending. *)
Definition all_timely (clock : nat -> Z) (s s' : State) : Prop :=
  Forall2 (fun f n => timely clock s (snd f) n) (sent_from s s') (reads_from s s').

(** What a listener may write while it takes [s] to [s']: a relayed
    object, or an object literal with the capture time of its sending. *)
Definition frame_ok (clock : nat -> Z) (e : Event) (s s' : State)
    (f : WebSocket * Outbound) (n : nat) : Prop :=
  n <= date_calls s' /\
  (relayed e (snd f) \/
   (timely clock s (snd f) n /\ (handler_built (snd f) \/ invalid_format (snd f)))).

(** What a listener does to the log while it takes [s] to [s']: the frames
    and their histories are appended, and each frame is a relayed object or
    carries the capture time of its sending. *)
Definition Wrote (clock : nat -> Z) (e : Event) (s s' : State) : Prop :=
  uuid_calls s <= uuid_calls s' /\
  exists l ns, wire s' = wire s ++ l /\ sent_at s' = sent_at s ++ ns /\
               Forall2 (frame_ok clock e s s') l ns.

(** The state in which the disconnect path runs for an event: the socket of
    a close event is [CLOSED] by then. *)
Definition at_disconnect (e : Event) (s : State) : State :=
  match e with
  | CloseEvent ws => exec (set_readyState ws CLOSED) s
  | _ => s
  end.

(** Every device of the [devices] map has a host registered under its key. *)
Definition hosted (s : State) : Prop :=
  forall k r, (k, r) ∈ devices s ->
    exists c, Map_get k (clients s) = Some c /\ client_type c = host.

(** A REGISTER_CLIENT that registers an id a device is stored under. *)
Definition client_takeover (uuid : nat -> string) (s : State) (e : Event) : Prop :=
  exists ws m,
    e = MessageEvent ws (Parses (PObject m)) /\
    case_label (prop m "type") = Some REGISTER_CLIENT /\
    Map_get (if truthy (prop m "clientId") then prop m "clientId"
             else VStr (uuid (uuid_calls s))) (devices s) <> None.

(** ** Vocabulary of the further properties *)

(** The [case] labels of [handleMessage]. *)
Definition handled (t : MessageType) : bool :=
  match t with
  | REGISTER_HOST | REGISTER_CLIENT | GET_DEVICES | CONNECT_REQUEST
  | OFFER | ANSWER | ICE_CANDIDATE | DISCONNECT => true
  | _ => false
  end.

(** A parsed frame that selects the [default] case: a value without [type],
    or an object whose [type] is none of the handled strings. *)
Definition selects_default (p : Parsed) : Prop :=
  match p with
  | PNull => False
  | POther => True
  | PObject m =>
      forall t, handled t = true -> prop m "type" <> VStr (MessageType_value t)
  end.

(** The socket an event is about. *)
Definition socket_of (e : Event) : WebSocket :=
  match e with
  | Connection ws | MessageEvent ws _ | CloseEvent ws => ws
  end.

(** What DEVICE_LIST carries: the devices map, dereferenced, in its order. *)
Definition listed (s : State) : list Device :=
  map (heap s) (Map_values (devices s)).

(** The id a registration registers. *)
Definition registered_id (uuid : nat -> string) (s : State)
    (label : MessageType) (m : Message) : value :=
  match label with
  | REGISTER_HOST => prop m "deviceId"
  | _ => if truthy (prop m "clientId") then prop m "clientId"
         else VStr (uuid (uuid_calls s))
  end.

(** Who a frame may go to, by its kind: a reply goes to the socket of the
    event, DEVICE_ONLINE and DEVICE_OFFLINE to a participant of role client,
    CONNECT_REQUEST to the host registered under [targetDeviceId], a relayed
    object to the participant registered under its [to]. *)
Definition routed (s : State) (e : Event) (f : WebSocket * Outbound) : Prop :=
  match snd f with
  | AuthSuccess _ _ | DeviceList _ _ | ConnectionAccepted _ _
  | ErrorMessage _ _ _ => fst f = socket_of e
  | DeviceStatus _ _ _ =>
      exists k c, (k, c) ∈ clients s /\ client_type c = client /\ client_ws c = fst f
  | ConnectRequest _ target _ =>
      exists c, Map_get target (clients s) = Some c /\ client_type c = host /\
                client_ws c = fst f
  | Forwarded m =>
      exists c, Map_get (prop m "to") (clients s) = Some c /\ client_ws c = fst f
  end.

(** The role a registration gives. *)
Definition role_of (label : MessageType) : ClientType :=
  match label with
  | REGISTER_HOST => host
  | _ => client
  end.

(** The [timestamp] of an object literal of the server; a relayed object
    has none of the server's. *)
Definition built_timestamp (f : WebSocket * Outbound) : option Z :=
  match snd f with
  | AuthSuccess t _ | DeviceList t _ | DeviceStatus _ t _
  | ConnectRequest t _ _ | ConnectionAccepted t _ | ErrorMessage t _ _ => Some t
  | Forwarded _ => None
  end.

Definition built_timestamps (l : list (WebSocket * Outbound)) : list Z :=
  omap built_timestamp l.

(** The timestamps of the object literals among [l] are readings of the
    clock numbered from [lo] up to, not including, [hi], in the order of their
    numbers. *)
Definition Stamps (clock : nat -> Z) (lo hi : nat)
    (l : list (WebSocket * Outbound)) : Prop :=
  exists idx, built_timestamps l = map clock idx /\
              StronglySorted le idx /\ Forall (fun n => lo <= n < hi) idx.

(** ** Examples *)

(** A clock and a generator of ids to run examples with. *)
Definition example_clock (n : nat) : Z := (1000 + Z.of_nat n)%Z.

Fixpoint example_uuid (n : nat) : string :=
  match n with
  | O => "u"
  | S n' => "x" +:+ example_uuid n'
  end.

Definition connect_request_message (target requester : string) : Message :=
  [("type", VStr "connect_request"); ("timestamp", VNum 3%Z);
   ("targetDeviceId", VStr target); ("clientId", VStr requester)].

Definition offer_message (sender receiver : string) : Message :=
  [("type", VStr "offer"); ("timestamp", VNum 5%Z); ("offer", VObject 7 true);
   ("from", VStr sender); ("to", VStr receiver)].

Definition register_host_message (id : string) : Message :=
  [("type", VStr "register_host"); ("timestamp", VNum 1%Z);
   ("deviceId", VStr id); ("deviceName", VStr "Office-PC");
   ("platform", VStr "macos")].

Definition register_client_message (id : string) : Message :=
  [("type", VStr "register_client"); ("timestamp", VNum 2%Z);
   ("clientId", VStr id)].

Definition register_host_frame (id : string) : Frame :=
  Parses (PObject (register_host_message id)).

Definition register_client_frame (id : string) : Frame :=
  Parses (PObject (register_client_message id)).

(** Host "h1" on socket 1 and client "c1" on socket 2, both open. *)
Definition example_events : list Event :=
  [Connection 1; MessageEvent 1 (register_host_frame "h1");
   Connection 2; MessageEvent 2 (register_client_frame "c1")].

Definition example_state : State :=
  run example_clock example_uuid initial example_events.

(** REGISTER_HOST without [deviceId]. *)
Definition nameless_host_message : Message :=
  [("type", VStr "register_host"); ("timestamp", VNum 1%Z);
   ("deviceName", VStr "Office-PC"); ("platform", VStr "macos")].

(** The example after socket 1 closed. *)
Definition example_closed_state : State :=
  step example_clock example_uuid example_state (CloseEvent 1).

(** Socket 1 registers twice, as client "c1" then as host "h1"; client "c2"
    is on socket 2. *)
Definition two_ids_events : list Event :=
  [Connection 1; MessageEvent 1 (register_client_frame "c1");
   MessageEvent 1 (register_host_frame "h1");
   Connection 2; MessageEvent 2 (register_client_frame "c2")].

Definition two_ids_state : State :=
  run example_clock example_uuid initial two_ids_events.

(** REGISTER_CLIENT with [clientId] empty, and without [clientId]. *)
Definition empty_clientId_message : Message :=
  [("type", VStr "register_client"); ("timestamp", VNum 2%Z); ("clientId", VStr "")].

Definition no_clientId_message : Message :=
  [("type", VStr "register_client"); ("timestamp", VNum 2%Z)].

(** Host "h1" on socket 1, then a client that calls itself "h1" on socket 2. *)
Definition takeover_events : list Event :=
  [Connection 1; MessageEvent 1 (register_host_frame "h1");
   Connection 2; MessageEvent 2 (register_client_frame "h1")].

Definition takeover_state : State :=
  run example_clock example_uuid initial takeover_events.

(** A forged DEVICE_LIST sent to the server. *)
Definition forged_list_message : Message :=
  [("type", VStr "device_list"); ("timestamp", VNum 9%Z)].

Definition get_devices_message : Message :=
  [("type", VStr "get_devices"); ("timestamp", VNum 4%Z)].

(** An object whose conversion to a string throws, such as
    [{"toString": null}]. *)
Definition unprintable : value := VObject 9 false.

(** A CONNECT_REQUEST for host "h1" whose [clientId] is such an object, and
    an OFFER whose [from], or whose [to], is. *)
Definition unprintable_request_message : Message :=
  [("type", VStr "connect_request"); ("timestamp", VNum 3%Z);
   ("targetDeviceId", VStr "h1"); ("clientId", unprintable)].

Definition offer_from_unprintable : Message :=
  [("type", VStr "offer"); ("timestamp", VNum 5%Z); ("offer", VObject 7 true);
   ("from", unprintable); ("to", VStr "c1")].

Definition offer_to_unprintable : Message :=
  [("type", VStr "offer"); ("timestamp", VNum 5%Z); ("offer", VObject 7 true);
   ("from", VStr "h1"); ("to", unprintable)].

(** Socket 1 registers host "ha" and then host "hb", client "c2" registers
    on socket 2, and socket 1 closes: the close removes "ha" only, and "hb"
    stays registered on a closed socket. *)
Definition stale_host_events : list Event :=
  [Connection 1; MessageEvent 1 (register_host_frame "ha");
   MessageEvent 1 (register_host_frame "hb");
   Connection 2; MessageEvent 2 (register_client_frame "c2");
   CloseEvent 1].

Definition stale_host_state : State :=
  run example_clock example_uuid initial stale_host_events.

(** Socket 1 registers a host whose [deviceId] is an object that cannot be
    converted to a string: the registration is made and answered with an
    error.  Client "c2" is on socket 2. *)
Definition unprintable_host_message : Message :=
  [("type", VStr "register_host"); ("timestamp", VNum 1%Z);
   ("deviceId", unprintable); ("deviceName", VStr "Office-PC");
   ("platform", VStr "macos")].

Definition unprintable_host_events : list Event :=
  [Connection 1; MessageEvent 1 (Parses (PObject unprintable_host_message));
   Connection 2; MessageEvent 2 (register_client_frame "c2")].

Definition unprintable_host_state : State :=
  run example_clock example_uuid initial unprintable_host_events.

Definition disconnect_message : Message :=
  [("type", VStr "disconnect"); ("timestamp", VNum 6%Z)].

(** Socket 1 registers clients "ca" and "cb" and closes, which removes "ca"
    only; host "h2" is on socket 2. *)
Definition stale_client_events : list Event :=
  [Connection 1; MessageEvent 1 (register_client_frame "ca");
   MessageEvent 1 (register_client_frame "cb");
   Connection 2; MessageEvent 2 (register_host_frame "h2");
   CloseEvent 1].

Definition stale_client_state : State :=
  run example_clock example_uuid initial stale_client_events.

(** REGISTER_CLIENT whose [clientId], and REGISTER_HOST whose [deviceName],
    is an object that cannot be converted to a string. *)
Definition unprintable_client_message : Message :=
  [("type", VStr "register_client"); ("timestamp", VNum 2%Z);
   ("clientId", unprintable)].

Definition unprintable_name_message : Message :=
  [("type", VStr "register_host"); ("timestamp", VNum 1%Z);
   ("deviceId", VStr "h2"); ("deviceName", unprintable);
   ("platform", VStr "macos")].

(** REGISTER_CLIENT with [clientId] the number zero. *)
Definition zero_clientId_message : Message :=
  [("type", VStr "register_client"); ("timestamp", VNum 2%Z); ("clientId", VNum 0%Z)].

(** * The two applications: the signaling side of their main processes
    (class ClientApp of client-app/src/main.ts, class HostApp of the host
    application's main.ts) *)

(** ** What a main process does to the outside *)

(** The argument of [webContents.send]: an object literal of plain fields, or
    [{ error: message }] around the parsed message. *)
Inductive RendererData : Type :=
| Fields (fields : Message)
| ErrorOf (message : Message).

Inductive Effect : Type :=
| WsSend (message : Message)          (* this.ws.send(JSON.stringify(message)) *)
| ToRenderer (channel : string) (data : RendererData).
                                      (* webContents.send(channel, data) *)

(** [JSON.stringify] of an object literal leaves out the properties whose
    value is [undefined]; the server parses what is left. *)
Definition stringified (message : Message) : Message :=
  filter (fun kv => kv.2 <> VUndefined) message.

(** The frames among the effects, in order. *)
Definition frames (effects : list Effect) : list Message :=
  omap (fun e => match e with WsSend m => Some m | ToRenderer _ _ => None end)
       effects.

(** ** client-app/src/main.ts: class ClientApp *)

Module ClientApp.

Record App : Type := mkApp {
  mainWindow : bool;            (* [this.mainWindow] is a window, not [null] *)
  ws : option ReadyState;       (* [this.ws]: [null], or a socket in this state *)
  clientId : string;            (* [uuidv4()] of the constructor *)
  date_calls : nat;             (* how often [Date.now()] was read *)
}.

(** A method: what it does to the outside, and the application after it. *)
Definition Handler : Type := App -> list Effect * App.

Definition andThen (f g : Handler) : Handler :=
  fun a => let (l1, a1) := f a in let (l2, a2) := g a1 in (l1 ++ l2, a2).

(** A method that starts with a log line whose argument is a template
    literal: when the conversion of an interpolated value throws, the rest does
    not run, and the [catch] of the message listener only logs. *)
Definition logged (interpolated : list value) (rest : Handler) : Handler :=
  fun a => if forallb printable interpolated then rest a else ([], a).

Definition tick (a : App) : App :=
  mkApp (mainWindow a) (ws a) (clientId a) (S (date_calls a)).

Definition with_ws (state : option ReadyState) (a : App) : App :=
  mkApp (mainWindow a) state (clientId a) (date_calls a).

(** What a message from the renderer is. *)
Inductive Ipc : Type :=
| connect_to_device (deviceId : value)
| send_offer (arg : Message)
| send_answer (arg : Message)
| send_ice_candidate (arg : Message)
| refresh_devices.

Inductive Event : Type :=
| Open                          (* [this.ws.on('open')] *)
| Received (data : Frame)       (* [this.ws.on('message')] *)
| Close                         (* [this.ws.on('close')] *)
| Connect                       (* [connectToSignalingServer]: at start, and
                                   five seconds after a close *)
| FromRenderer (message : Ipc)
| WindowCreated                 (* [createWindow] *)
| WindowClosed.                 (* [this.mainWindow.on('closed')] *)

Section Methods.
Variable clock : nat -> Z.

Definition send (message : Message) : Handler :=
  fun a => (match ws a with
            | Some OPEN => [WsSend (stringified message)]
            | _ => []
            end, a).

Definition sendToRenderer (channel : string) (data : RendererData) : Handler :=
  fun a => (if mainWindow a then [ToRenderer channel data] else [], a).

Definition updateStatus (status : string) : Handler :=
  sendToRenderer "status-update" (Fields [("status", VStr status)]).

Definition requestDeviceList : Handler :=
  fun a =>
    match ws a with
    | None => ([], a)
    | Some _ =>
        send [("type", VStr (MessageType_value GET_DEVICES));
              ("timestamp", VNum (clock (date_calls a)))] (tick a)
    end.

Definition registerClient : Handler :=
  fun a =>
    match ws a with
    | None => ([], a)
    | Some _ =>
        andThen
          (send [("type", VStr (MessageType_value REGISTER_CLIENT));
                 ("timestamp", VNum (clock (date_calls a)));
                 ("clientId", VStr (clientId a))])
          requestDeviceList (tick a)
    end.

Definition handleDeviceList (message : Message) : Handler :=
  sendToRenderer "device-list" (Fields [("devices", prop message "devices")]).

Definition handleOffer (message : Message) : Handler :=
  logged [prop message "from"]
    (sendToRenderer "offer" (Fields [("offer", prop message "offer");
                                     ("from", prop message "from")])).

Definition handleAnswer (message : Message) : Handler :=
  logged [prop message "from"]
    (sendToRenderer "answer" (Fields [("answer", prop message "answer");
                                      ("from", prop message "from")])).

Definition handleIceCandidate (message : Message) : Handler :=
  logged [prop message "from"]
    (sendToRenderer "ice-candidate" (Fields [("candidate", prop message "candidate");
                                             ("from", prop message "from")])).

Definition handleSignalingMessage (message : Message) : Handler :=
  fun a =>
    match case_label (prop message "type") with
    | Some AUTH_SUCCESS =>
        sendToRenderer "auth-success" (Fields [("clientId", VStr (clientId a))]) a
    | Some DEVICE_LIST => handleDeviceList message a
    | Some DEVICE_ONLINE | Some DEVICE_OFFLINE => requestDeviceList a
    | Some CONNECTION_ACCEPTED => sendToRenderer "connection-accepted" (Fields []) a
    | Some OFFER => handleOffer message a
    | Some ANSWER => handleAnswer message a
    | Some ICE_CANDIDATE => handleIceCandidate message a
    | Some ERROR => sendToRenderer "error" (ErrorOf message) a
    | _ => ([], a)
    end.

(** The message listener: [JSON.parse], the read of [message.type] or a
    log line may throw, and the [catch] only logs. *)
Definition on_message (data : Frame) : Handler :=
  match data with
  | Parses (PObject message) => handleSignalingMessage message
  | _ => fun a => ([], a)
  end.

Definition on_open : Handler := andThen registerClient (updateStatus "online").

Definition on_close : Handler := updateStatus "offline".

(** The listeners of [setupIpcHandlers]; the argument of the three [send-]
    channels is destructured. *)
Definition on_ipc (message : Ipc) : Handler :=
  fun a =>
    let now := VNum (clock (date_calls a)) in
    match message with
    | connect_to_device deviceId =>
        send [("type", VStr (MessageType_value CONNECT_REQUEST)); ("timestamp", now);
              ("targetDeviceId", deviceId); ("clientId", VStr (clientId a))] (tick a)
    | send_offer arg =>
        send [("type", VStr (MessageType_value OFFER)); ("timestamp", now);
              ("offer", prop arg "offer"); ("from", VStr (clientId a));
              ("to", prop arg "to")] (tick a)
    | send_answer arg =>
        send [("type", VStr (MessageType_value ANSWER)); ("timestamp", now);
              ("answer", prop arg "answer"); ("from", VStr (clientId a));
              ("to", prop arg "to")] (tick a)
    | send_ice_candidate arg =>
        send [("type", VStr (MessageType_value ICE_CANDIDATE)); ("timestamp", now);
              ("candidate", prop arg "candidate"); ("from", VStr (clientId a));
              ("to", prop arg "to")] (tick a)
    | refresh_devices => requestDeviceList a
    end.

(** One event of the main process.  The socket is [OPEN] when its [open]
    listener runs and [CLOSED] when its [close] listener runs;
    [connectToSignalingServer] puts a new socket in [this.ws];
    [createWindow] a new window in [this.mainWindow]. *)
Definition step (a : App) (e : Event) : list Effect * App :=
  match e with
  | Open => on_open (with_ws (Some OPEN) a)
  | Received data => on_message data a
  | Close => on_close (with_ws (Some CLOSED) a)
  | Connect => ([], with_ws (Some CONNECTING) a)
  | FromRenderer message => on_ipc message a
  | WindowCreated => ([], mkApp true (ws a) (clientId a) (date_calls a))
  | WindowClosed => ([], mkApp false (ws a) (clientId a) (date_calls a))
  end.
End Methods.

End ClientApp.

(** ** The host application's main.ts: class HostApp *)

Module HostApp.

Record App : Type := mkApp {
  mainWindow : bool;
  ws : option ReadyState;
  deviceId : value;             (* from the configuration file, or [uuidv4()] *)
  deviceName : string;          (* [os.hostname() || 'Unknown Device'] *)
  platform : string;            (* [process.platform] *)
  connectedClientId : value;    (* [null] at first *)
  date_calls : nat;
}.

Definition Handler : Type := App -> list Effect * App.

Definition andThen (f g : Handler) : Handler :=
  fun a => let (l1, a1) := f a in let (l2, a2) := g a1 in (l1 ++ l2, a2).

(** A method that starts with a log line whose argument is a template
    literal: when the conversion of an interpolated value throws, the rest does
    not run, and the [catch] of the message listener only logs. *)
Definition logged (interpolated : list value) (rest : Handler) : Handler :=
  fun a => if forallb printable interpolated then rest a else ([], a).

Definition tick (a : App) : App :=
  mkApp (mainWindow a) (ws a) (deviceId a) (deviceName a) (platform a)
        (connectedClientId a) (S (date_calls a)).

Definition with_ws (state : option ReadyState) (a : App) : App :=
  mkApp (mainWindow a) state (deviceId a) (deviceName a) (platform a)
        (connectedClientId a) (date_calls a).

Definition with_connectedClientId (id : value) (a : App) : App :=
  mkApp (mainWindow a) (ws a) (deviceId a) (deviceName a) (platform a)
        id (date_calls a).

Inductive Ipc : Type :=
| send_offer (arg : Message)
| send_answer (arg : Message)
| send_ice_candidate (arg : Message).

Inductive Event : Type :=
| Open
| Received (data : Frame)
| Close
| Connect
| FromRenderer (message : Ipc)
| WindowCreated
| WindowClosed.

Section Methods.
Variable clock : nat -> Z.

Definition send (message : Message) : Handler :=
  fun a => (match ws a with
            | Some OPEN => [WsSend (stringified message)]
            | _ => []
            end, a).

Definition sendToRenderer (channel : string) (data : RendererData) : Handler :=
  fun a => (if mainWindow a then [ToRenderer channel data] else [], a).

Definition updateStatus (status : string) : Handler :=
  sendToRenderer "status-update" (Fields [("status", VStr status)]).

Definition registerHost : Handler :=
  fun a =>
    match ws a with
    | None => ([], a)
    | Some _ =>
        send [("type", VStr (MessageType_value REGISTER_HOST));
              ("timestamp", VNum (clock (date_calls a)));
              ("deviceId", deviceId a);
              ("deviceName", VStr (deviceName a));
              ("platform", VStr (platform a))] (tick a)
    end.

Definition handleConnectionRequest (message : Message) : Handler :=
  logged [prop message "clientId"]
    (fun a =>
       sendToRenderer "connection-request"
         (Fields [("clientId", prop message "clientId")])
         (with_connectedClientId (prop message "clientId") a)).

Definition handleOffer (message : Message) : Handler :=
  logged [prop message "from"]
    (sendToRenderer "offer" (Fields [("offer", prop message "offer");
                                     ("from", prop message "from")])).

Definition handleAnswer (message : Message) : Handler :=
  logged [prop message "from"]
    (sendToRenderer "answer" (Fields [("answer", prop message "answer");
                                      ("from", prop message "from")])).

Definition handleIceCandidate (message : Message) : Handler :=
  logged [prop message "from"]
    (sendToRenderer "ice-candidate" (Fields [("candidate", prop message "candidate");
                                             ("from", prop message "from")])).

Definition handleSignalingMessage (message : Message) : Handler :=
  fun a =>
    match case_label (prop message "type") with
    | Some AUTH_SUCCESS =>
        sendToRenderer "auth-success"
          (Fields [("deviceId", deviceId a); ("deviceName", VStr (deviceName a))]) a
    | Some CONNECT_REQUEST => handleConnectionRequest message a
    | Some OFFER => handleOffer message a
    | Some ANSWER => handleAnswer message a
    | Some ICE_CANDIDATE => handleIceCandidate message a
    | _ => ([], a)                (* [ERROR] is logged only *)
    end.

Definition on_message (data : Frame) : Handler :=
  match data with
  | Parses (PObject message) => handleSignalingMessage message
  | _ => fun a => ([], a)
  end.

Definition on_open : Handler := andThen registerHost (updateStatus "online").

Definition on_close : Handler := updateStatus "offline".

Definition on_ipc (message : Ipc) : Handler :=
  fun a =>
    let now := VNum (clock (date_calls a)) in
    match message with
    | send_offer arg =>
        send [("type", VStr (MessageType_value OFFER)); ("timestamp", now);
              ("offer", prop arg "offer"); ("from", deviceId a);
              ("to", prop arg "to")] (tick a)
    | send_answer arg =>
        send [("type", VStr (MessageType_value ANSWER)); ("timestamp", now);
              ("answer", prop arg "answer"); ("from", deviceId a);
              ("to", prop arg "to")] (tick a)
    | send_ice_candidate arg =>
        send [("type", VStr (MessageType_value ICE_CANDIDATE)); ("timestamp", now);
              ("candidate", prop arg "candidate"); ("from", deviceId a);
              ("to", prop arg "to")] (tick a)
    end.

Definition step (a : App) (e : Event) : list Effect * App :=
  match e with
  | Open => on_open (with_ws (Some OPEN) a)
  | Received data => on_message data a
  | Close => on_close (with_ws (Some CLOSED) a)
  | Connect => ([], with_ws (Some CONNECTING) a)
  | FromRenderer message => on_ipc message a
  | WindowCreated =>
      ([], mkApp true (ws a) (deviceId a) (deviceName a) (platform a)
                 (connectedClientId a) (date_calls a))
  | WindowClosed =>
      ([], mkApp false (ws a) (deviceId a) (deviceName a) (platform a)
                 (connectedClientId a) (date_calls a))
  end.
End Methods.

End HostApp.

(** ** The applications and the server together *)

(** The [type] of an object the server serialises. *)
Definition Outbound_type (o : Outbound) : value :=
  match o with
  | AuthSuccess _ _ => VStr (MessageType_value AUTH_SUCCESS)
  | DeviceList _ _ => VStr (MessageType_value DEVICE_LIST)
  | DeviceStatus status _ _ => VStr (MessageType_value status)
  | ConnectRequest _ _ _ => VStr (MessageType_value CONNECT_REQUEST)
  | ConnectionAccepted _ _ => VStr (MessageType_value CONNECTION_ACCEPTED)
  | ErrorMessage _ _ _ => VStr (MessageType_value ERROR)
  | Forwarded message => prop message "type"
  end.

(** [JSON.parse(JSON.stringify(v))] at the other end of a socket: a
    primitive arrives as it is, an object as a new object with the same
    content, so with a conversion to a string that ends the same way; its
    identity at the receiving end is its own. *)
Definition copy_of (v v' : value) : Prop :=
  match v with
  | VObject _ to_string_returns => exists addr, v' = VObject addr to_string_returns
  | _ => v' = v
  end.

(** What one end parses when the other end wrote the object [sent]. *)
Definition received_as (sent got : Message) : Prop :=
  forall name, copy_of (prop sent name) (prop got name).

(** What an application gets when it parses a frame the server wrote: an
    object with copies of the plain properties of the object the server
    serialised; the nested [device] and [devices] are left open. *)
Definition parsed_as (o : Outbound) (m : Message) : Prop :=
  match o with
  | AuthSuccess _ id =>
      prop m "type" = Outbound_type o /\ copy_of id (prop m "id")
  | ConnectRequest _ target requester =>
      prop m "type" = Outbound_type o /\
      copy_of target (prop m "targetDeviceId") /\
      copy_of requester (prop m "clientId")
  | ConnectionAccepted _ hostId =>
      prop m "type" = Outbound_type o /\ copy_of hostId (prop m "hostId")
  | Forwarded message => received_as message m
  | _ => prop m "type" = Outbound_type o
  end.

(** The server handles the frames an application wrote on its socket, in
    order; [w] is the server's end of that socket, and every frame is parsed
    anew. *)
Inductive delivered (clock : nat -> Z) (uuid : nat -> string) (w : WebSocket)
  : State -> list Message -> State -> Prop :=
| delivered_nil s : delivered clock uuid w s [] s
| delivered_cons s sent got rest s' :
    received_as sent got ->
    delivered clock uuid w
      (step clock uuid s (MessageEvent w (Parses (PObject got)))) rest s' ->
    delivered clock uuid w s (sent :: rest) s'.

(** Examples: a client application and a host application, connected. *)
Definition example_client_app : ClientApp.App :=
  ClientApp.mkApp true (Some OPEN) "c1" 0.

Definition example_host_app : HostApp.App :=
  HostApp.mkApp true (Some OPEN) (VStr "h1") "Office-PC" "darwin" VNull 0.

(** * Properties *)

(** ** The Map operations *)

Section JsMap_facts.
Context {V : Type}.
Implicit Types (m : list (value * V)) (k key : value) (v x : V).

Lemma Map_get_Some m k v : Map_get k m = Some v -> (k, v) ∈ m.
Proof.
  induction m as [|[k' v'] m IH]; simpl; [done|].
  destruct (decide (k' = k)) as [->|Hne]; intros H.
  - inversion H; subst. apply elem_of_cons; by left.
  - apply elem_of_cons; right; auto.
Qed.

Lemma Map_get_None m k : Map_get k m = None <-> k ∉ Map_keys m.
Proof.
  unfold Map_keys.
  induction m as [|[k' v'] m IH]; simpl.
  - split; [intros _; apply not_elem_of_nil | done].
  - rewrite not_elem_of_cons. destruct (decide (k' = k)) as [->|Hne].
    + split; [done | intros [? _]; done].
    + rewrite IH. split; [intros ?; split; [congruence | done] | intros [_ ?]; done].
Qed.

Lemma elem_of_Map_keys m k v : (k, v) ∈ m -> k ∈ Map_keys m.
Proof. intros H. unfold Map_keys. apply (list_elem_of_fmap_2 fst) in H. exact H. Qed.

Lemma Map_get_elem_of m k v :
  NoDup (Map_keys m) -> (k, v) ∈ m -> Map_get k m = Some v.
Proof.
  unfold Map_keys.
  induction m as [|[k' v'] m IH]; simpl; intros Hnd Hin.
  - by apply elem_of_nil in Hin.
  - apply NoDup_cons in Hnd as [Hk' Hnd].
    apply elem_of_cons in Hin as [Heq|Hin].
    + inversion Heq; subst. by rewrite decide_True.
    + destruct (decide (k' = k)) as [->|Hne]; [|by apply IH].
      exfalso. apply Hk'. by apply (elem_of_Map_keys _ _ v).
Qed.

Lemma Map_get_set_eq m key x : Map_get key (Map_set key x m) = Some x.
Proof.
  induction m as [|[k' v'] m IH]; simpl.
  - by rewrite decide_True.
  - destruct (decide (k' = key)); simpl.
    + by rewrite decide_True.
    + by rewrite decide_False.
Qed.

Lemma Map_get_set_ne m key x k :
  k <> key -> Map_get k (Map_set key x m) = Map_get k m.
Proof.
  intros Hne. induction m as [|[k' v'] m IH]; simpl.
  - by rewrite decide_False.
  - destruct (decide (k' = key)) as [->|Hk]; simpl.
    + rewrite !decide_False; congruence.
    + destruct (decide (k' = k)); done.
Qed.

Lemma Map_keys_set m key x :
  forall k, k ∈ Map_keys (Map_set key x m) <-> k = key \/ k ∈ Map_keys m.
Proof.
  unfold Map_keys. intros k.
  induction m as [|[k' v'] m IH]; simpl.
  - rewrite elem_of_cons. rewrite elem_of_nil. tauto.
  - destruct (decide (k' = key)) as [->|Hk]; simpl.
    + rewrite !elem_of_cons. tauto.
    + rewrite !elem_of_cons, IH. tauto.
Qed.

Lemma NoDup_Map_set m key x :
  NoDup (Map_keys m) -> NoDup (Map_keys (Map_set key x m)).
Proof.
  induction m as [|[k' v'] m IH]; simpl; intros Hnd.
  - apply NoDup_singleton.
  - pose proof Hnd as Hnd0. apply NoDup_cons in Hnd as [Hk' Hnd].
    destruct (decide (k' = key)) as [->|Hk]; simpl.
    + exact Hnd0.
    + apply NoDup_cons. split; [|by apply IH].
      intros Hin. apply Map_keys_set in Hin as [?|?]; [congruence | done].
Qed.

Lemma elem_of_Map_set m key x k v :
  NoDup (Map_keys m) ->
  (k, v) ∈ Map_set key x m <-> (k = key /\ v = x) \/ (k <> key /\ (k, v) ∈ m).
Proof.
  induction m as [|[k' v'] m IH]; simpl; intros Hnd.
  - rewrite elem_of_cons, elem_of_nil. split.
    + intros [Heq|[]]. inversion Heq. by left.
    + intros [[-> ->]|[_ []]]. by left.
  - apply NoDup_cons in Hnd as [Hk' Hnd].
    destruct (decide (k' = key)) as [->|Hk].
    + rewrite !elem_of_cons. split.
      * intros [Heq|Hin]; [inversion Heq; by left|].
        right. split; [|by right]. intros ->.
        apply Hk'. by apply (elem_of_Map_keys _ _ v).
      * intros [[-> ->]|[Hne [Heq|Hin]]]; [by left | | by right].
        inversion Heq; congruence.
    + rewrite !elem_of_cons, (IH Hnd). split.
      * intros [Heq|[?|[? ?]]]; [|by left|by right; split; [|right]].
        inversion Heq; subst. right. split; [done | by left].
      * intros [?|[Hne [Heq|Hin]]]; [right; by left | by left | right; by right].
Qed.

Lemma Map_keys_delete m key k :
  k ∈ Map_keys (Map_delete key m) -> k ∈ Map_keys m.
Proof.
  unfold Map_keys. induction m as [|[k' v'] m IH]; simpl; [done|].
  destruct (decide (k' = key)); simpl; rewrite !elem_of_cons; tauto.
Qed.

Lemma NoDup_Map_delete m key :
  NoDup (Map_keys m) -> NoDup (Map_keys (Map_delete key m)).
Proof.
  induction m as [|[k' v'] m IH]; simpl; intros Hnd; [done|].
  apply NoDup_cons in Hnd as [Hk' Hnd].
  destruct (decide (k' = key)); simpl; [done|].
  apply NoDup_cons. split; [|by apply IH].
  intros Hin. by apply Map_keys_delete in Hin.
Qed.

Lemma elem_of_Map_delete m key k v :
  NoDup (Map_keys m) ->
  (k, v) ∈ Map_delete key m <-> k <> key /\ (k, v) ∈ m.
Proof.
  induction m as [|[k' v'] m IH]; simpl; intros Hnd.
  - rewrite elem_of_nil. tauto.
  - apply NoDup_cons in Hnd as [Hk' Hnd].
    destruct (decide (k' = key)) as [->|Hk].
    + rewrite elem_of_cons. split.
      * intros Hin. split; [|by right]. intros ->.
        apply Hk'. by apply (elem_of_Map_keys _ _ v).
      * intros [Hne [Heq|Hin]]; [inversion Heq; congruence | done].
    + rewrite !elem_of_cons, (IH Hnd). split.
      * intros [Heq|[? ?]]; [inversion Heq; subst; split; [done|by left]|].
        split; [done | by right].
      * intros [Hne [?|?]]; [by left | by right].
Qed.

Lemma Map_get_delete_eq m key :
  NoDup (Map_keys m) -> Map_get key (Map_delete key m) = None.
Proof.
  intros Hnd. apply Map_get_None. intros Hin.
  unfold Map_keys in Hin. apply list_elem_of_fmap in Hin as [[k v] [Hk Hin]].
  simpl in Hk; subst. apply elem_of_Map_delete in Hin as [? _]; done.
Qed.

Lemma Map_get_delete_ne m key k :
  k <> key -> Map_get k (Map_delete key m) = Map_get k m.
Proof.
  intros Hne. induction m as [|[k' v'] m IH]; simpl; [done|].
  destruct (decide (k' = key)) as [->|Hk]; simpl.
  - by rewrite decide_False.
  - destruct (decide (k' = k)); done.
Qed.

End JsMap_facts.

(** ** Order and membership *)

Section JsMap_order.
Context {V : Type}.
Implicit Types (m : list (value * V)) (k key : value) (v x : V).

(** [set] on an absent key appends the entry. *)
Lemma Map_set_fresh m key x :
  key ∉ Map_keys m -> Map_set key x m = m ++ [(key, x)].
Proof.
  unfold Map_keys. induction m as [|[k v] m IH]; simpl; [done|].
  rewrite not_elem_of_cons. intros [Hne Hnin].
  rewrite decide_False by congruence. by rewrite IH.
Qed.

(** [set] on a present key keeps the keys and their order. *)
Lemma Map_keys_set_present m key x :
  key ∈ Map_keys m -> Map_keys (Map_set key x m) = Map_keys m.
Proof.
  unfold Map_keys. induction m as [|[k v] m IH]; simpl.
  - intros H. by apply elem_of_nil in H.
  - destruct (decide (k = key)) as [->|Hne]; [done|].
    rewrite elem_of_cons. intros [?|Hin]; [congruence|]. simpl. by rewrite IH.
Qed.

Lemma Map_delete_last m key x :
  key ∉ Map_keys m -> Map_delete key (m ++ [(key, x)]) = m.
Proof.
  unfold Map_keys. induction m as [|[k v] m IH]; simpl.
  - intros _. by rewrite decide_True.
  - rewrite not_elem_of_cons. intros [Hne Hnin].
    rewrite decide_False by congruence. by rewrite IH.
Qed.

(** An entry of the map after [set] is the one set or was there before. *)
Lemma elem_of_Map_set_inv m key x k v :
  (k, v) ∈ Map_set key x m -> (k = key /\ v = x) \/ (k, v) ∈ m.
Proof.
  induction m as [|[k' v'] m IH]; simpl.
  - intros H. apply list_elem_of_singleton in H. inversion H. by left.
  - destruct (decide (k' = key)) as [->|Hne]; rewrite !elem_of_cons.
    + intros [H|H]; [inversion H; by left | right; by right].
    + intros [H|H]; [right; by left|].
      destruct (IH H) as [?|?]; [by left | right; by right].
Qed.

Lemma elem_of_Map_delete_inv m key k v :
  (k, v) ∈ Map_delete key m -> (k, v) ∈ m.
Proof.
  induction m as [|[k' v'] m IH]; simpl; [done|].
  destruct (decide (k' = key)); rewrite !elem_of_cons; [by right|].
  intros [?|?]; [by left | right; by apply IH].
Qed.

Lemma Map_get_delete_None m key k :
  Map_get k m = None -> Map_get k (Map_delete key m) = None.
Proof.
  induction m as [|[k' v'] m IH]; simpl; [done|].
  destruct (decide (k' = k)) as [->|Hne]; [done|]. intros H.
  destruct (decide (k' = key)); simpl; [done|].
  rewrite decide_False by done. by apply IH.
Qed.

Lemma elem_of_Map_values m v : v ∈ Map_values m -> exists k, (k, v) ∈ m.
Proof.
  unfold Map_values. intros H.
  apply list_elem_of_fmap in H as ([k v'] & -> & Hin). by exists k.
Qed.

Lemma Map_values_elem_of m k v : (k, v) ∈ m -> v ∈ Map_values m.
Proof.
  intros H. unfold Map_values. apply list_elem_of_fmap. by exists (k, v).
Qed.
End JsMap_order.
(** ** What each handler does to the state *)

Lemma push_nil s : push s [] = s.
Proof. destruct s. unfold push, at_calls. simpl. by rewrite !app_nil_r. Qed.

Lemma push_push s l1 l2 : push (push s l1) l2 = push s (l1 ++ l2).
Proof. unfold push, at_calls. simpl. by rewrite map_app, !app_assoc. Qed.

Lemma at_calls_app n l1 l2 : at_calls n (l1 ++ l2) = at_calls n l1 ++ at_calls n l2.
Proof. apply map_app. Qed.

Lemma length_at_calls n l : length (at_calls n l) = length l.
Proof. apply length_map. Qed.

Section Handlers.
Variable clock : nat -> Z.
Variable uuid : nat -> string.

Lemma send_eq ws o s : send ws o s = (tt, push s (written s ws o)).
Proof.
  unfold send, written, bind, get.
  destruct (decide (readyState s ws = OPEN)); [done|].
  unfold ret. by rewrite push_nil.
Qed.

Lemma sendError_eq ws error details s :
  let frames := written s ws (ErrorMessage (clock (date_calls s)) error details) in
  sendError clock ws error details s =
  (tt, mkState (clients s) (devices s) (heap s) (next_ref s) (readyState s)
               (S (date_calls s)) (uuid_calls s)
               (wire s ++ frames) (sent_at s ++ at_calls (S (date_calls s)) frames)).
Proof. unfold sendError, bind, Date_now. by rewrite send_eq. Qed.

Lemma broadcast_loop_eq o cs s :
  broadcast_loop o cs s = (tt, push s (broadcast_frames s o cs)).
Proof.
  revert s. induction cs as [|c cs IH]; intros s; simpl.
  - unfold ret, broadcast_frames. by rewrite push_nil.
  - unfold bind, broadcast_frames. rewrite filter_cons.
    destruct (decide (client_type c = client)) as [Hc|Hc].
    + rewrite send_eq, IH, push_push. unfold written.
      destruct (decide (readyState s (client_ws c) = OPEN)) as [Ho|Ho].
      * rewrite decide_True by done. done.
      * rewrite decide_False by (intros [_ ?]; done). done.
    + unfold ret. rewrite IH. rewrite decide_False by (intros [? _]; done). done.
Qed.

Lemma broadcastDeviceStatus_eq device status s :
  let frames := broadcast_frames s
                  (DeviceStatus status (clock (date_calls s)) (heap s device))
                  (Map_values (clients s)) in
  broadcastDeviceStatus clock device status s =
  (tt, mkState (clients s) (devices s) (heap s) (next_ref s) (readyState s)
               (S (date_calls s)) (uuid_calls s)
               (wire s ++ frames) (sent_at s ++ at_calls (S (date_calls s)) frames)).
Proof.
  unfold broadcastDeviceStatus, bind, Date_now, get. by rewrite broadcast_loop_eq.
Qed.

(** [handleRegisterHost] writes both maps, then logs: when the log line
    throws, the registration stays and nothing is sent. *)
Lemma handleRegisterHost_eq ws m s :
  let id := prop m "deviceId" in
  let d := mkDevice id (prop m "deviceName") (prop m "platform") true
                    (clock (date_calls s)) in
  let cs := Map_set id (mkClient id ws host (Some (next_ref s))) (clients s) in
  let auth := written s ws (AuthSuccess (clock (1 + date_calls s)) id) in
  let online := broadcast_frames s
                  (DeviceStatus DEVICE_ONLINE (clock (2 + date_calls s)) d)
                  (Map_values cs) in
  handleRegisterHost clock ws m s =
  if printable (prop m "deviceName") && printable id
  then (Normal,
        mkState cs (Map_set id (next_ref s) (devices s))
                (fun r => if decide (r = next_ref s) then d else heap s r)
                (S (next_ref s)) (readyState s)
                (3 + date_calls s) (uuid_calls s)
                (wire s ++ auth ++ online)
                (sent_at s ++ at_calls (2 + date_calls s) auth
                           ++ at_calls (3 + date_calls s) online))
  else (Throw,
        mkState cs (Map_set id (next_ref s) (devices s))
                (fun r => if decide (r = next_ref s) then d else heap s r)
                (S (next_ref s)) (readyState s)
                (1 + date_calls s) (uuid_calls s) (wire s) (sent_at s)).
Proof.
  intros id d cs auth online. unfold handleRegisterHost, bind, Date_now, new_Device,
    with_clients, with_devices, console_log, ret. simpl.
  fold id. destruct (printable (prop m "deviceName")), (printable id); simpl; try done.
  rewrite send_eq. unfold push at 1. simpl.
  rewrite broadcastDeviceStatus_eq. simpl.
  rewrite decide_True by done. by rewrite <- !app_assoc.
Qed.

(** The id [handleRegisterClient] registers, and whether it called
    [uuidv4()] for it. *)
Lemma handleRegisterClient_eq ws m s :
  let generated := negb (truthy (prop m "clientId")) in
  let id := if generated then VStr (uuid (uuid_calls s)) else prop m "clientId" in
  let auth := written s ws (AuthSuccess (clock (date_calls s)) id) in
  handleRegisterClient clock uuid ws m s =
  if printable id
  then (Normal,
        mkState (Map_set id (mkClient id ws client None) (clients s)) (devices s)
                (heap s) (next_ref s) (readyState s)
                (S (date_calls s))
                (if generated then S (uuid_calls s) else uuid_calls s)
                (wire s ++ auth) (sent_at s ++ at_calls (S (date_calls s)) auth))
  else (Throw,
        mkState (Map_set id (mkClient id ws client None) (clients s)) (devices s)
                (heap s) (next_ref s) (readyState s)
                (date_calls s)
                (if generated then S (uuid_calls s) else uuid_calls s)
                (wire s) (sent_at s)).
Proof.
  intros generated id auth. subst generated id auth.
  unfold handleRegisterClient, bind, console_log, ret.
  destruct (truthy (prop m "clientId")); simpl;
    unfold with_clients, Date_now; simpl.
  - destruct (printable (prop m "clientId")); simpl; [by rewrite send_eq | done].
  - by rewrite send_eq.
Qed.

Lemma handleGetDevices_eq ws s :
  let frames := written s ws (DeviceList (clock (date_calls s))
                                (map (heap s) (Map_values (devices s)))) in
  handleGetDevices clock ws s =
  (Normal, mkState (clients s) (devices s) (heap s) (next_ref s) (readyState s)
                   (S (date_calls s)) (uuid_calls s)
                   (wire s ++ frames) (sent_at s ++ at_calls (S (date_calls s)) frames)).
Proof. unfold handleGetDevices, bind, get, Date_now. by rewrite send_eq. Qed.

Lemma handleConnectRequest_miss ws m s :
  (forall c, Map_get (prop m "targetDeviceId") (clients s) = Some c ->
             client_type c <> host) ->
  handleConnectRequest clock ws m s =
  (Normal, exec (sendError clock ws "Target device not found or offline" VUndefined) s).
Proof.
  intros H. unfold handleConnectRequest, bind, get, exec.
  destruct (Map_get _ _) as [c|] eqn:Hc.
  - destruct (decide (client_type c = host)); [by destruct (H c)|].
    by destruct (sendError _ _ _ _ _) as [[] ?].
  - by destruct (sendError _ _ _ _ _) as [[] ?].
Qed.

(** On a hit the log line comes before both writes. *)
Lemma handleConnectRequest_hit ws m s c :
  Map_get (prop m "targetDeviceId") (clients s) = Some c ->
  client_type c = host ->
  let request := written s (client_ws c)
                   (ConnectRequest (clock (date_calls s))
                      (prop m "targetDeviceId") (prop m "clientId")) in
  let accepted := written s ws
                    (ConnectionAccepted (clock (1 + date_calls s))
                       (prop m "targetDeviceId")) in
  handleConnectRequest clock ws m s =
  if printable (prop m "clientId") && printable (prop m "targetDeviceId")
  then (Normal,
        mkState (clients s) (devices s) (heap s) (next_ref s) (readyState s)
                (2 + date_calls s) (uuid_calls s)
                (wire s ++ request ++ accepted)
                (sent_at s ++ at_calls (1 + date_calls s) request
                           ++ at_calls (2 + date_calls s) accepted))
  else (Throw, s).
Proof.
  intros Hc Hh request accepted. unfold handleConnectRequest, bind, get. rewrite Hc.
  rewrite decide_True by done. unfold console_log, ret. cbn [forallb].
  destruct (printable (prop m "clientId")), (printable (prop m "targetDeviceId"));
    simpl; try done.
  unfold Date_now. simpl.
  rewrite send_eq. unfold push at 1. simpl. rewrite send_eq.
  unfold push. simpl. by rewrite <- !app_assoc.
Qed.

Lemma handleOffer_eq m s : handleOffer m s = relay m s.
Proof.
  unfold handleOffer, relay, bind, get, console_log, ret.
  destruct (Map_get _ _); cbn [forallb];
    destruct (printable (prop m "from")), (printable (prop m "to")); simpl; try done.
  by rewrite send_eq.
Qed.

Lemma handleAnswer_eq m s : handleAnswer m s = relay m s.
Proof.
  unfold handleAnswer, relay, bind, get, console_log, ret.
  destruct (Map_get _ _); cbn [forallb];
    destruct (printable (prop m "from")), (printable (prop m "to")); simpl; try done.
  by rewrite send_eq.
Qed.

Lemma handleIceCandidate_eq m s : handleIceCandidate m s = relay m s.
Proof.
  unfold handleIceCandidate, relay, bind, get, console_log, ret.
  destruct (Map_get _ _); cbn [forallb];
    destruct (printable (prop m "from")), (printable (prop m "to")); simpl; try done.
  by rewrite send_eq.
Qed.
End Handlers.

(** ** The disconnect path *)

Section Disconnect.
Variable clock : nat -> Z.

Lemma disconnect_loop_eq ws entries s :
  disconnect_loop clock ws entries s =
  match first_on ws entries with
  | Some (id, c) => disconnect_entry clock id c s
  | None => (Normal, s)
  end.
Proof.
  unfold first_on. induction entries as [|[id c] entries IH]; simpl; [done|].
  destruct (decide (client_ws c = ws)) as [Hw|Hw].
  - by rewrite bool_decide_eq_true_2.
  - by rewrite bool_decide_eq_false_2.
Qed.

Lemma handleDisconnect_eq ws s :
  handleDisconnect clock ws s =
  match first_on ws (clients s) with
  | Some (id, c) => disconnect_entry clock id c s
  | None => (Normal, s)
  end.
Proof. unfold handleDisconnect, bind, get. apply disconnect_loop_eq. Qed.

(** The entry found is in the map, is on [ws], and no entry before it is. *)
Lemma first_on_Some ws entries id c :
  first_on ws entries = Some (id, c) ->
  (id, c) ∈ entries /\ client_ws c = ws.
Proof.
  unfold first_on. intros H. apply find_some in H as [Hin Hw].
  apply bool_decide_eq_true in Hw. split; [by apply list_elem_of_In | done].
Qed.

Lemma first_on_None ws entries :
  first_on ws entries = None <->
  forall k c, (k, c) ∈ entries -> client_ws c <> ws.
Proof.
  unfold first_on. induction entries as [|[id c] entries IH]; simpl.
  - split; [intros _ k c Hin; by apply elem_of_nil in Hin | done].
  - destruct (decide (client_ws c = ws)) as [Hw|Hw].
    + rewrite bool_decide_eq_true_2 by done. split; [done|].
      intros H. destruct (H id c); [apply elem_of_cons; by left | done].
    + rewrite bool_decide_eq_false_2 by done. rewrite IH. split.
      * intros H k c' Hin. apply elem_of_cons in Hin as [Heq|Hin].
        -- inversion Heq; by subst.
        -- by apply (H k).
      * intros H k c' Hin. apply (H k). apply elem_of_cons. by right.
Qed.

(** The log line of the loop comes before everything else: when the id
    cannot be converted to a string, nothing is done. *)
Lemma disconnect_entry_throws id c s :
  printable id = false -> disconnect_entry clock id c s = (Throw, s).
Proof. intros H. unfold disconnect_entry, bind, console_log, ret. simpl. by rewrite H. Qed.

(** A host leaves: its device object is marked offline and stamped, the
    clients are told, and both entries go. *)
Lemma disconnect_entry_host id c r s :
  printable id = true ->
  client_type c = host -> client_device c = Some r ->
  let s' := exec (disconnect_entry clock id c) s in
  let d := offline_at (clock (date_calls s)) (heap s r) in
  let frames := broadcast_frames s
                  (DeviceStatus DEVICE_OFFLINE (clock (1 + date_calls s)) d)
                  (Map_values (clients s)) in
  fst (disconnect_entry clock id c s) = Normal /\
  clients s' = Map_delete id (clients s) /\
  devices s' = Map_delete id (devices s) /\
  (forall r', heap s' r' = if decide (r' = r) then d else heap s r') /\
  next_ref s' = next_ref s /\
  readyState s' = readyState s /\
  date_calls s' = 2 + date_calls s /\
  uuid_calls s' = uuid_calls s /\
  wire s' = wire s ++ frames /\
  sent_at s' = sent_at s ++ at_calls (2 + date_calls s) frames.
Proof.
  intros Hp Hh Hr. unfold exec, disconnect_entry, console_log, ret, bind. simpl.
  rewrite Hp, Hh, Hr. simpl.
  unfold update_Device, Date_now, with_devices, with_clients. simpl.
  rewrite broadcastDeviceStatus_eq. simpl.
  repeat split; try done.
  - intros r'. destruct (decide (r' = r)) as [->|]; done.
  - rewrite !decide_True by done. reflexivity.
  - rewrite !decide_True by done. reflexivity.
Qed.

(** Anyone else leaves: only its entry in [clients] goes. *)
Lemma disconnect_entry_other id c s :
  printable id = true ->
  (client_type c = client \/ client_device c = None) ->
  disconnect_entry clock id c s =
  (Normal,
   mkState (Map_delete id (clients s)) (devices s) (heap s) (next_ref s)
           (readyState s) (date_calls s) (uuid_calls s) (wire s) (sent_at s)).
Proof.
  intros Hp H. unfold disconnect_entry, bind, with_clients, console_log, ret. simpl.
  rewrite Hp. simpl.
  destruct (client_type c), (client_device c); try done.
  destruct H; done.
Qed.

Lemma disconnect_entry_completion id c s :
  fst (disconnect_entry clock id c s) = if printable id then Normal else Throw.
Proof.
  destruct (printable id) eqn:Hp; [|by rewrite disconnect_entry_throws].
  destruct (client_type c) eqn:Ht; destruct (client_device c) as [r|] eqn:Hr;
    try (rewrite disconnect_entry_other by (done || tauto); done).
  by destruct (disconnect_entry_host id c r s Hp Ht Hr) as [-> _].
Qed.

Lemma handleDisconnect_completion ws s :
  fst (handleDisconnect clock ws s) =
  match first_on ws (clients s) with
  | Some (id, _) => if printable id then Normal else Throw
  | None => Normal
  end.
Proof.
  rewrite handleDisconnect_eq.
  destruct (first_on ws (clients s)) as [[id c]|]; [|done].
  apply disconnect_entry_completion.
Qed.
End Disconnect.

(** ** Every reachable state is consistent *)

Section Invariant.
Variable clock : nat -> Z.
Variable uuid : nat -> string.

Lemma consistent_initial : consistent initial.
Proof.
  constructor; simpl; try apply NoDup_nil_2;
    intros k x Hin; by apply elem_of_nil in Hin.
Qed.

Lemma consistent_same_registry s s' :
  same_registry s s' -> consistent s -> consistent s'.
Proof.
  intros (Hc & Hd & Hh & Hn) [H1 H2 H3 H4 H5 H6 H7 H8].
  constructor; rewrite ?Hc, ?Hd, ?Hh, ?Hn; assumption.
Qed.

(** The registry after a host registered, whatever happened to the rest of
    the handler. *)
Lemma consistent_registered_host s s' ws id d :
  consistent s -> deviceId d = id -> online d = true ->
  clients s' = Map_set id (mkClient id ws host (Some (next_ref s))) (clients s) ->
  devices s' = Map_set id (next_ref s) (devices s) ->
  (forall r, heap s' r = if decide (r = next_ref s) then d else heap s r) ->
  next_ref s' = S (next_ref s) ->
  consistent s'.
Proof.
  intros [H1 H2 H3 H4 H5 H6 H7 H8] Hid Hon Ec Ed Eh En.
  constructor; rewrite ?Ec, ?Ed, ?En.
  - by apply NoDup_Map_set.
  - by apply NoDup_Map_set.
  - intros k c Hin. apply elem_of_Map_set in Hin as [[-> ->]|[Hne Hin]]; eauto.
  - intros k c Hin Hh. apply elem_of_Map_set in Hin as [[-> ->]|[Hne Hin]]; [| |done].
    + eexists. split; [done|]. apply elem_of_Map_set; [done|]. by left.
    + destruct (H4 k c Hin Hh) as (r & Hr & Hd). exists r. split; [done|].
      apply elem_of_Map_set; [done|]. by right.
  - intros k c Hin Hc. apply elem_of_Map_set in Hin as [[-> ->]|[Hne Hin]];
      [done|eauto|done].
  - intros k r Hin. apply elem_of_Map_set in Hin as [[-> ->]|[Hne Hin]]; [lia| |done].
    specialize (H6 k r Hin). lia.
  - intros k r Hin. rewrite Eh.
    apply elem_of_Map_set in Hin as [[-> ->]|[Hne Hin]]; [| |done].
    + by rewrite decide_True.
    + specialize (H6 k r Hin). rewrite decide_False by lia. eauto.
  - intros k r Hin. rewrite Eh.
    apply elem_of_Map_set in Hin as [[-> ->]|[Hne Hin]]; [| |done].
    + by rewrite decide_True.
    + specialize (H6 k r Hin). rewrite decide_False by lia. eauto.
Qed.

Lemma consistent_handleRegisterHost ws m s :
  consistent s -> consistent (exec (handleRegisterHost clock ws m) s).
Proof.
  intros Hs. unfold exec. rewrite handleRegisterHost_eq.
  destruct (_ && _);
    by apply (consistent_registered_host s _ ws (prop m "deviceId")
                (mkDevice (prop m "deviceId") (prop m "deviceName") (prop m "platform")
                          true (clock (date_calls s)))).
Qed.

Lemma consistent_registered_client s s' ws id :
  consistent s ->
  clients s' = Map_set id (mkClient id ws client None) (clients s) ->
  devices s' = devices s -> heap s' = heap s -> next_ref s' = next_ref s ->
  consistent s'.
Proof.
  intros [H1 H2 H3 H4 H5 H6 H7 H8] Ec Ed Eh En.
  constructor; rewrite ?Ec, ?Ed, ?Eh, ?En; try assumption.
  - by apply NoDup_Map_set.
  - intros k c Hin. apply elem_of_Map_set in Hin as [[-> ->]|[Hne Hin]]; eauto.
  - intros k c Hin Hh. apply elem_of_Map_set in Hin as [[-> ->]|[Hne Hin]];
      [done|eauto|done].
  - intros k c Hin Hc. apply elem_of_Map_set in Hin as [[-> ->]|[Hne Hin]]; eauto.
Qed.

Lemma consistent_handleRegisterClient ws m s :
  consistent s -> consistent (exec (handleRegisterClient clock uuid ws m) s).
Proof.
  intros Hs. unfold exec. rewrite handleRegisterClient_eq.
  destruct (printable _);
    by apply (consistent_registered_client s _ ws
                (if negb (truthy (prop m "clientId"))
                 then VStr (uuid (uuid_calls s)) else prop m "clientId")).
Qed.

(** Two entries of [devices] that hold the same object are one entry. *)
Lemma devices_ref_inj s k1 k2 r :
  consistent s -> (k1, r) ∈ devices s -> (k2, r) ∈ devices s -> k1 = k2.
Proof.
  intros Hs Hin1 Hin2.
  rewrite <- (devices_key s Hs k1 r Hin1). by apply devices_key.
Qed.

Lemma consistent_handleDisconnect ws s :
  consistent s -> consistent (exec (handleDisconnect clock ws) s).
Proof.
  intros Hs. pose proof Hs as [H1 H2 H3 H4 H5 H6 H7 H8].
  unfold exec. rewrite handleDisconnect_eq.
  destruct (first_on ws (clients s)) as [[id c]|] eqn:Hf; [|done].
  apply first_on_Some in Hf as [Hin Hw].
  destruct (printable id) eqn:Hp; [|by rewrite disconnect_entry_throws].
  destruct (client_type c) eqn:Ht.
  - destruct (H4 id c Hin Ht) as (r & Hr & Hd).
    destruct (disconnect_entry_host clock id c r s Hp Ht Hr)
      as (_ & Ec & Ed & Eh & En & _).
    fold (exec (disconnect_entry clock id c) s).
    set (s' := exec (disconnect_entry clock id c) s) in *.
    assert (Hheap : forall k r', (k, r') ∈ Map_delete id (devices s) ->
              heap s' r' = heap s r').
    { intros k r' Hk. apply elem_of_Map_delete in Hk as [Hne Hk]; [|done].
      rewrite Eh. rewrite decide_False; [done|].
      intros ->. apply Hne. by apply (devices_ref_inj s k id r). }
    constructor; rewrite ?Ec, ?Ed, ?En.
    + by apply NoDup_Map_delete.
    + by apply NoDup_Map_delete.
    + intros k c' Hk. apply elem_of_Map_delete in Hk as [_ Hk]; eauto.
    + intros k c' Hk Hh. apply elem_of_Map_delete in Hk as [Hne Hk]; [|done].
      destruct (H4 k c' Hk Hh) as (r' & Hr' & Hd'). exists r'. split; [done|].
      apply elem_of_Map_delete; done.
    + intros k c' Hk. apply elem_of_Map_delete in Hk as [_ Hk]; eauto.
    + intros k r' Hk. apply elem_of_Map_delete in Hk as [_ Hk]; eauto.
    + intros k r' Hk. rewrite (Hheap k r' Hk).
      apply elem_of_Map_delete in Hk as [_ Hk]; eauto.
    + intros k r' Hk. rewrite (Hheap k r' Hk).
      apply elem_of_Map_delete in Hk as [_ Hk]; eauto.
  - rewrite disconnect_entry_other by (done || by left). simpl.
    constructor; simpl; try assumption.
    + by apply NoDup_Map_delete.
    + intros k c' Hk. apply elem_of_Map_delete in Hk as [_ Hk]; eauto.
    + intros k c' Hk. apply elem_of_Map_delete in Hk as [_ Hk]; eauto.
    + intros k c' Hk. apply elem_of_Map_delete in Hk as [_ Hk]; eauto.
Qed.
End Invariant.

(** ** Frames and events *)

Section Events.
Variable clock : nat -> Z.
Variable uuid : nat -> string.

Lemma on_message_Unparsable ws s :
  on_message clock uuid ws Unparsable s =
  sendError clock ws "Invalid message format" VUndefined s.
Proof. done. Qed.

Lemma on_message_PNull ws s :
  on_message clock uuid ws (Parses PNull) s =
  sendError clock ws "Invalid message format" VUndefined s.
Proof. done. Qed.

Lemma on_message_POther ws s :
  on_message clock uuid ws (Parses POther) s = (tt, s).
Proof. done. Qed.

(** What the handler threw reaches the [catch] of the listener. *)
Lemma on_message_PObject ws m s :
  on_message clock uuid ws (Parses (PObject m)) s =
  (tt, caught clock ws (dispatch clock uuid ws m s)).
Proof.
  unfold on_message, handleMessage, bind, caught, exec.
  destruct (dispatch clock uuid ws m s) as [[] s']; simpl; [done|].
  by destruct (sendError _ _ _ _ _) as [[] ?].
Qed.

Lemma step_MessageEvent ws data s :
  step clock uuid s (MessageEvent ws data) = exec (on_message clock uuid ws data) s.
Proof.
  unfold step, exec, listener, bind.
  by destruct (on_message clock uuid ws data s) as [[] ?].
Qed.

Lemma step_MessageEvent_PObject ws m s :
  step clock uuid s (MessageEvent ws (Parses (PObject m))) =
  caught clock ws (dispatch clock uuid ws m s).
Proof. rewrite step_MessageEvent. unfold exec. by rewrite on_message_PObject. Qed.

(** A message event by the [case] label it selects. *)
Lemma step_label ws m s label :
  case_label (prop m "type") = Some label ->
  step clock uuid s (MessageEvent ws (Parses (PObject m))) =
  caught clock ws
    match label with
    | REGISTER_HOST => handleRegisterHost clock ws m s
    | REGISTER_CLIENT => handleRegisterClient clock uuid ws m s
    | GET_DEVICES => handleGetDevices clock ws s
    | CONNECT_REQUEST => handleConnectRequest clock ws m s
    | OFFER => handleOffer m s
    | ANSWER => handleAnswer m s
    | ICE_CANDIDATE => handleIceCandidate m s
    | DISCONNECT => handleDisconnect clock ws s
    | _ => (Normal, s)
    end.
Proof.
  intros H. rewrite step_MessageEvent_PObject. unfold dispatch. rewrite H.
  by destruct label.
Qed.

Lemma step_Connection ws s :
  step clock uuid s (Connection ws) = exec (set_readyState ws OPEN) s.
Proof. done. Qed.

Lemma step_CloseEvent ws s :
  step clock uuid s (CloseEvent ws) =
  exec (handleDisconnect clock ws) (exec (set_readyState ws CLOSED) s).
Proof. done. Qed.

(** Only a close listener can end the process: when the first participant
    on the closing socket is stored under an id that cannot be converted to a
    string. *)
Lemma uncaught_MessageEvent ws data s :
  uncaught clock uuid s (MessageEvent ws data) = false.
Proof.
  unfold uncaught, listener, bind.
  by destruct (on_message clock uuid ws data s) as [[] ?].
Qed.

Lemma uncaught_CloseEvent ws s :
  uncaught clock uuid s (CloseEvent ws) =
  match first_on ws (clients s) with
  | Some (id, _) => negb (printable id)
  | None => false
  end.
Proof.
  unfold uncaught, listener, bind, on_close.
  change (fst (let (_, s') := set_readyState ws CLOSED s in handleDisconnect clock ws s'))
    with (fst (handleDisconnect clock ws (exec (set_readyState ws CLOSED) s))).
  rewrite handleDisconnect_completion. simpl.
  destruct (first_on ws (clients s)) as [[id c]|]; [|done].
  by destruct (printable id).
Qed.

Lemma relay_same_registry m s : same_registry s (snd (relay m s)).
Proof.
  unfold relay. destruct (Map_get _ _); [destruct (_ && _)|]; by repeat split.
Qed.

Lemma caught_same_registry ws r s :
  same_registry s (snd r) -> same_registry s (caught clock ws r).
Proof.
  unfold caught. destruct r as [[] s1]; simpl; [done|].
  unfold exec. rewrite sendError_eq. simpl. by intros (? & ? & ? & ?).
Qed.

Lemma consistent_caught ws r :
  consistent (snd r) -> consistent (caught clock ws r).
Proof.
  intros H. eapply consistent_same_registry; [|exact H].
  apply caught_same_registry. by repeat split.
Qed.

Lemma handleConnectRequest_same_registry ws m s :
  same_registry s (snd (handleConnectRequest clock ws m s)).
Proof.
  destruct (Map_get (prop m "targetDeviceId") (clients s)) as [c|] eqn:Hc.
  - destruct (decide (client_type c = host)) as [Hh|Hh].
    + rewrite (handleConnectRequest_hit clock ws m s c Hc Hh).
      destruct (_ && _); by repeat split.
    + rewrite handleConnectRequest_miss by (intros c' Heq; rewrite Hc in Heq; inversion Heq; by subst).
      simpl. unfold exec. rewrite sendError_eq. by repeat split.
  - rewrite handleConnectRequest_miss by (intros c' Heq; by rewrite Hc in Heq).
    simpl. unfold exec. rewrite sendError_eq. by repeat split.
Qed.

Lemma consistent_dispatch ws m s :
  consistent s -> consistent (snd (dispatch clock uuid ws m s)).
Proof.
  intros Hs. unfold dispatch.
  destruct (case_label (prop m "type")) as [[]|]; try done.
  - by apply consistent_handleRegisterHost.
  - by apply consistent_handleRegisterClient.
  - rewrite handleGetDevices_eq.
    eapply consistent_same_registry; [|done]. by repeat split.
  - eapply consistent_same_registry; [apply handleConnectRequest_same_registry|done].
  - rewrite handleOffer_eq.
    eapply consistent_same_registry; [apply relay_same_registry|done].
  - rewrite handleAnswer_eq.
    eapply consistent_same_registry; [apply relay_same_registry|done].
  - rewrite handleIceCandidate_eq.
    eapply consistent_same_registry; [apply relay_same_registry|done].
  - by apply consistent_handleDisconnect.
Qed.

Lemma consistent_step s e :
  consistent s -> consistent (step clock uuid s e).
Proof.
  intros Hs. destruct e as [ws|ws [|[| |m]]|ws].
  - eapply consistent_same_registry; [|done]. by repeat split.
  - rewrite step_MessageEvent. unfold exec. rewrite on_message_Unparsable, sendError_eq.
    eapply consistent_same_registry; [|done]. by repeat split.
  - rewrite step_MessageEvent. unfold exec. rewrite on_message_PNull, sendError_eq.
    eapply consistent_same_registry; [|done]. by repeat split.
  - by rewrite step_MessageEvent.
  - rewrite step_MessageEvent_PObject.
    by apply consistent_caught, consistent_dispatch.
  - rewrite step_CloseEvent. apply consistent_handleDisconnect.
    eapply consistent_same_registry; [|done]. by repeat split.
Qed.

Lemma run_snoc s events e :
  run clock uuid s (events ++ [e]) = step clock uuid (run clock uuid s events) e.
Proof. unfold run. by rewrite fold_left_app. Qed.

Lemma consistent_run s events :
  consistent s -> consistent (run clock uuid s events).
Proof.
  intros Hs. induction events as [|e events IH] using rev_ind; [done|].
  rewrite run_snoc. by apply consistent_step.
Qed.

Lemma reachable_consistent s : reachable clock uuid s -> consistent s.
Proof. intros (events & _ & ->). apply consistent_run, consistent_initial. Qed.

(** The running process handles one more event without ending. *)
Lemma survives_snoc s events e :
  survives clock uuid s (events ++ [e]) =
  survives clock uuid s events && negb (uncaught clock uuid (run clock uuid s events) e).
Proof.
  revert s. induction events as [|e' events IH]; intros s; simpl.
  - by rewrite andb_true_r.
  - by rewrite IH, andb_assoc.
Qed.

Lemma reachable_step s e :
  reachable clock uuid s -> uncaught clock uuid s e = false ->
  reachable clock uuid (step clock uuid s e).
Proof.
  intros (events & Hlive & ->) He. exists (events ++ [e]). split.
  - by rewrite survives_snoc, Hlive, He.
  - by rewrite run_snoc.
Qed.

Lemma reachable_initial : reachable clock uuid initial.
Proof. by exists []. Qed.

(** Induction over the states of the running process. *)
Lemma reachable_ind' (P : State -> Prop) :
  P initial ->
  (forall s e, reachable clock uuid s -> uncaught clock uuid s e = false ->
               P s -> P (step clock uuid s e)) ->
  forall s, reachable clock uuid s -> P s.
Proof.
  intros H0 Hstep s (events & Hlive & ->).
  induction events as [|e events IH] using rev_ind; [done|].
  rewrite survives_snoc in Hlive. apply andb_true_iff in Hlive as [Hlive He].
  apply negb_true_iff in He. rewrite run_snoc.
  apply Hstep; [by exists events | done | by apply IH].
Qed.

End Events.

(** ** What was written since *)

Lemma sent_from_wire s s' l : wire s' = wire s ++ l -> sent_from s s' = l.
Proof. intros H. unfold sent_from. rewrite H. apply drop_app_length. Qed.

(** ** What a step writes *)

Lemma elem_of_written s ws o w o' :
  (w, o') ∈ written s ws o -> w = ws /\ o' = o /\ readyState s ws = OPEN.
Proof.
  unfold written. destruct (decide (readyState s ws = OPEN)) as [Ho|Ho].
  - intros Hin. apply list_elem_of_singleton in Hin. inversion Hin. by subst.
  - intros Hin. by apply elem_of_nil in Hin.
Qed.

Lemma elem_of_broadcast_frames s o cs w o' :
  (w, o') ∈ broadcast_frames s o cs ->
  o' = o /\ exists c, c ∈ cs /\ listening s c /\ client_ws c = w.
Proof.
  unfold broadcast_frames. intros Hin.
  apply list_elem_of_fmap in Hin as (c & Heq & Hc).
  apply list_elem_of_filter in Hc as [Hl Hc].
  inversion Heq; subst. split; [done|]. by exists c.
Qed.

Lemma Forall_written (P : WebSocket * Outbound -> Prop) s ws o :
  P (ws, o) -> Forall P (written s ws o).
Proof. intros H. unfold written. destruct (decide _); by repeat constructor. Qed.

Lemma Forall_broadcast_frames (P : WebSocket * Outbound -> Prop) s o cs :
  (forall w, P (w, o)) -> Forall P (broadcast_frames s o cs).
Proof.
  intros H. apply Forall_forall. intros [w o'] Hin.
  apply elem_of_broadcast_frames in Hin as [-> _]. apply H.
Qed.

(** Frames written together have the same history. *)
Lemma Forall2_at_calls (P : WebSocket * Outbound -> nat -> Prop) n l :
  Forall (fun f => P f n) l -> Forall2 P l (at_calls n l).
Proof. unfold at_calls. induction 1; simpl; by constructor. Qed.

Lemma reads_from_sent_at s s' ns :
  sent_at s' = sent_at s ++ ns -> reads_from s s' = ns.
Proof. intros H. unfold reads_from. rewrite H. apply drop_app_length. Qed.

(** Two readings of the clock with the same number. *)
Ltac clock_index := solve [done | lia | repeat (f_equal; try lia)].

Section Effects.
Variable clock : nat -> Z.
Variable uuid : nat -> string.

Lemma caught_Normal ws s1 : caught clock ws (Normal, s1) = s1.
Proof. done. Qed.

Lemma caught_Throw ws s1 :
  let frames := written s1 ws (ErrorMessage (clock (date_calls s1))
                                 "Invalid message format" VUndefined) in
  caught clock ws (Throw, s1) =
  mkState (clients s1) (devices s1) (heap s1) (next_ref s1) (readyState s1)
          (S (date_calls s1)) (uuid_calls s1)
          (wire s1 ++ frames) (sent_at s1 ++ at_calls (S (date_calls s1)) frames).
Proof. unfold caught, exec. simpl. by rewrite sendError_eq. Qed.

Lemma Wrote_nothing e s s' :
  wire s' = wire s -> sent_at s' = sent_at s -> uuid_calls s <= uuid_calls s' ->
  Wrote clock e s s'.
Proof.
  intros Hw Hs Hu. split; [done|]. exists [], [].
  rewrite !app_nil_r. by repeat split.
Qed.

(** An object literal written straight after the clock was read for it. *)
Lemma built_ok e s s' w o n :
  date_calls s < n <= date_calls s' ->
  Outbound_timestamp o = VNum (clock (n - 1)) ->
  handler_built o \/ invalid_format o ->
  frame_ok clock e s s' (w, o) n.
Proof. intros [? ?] Ht Hb. split; [done|]. right. by repeat split. Qed.

Lemma Wrote_caught_Throw e ws s s1 :
  wire s1 = wire s -> sent_at s1 = sent_at s -> uuid_calls s <= uuid_calls s1 ->
  date_calls s <= date_calls s1 ->
  Wrote clock e s (caught clock ws (Throw, s1)).
Proof.
  intros Hw Hs Hu Hd. rewrite caught_Throw. split; [done|]. simpl.
  rewrite Hw, Hs. eexists _, _. split; [done|]. split; [done|].
  apply Forall2_at_calls, Forall_written. apply built_ok; simpl.
  - lia.
  - by replace (date_calls s1 - 0) with (date_calls s1) by lia.
  - by right.
Qed.

(** The disconnect path, run in a state [s] that has the log and the
    counters of [s0]. *)
Lemma handleDisconnect_Wrote e ws s0 s :
  wire s = wire s0 -> sent_at s = sent_at s0 ->
  date_calls s = date_calls s0 -> uuid_calls s = uuid_calls s0 ->
  Wrote clock e s0 (exec (handleDisconnect clock ws) s).
Proof.
  intros Hw Hs Hd Hu. unfold exec. rewrite handleDisconnect_eq.
  destruct (first_on ws (clients s)) as [[id c]|];
    [|apply Wrote_nothing; simpl; (done || lia)].
  destruct (printable id) eqn:Hp;
    [|rewrite disconnect_entry_throws by done; apply Wrote_nothing; simpl; (done || lia)].
  destruct (client_type c) eqn:Ht; destruct (client_device c) as [r|] eqn:Hr;
    try (rewrite disconnect_entry_other by (done || tauto);
         apply Wrote_nothing; simpl; (done || lia)).
  destruct (disconnect_entry_host clock id c r s Hp Ht Hr)
    as (_ & _ & _ & _ & _ & _ & Edc & Euc & Ew & Es).
  fold (exec (disconnect_entry clock id c) s).
  split; [lia|]. rewrite Ew, Es, Hw, Hs. eexists _, _.
  split; [done|]. split; [done|].
  apply Forall2_at_calls, Forall_broadcast_frames. intros w.
  apply built_ok; simpl.
  - fold (exec (disconnect_entry clock id c) s). lia.
  - clock_index.
  - by left.
Qed.

Lemma relay_Wrote ws m s label :
  case_label (prop m "type") = Some label ->
  label = OFFER \/ label = ANSWER \/ label = ICE_CANDIDATE ->
  Wrote clock (MessageEvent ws (Parses (PObject m))) s (caught clock ws (relay m s)).
Proof.
  intros Hlabel Hl. unfold relay.
  destruct (Map_get (prop m "to") (clients s)) as [c|].
  - destruct (_ && _).
    + rewrite caught_Normal. split; [done|]. simpl. eexists _, _.
      split; [done|]. split; [done|].
      apply Forall2_at_calls, Forall_written. split; [simpl; lia|].
      left. by exists ws, m, label.
    + apply Wrote_caught_Throw; (done || lia).
  - destruct (printable (prop m "to")).
    + rewrite caught_Normal. apply Wrote_nothing; (done || lia).
    + apply Wrote_caught_Throw; (done || lia).
Qed.

(** The same for every handler, through the [catch] of the listener. *)
Lemma dispatch_Wrote ws m s :
  Wrote clock (MessageEvent ws (Parses (PObject m))) s
        (caught clock ws (dispatch clock uuid ws m s)).
Proof.
  set (e := MessageEvent ws (Parses (PObject m))).
  unfold dispatch.
  destruct (case_label (prop m "type")) as [label|] eqn:Hlabel;
    [|unfold ret; rewrite caught_Normal; apply Wrote_nothing; (done || lia)].
  destruct label;
    try (unfold ret; rewrite caught_Normal; apply Wrote_nothing; (done || lia)).
  - (* REGISTER_HOST *)
    rewrite handleRegisterHost_eq. destruct (_ && _).
    + rewrite caught_Normal. split; [done|]. simpl. eexists _, _.
      split; [done|]. split; [done|]. apply Forall2_app.
      * apply Forall2_at_calls, Forall_written. apply built_ok; simpl;
          [lia | clock_index | by left].
      * apply Forall2_at_calls, Forall_broadcast_frames. intros w.
        apply built_ok; simpl; [lia | clock_index | by left].
    + apply Wrote_caught_Throw; simpl; (done || lia).
  - (* REGISTER_CLIENT *)
    rewrite handleRegisterClient_eq. destruct (printable _).
    + rewrite caught_Normal. split; [simpl; destruct (negb _); lia|]. simpl.
      eexists _, _. split; [done|]. split; [done|].
      apply Forall2_at_calls, Forall_written. apply built_ok; simpl;
        [lia | clock_index | by left].
    + apply Wrote_caught_Throw; simpl; (done || (destruct (negb _); lia) || lia).
  - (* GET_DEVICES *)
    rewrite handleGetDevices_eq, caught_Normal. split; [done|]. simpl.
    eexists _, _. split; [done|]. split; [done|].
    apply Forall2_at_calls, Forall_written. apply built_ok; simpl;
      [lia | clock_index | by left].
  - (* CONNECT_REQUEST *)
    destruct (Map_get (prop m "targetDeviceId") (clients s)) as [c|] eqn:Hc;
      [destruct (decide (client_type c = host)) as [Hh|Hh]|].
    + rewrite (handleConnectRequest_hit clock ws m s c Hc Hh). destruct (_ && _).
      * rewrite caught_Normal. split; [done|]. simpl. eexists _, _.
        split; [done|]. split; [done|]. apply Forall2_app;
          apply Forall2_at_calls, Forall_written; apply built_ok; simpl;
          (lia || clock_index || by left).
      * apply Wrote_caught_Throw; (done || lia).
    + rewrite handleConnectRequest_miss
        by (intros c' Heq; rewrite Hc in Heq; inversion Heq; by subst).
      rewrite caught_Normal. unfold exec. rewrite sendError_eq.
      split; [done|]. simpl. eexists _, _. split; [done|]. split; [done|].
      apply Forall2_at_calls, Forall_written. apply built_ok; simpl;
        [lia | clock_index | by left].
    + rewrite handleConnectRequest_miss by (intros c' Heq; by rewrite Hc in Heq).
      rewrite caught_Normal. unfold exec. rewrite sendError_eq.
      split; [done|]. simpl. eexists _, _. split; [done|]. split; [done|].
      apply Forall2_at_calls, Forall_written. apply built_ok; simpl;
        [lia | clock_index | by left].
  - rewrite handleOffer_eq. apply (relay_Wrote ws m s OFFER); tauto.
  - rewrite handleAnswer_eq. apply (relay_Wrote ws m s ANSWER); tauto.
  - rewrite handleIceCandidate_eq. apply (relay_Wrote ws m s ICE_CANDIDATE); tauto.
  - (* DISCONNECT *)
    destruct (handleDisconnect clock ws s) as [[] s1] eqn:Hd.
    + rewrite caught_Normal.
      replace s1 with (exec (handleDisconnect clock ws) s) by (unfold exec; by rewrite Hd).
      by apply handleDisconnect_Wrote.
    + rewrite handleDisconnect_eq in Hd.
      destruct (first_on ws (clients s)) as [[id c]|]; [|done].
      pose proof (disconnect_entry_completion clock id c s) as Hc.
      rewrite Hd in Hc. simpl in Hc.
      destruct (printable id) eqn:Hp; [done|].
      rewrite disconnect_entry_throws in Hd by done. inversion Hd; subst.
      apply Wrote_caught_Throw; (done || lia).
Qed.

Lemma step_Wrote s e : Wrote clock e s (step clock uuid s e).
Proof.
  destruct e as [ws|ws [|[| |m]]|ws].
  - apply Wrote_nothing; (done || lia).
  - rewrite step_MessageEvent. unfold exec. rewrite on_message_Unparsable.
    apply (Wrote_caught_Throw _ ws s s); (done || lia).
  - rewrite step_MessageEvent. unfold exec. rewrite on_message_PNull.
    apply (Wrote_caught_Throw _ ws s s); (done || lia).
  - rewrite step_MessageEvent. apply Wrote_nothing; (done || lia).
  - rewrite step_MessageEvent_PObject. apply dispatch_Wrote.
  - rewrite step_CloseEvent. by apply handleDisconnect_Wrote.
Qed.

Lemma uuid_calls_run s events :
  uuid_calls s <= uuid_calls (run clock uuid s events).
Proof.
  induction events as [|e events IH] using rev_ind; [done|].
  rewrite run_snoc.
  destruct (step_Wrote (run clock uuid s events) e) as [H _]. lia.
Qed.
End Effects.

(** ** The example runs *)

Lemma example_state_reachable :
  reachable example_clock example_uuid example_state.
Proof. exists example_events. split; [vm_compute; reflexivity | done]. Qed.

Lemma example_closed_state_reachable :
  reachable example_clock example_uuid example_closed_state.
Proof.
  exists (example_events ++ [CloseEvent 1]). split; [vm_compute; reflexivity|].
  unfold example_closed_state, example_state. by rewrite run_snoc.
Qed.

Lemma two_ids_state_reachable :
  reachable example_clock example_uuid two_ids_state.
Proof. exists two_ids_events. split; [vm_compute; reflexivity | done]. Qed.

Lemma takeover_state_reachable :
  reachable example_clock example_uuid takeover_state.
Proof. exists takeover_events. split; [vm_compute; reflexivity | done]. Qed.

Lemma stale_host_state_reachable :
  reachable example_clock example_uuid stale_host_state.
Proof. exists stale_host_events. split; [vm_compute; reflexivity | done]. Qed.

(** ** Routing *)

(** C3, as amended. A CONNECT_REQUEST from an open socket: when
    [targetDeviceId] is not registered, or is registered as a client, the
    requester gets exactly one ERROR "Target device not found or offline" and
    nothing else is written; when it is a registered host, and [clientId] and
    [targetDeviceId] can be converted to strings, exactly one CONNECT_REQUEST
    with the same [targetDeviceId] and [clientId] is written to the host's
    socket if that socket is open, none if it is not, and then exactly one
    CONNECTION_ACCEPTED with [hostId = targetDeviceId] to the requester,
    without any approval step.  The registry is unchanged in every case. *)
Theorem C3_connect_request clock uuid s ws m :
  case_label (prop m "type") = Some CONNECT_REQUEST ->
  readyState s ws = OPEN ->
  let target := prop m "targetDeviceId" in
  let requester := prop m "clientId" in
  let s' := step clock uuid s (MessageEvent ws (Parses (PObject m))) in
  same_registry s s' /\
  ((forall c, Map_get target (clients s) = Some c -> client_type c <> host) ->
   sent_from s s' =
   [(ws, ErrorMessage (clock (date_calls s))
           "Target device not found or offline" VUndefined)]) /\
  (forall c, Map_get target (clients s) = Some c -> client_type c = host ->
   printable requester = true -> printable target = true ->
   sent_from s s' =
   written s (client_ws c) (ConnectRequest (clock (date_calls s)) target requester)
   ++ [(ws, ConnectionAccepted (clock (1 + date_calls s)) target)]).
Proof.
  intros Hlabel Hopen target requester s'.
  assert (Hs' : s' = caught clock ws (handleConnectRequest clock ws m s))
    by apply (step_label clock uuid ws m s CONNECT_REQUEST Hlabel).
  split; [|split].
  - rewrite Hs'. apply caught_same_registry, handleConnectRequest_same_registry.
  - intros H. rewrite Hs', handleConnectRequest_miss, caught_Normal by done.
    unfold exec. rewrite sendError_eq.
    apply sent_from_wire. simpl. unfold written. by rewrite decide_True.
  - intros c Hc Hh Hr Ht. rewrite Hs'.
    rewrite (handleConnectRequest_hit clock ws m s c Hc Hh).
    fold requester target. rewrite Hr, Ht. simpl. rewrite caught_Normal.
    apply sent_from_wire. simpl. f_equal. f_equal.
    unfold written. by rewrite decide_True.
Qed.

Lemma C3_connect_request_witness :
  sent_from example_state
    (step example_clock example_uuid example_state
       (MessageEvent 2 (Parses (PObject (connect_request_message "h1" "c1"))))) =
  [(1, ConnectRequest 1004 (VStr "h1") (VStr "c1"));
   (2, ConnectionAccepted 1005 (VStr "h1"))] /\
  sent_from example_state
    (step example_clock example_uuid example_state
       (MessageEvent 2 (Parses (PObject (connect_request_message "c1" "c1"))))) =
  [(2, ErrorMessage 1004 "Target device not found or offline" VUndefined)].
Proof.
  assert (Hopen : readyState example_state 2 = OPEN) by (vm_compute; reflexivity).
  split.
  - destruct (C3_connect_request example_clock example_uuid example_state 2
                (connect_request_message "h1" "c1") eq_refl Hopen)
      as (_ & _ & Hhit).
    assert (Hc : Map_get (VStr "h1") (clients example_state)
                 = Some (mkClient (VStr "h1") 1 host (Some 0)))
      by (vm_compute; reflexivity).
    rewrite (Hhit (mkClient (VStr "h1") 1 host (Some 0)) Hc eq_refl eq_refl eq_refl).
    vm_compute. reflexivity.
  - destruct (C3_connect_request example_clock example_uuid example_state 2
                (connect_request_message "c1" "c1") eq_refl Hopen)
      as (_ & Hmiss & _).
    rewrite Hmiss; [vm_compute; reflexivity|].
    intros c Hc. vm_compute in Hc. inversion Hc. discriminate.
Defined.

(** C3 as stated fails twice.  A host can be registered on a socket that
    is closed (it registered second on a socket whose close removed the first
    registration only): a CONNECT_REQUEST for it is accepted, and no
    CONNECT_REQUEST is written to the host's socket.  And a CONNECT_REQUEST for
    a registered host whose [clientId] is an object that cannot be converted to
    a string is answered with ERROR "Invalid message format" only. *)
Lemma C3_counterexample :
  (reachable example_clock example_uuid stale_host_state /\
   Map_get (VStr "hb") (clients stale_host_state)
     = Some (mkClient (VStr "hb") 1 host (Some 1)) /\
   readyState stale_host_state 1 = CLOSED /\
   readyState stale_host_state 2 = OPEN /\
   sent_from stale_host_state
     (step example_clock example_uuid stale_host_state
        (MessageEvent 2 (Parses (PObject (connect_request_message "hb" "c2")))))
   = [(2, ConnectionAccepted 1010 (VStr "hb"))]) /\
  (reachable example_clock example_uuid example_state /\
   Map_get (VStr "h1") (clients example_state)
     = Some (mkClient (VStr "h1") 1 host (Some 0)) /\
   readyState example_state 1 = OPEN /\
   readyState example_state 2 = OPEN /\
   sent_from example_state
     (step example_clock example_uuid example_state
        (MessageEvent 2 (Parses (PObject unprintable_request_message))))
   = [(2, ErrorMessage 1004 "Invalid message format" VUndefined)]).
Proof.
  split; (split; [apply stale_host_state_reachable || apply example_state_reachable|]);
    vm_compute; repeat split.
Qed.

(** C4, as amended. An OFFER, ANSWER or ICE_CANDIDATE whose [to] names a
    registered participant, and whose [from] and [to] can be converted to
    strings, is written to that participant's socket, if the socket is open,
    as the very object that was received, every field as it came, and nothing
    else changes; when [to] can be converted to a string and names nobody,
    nothing is written to anyone, the sender included, and the state is the
    one before.  The listener returns in both cases. *)
Theorem C4_relay clock uuid s ws m label :
  case_label (prop m "type") = Some label ->
  label = OFFER \/ label = ANSWER \/ label = ICE_CANDIDATE ->
  printable (prop m "to") = true ->
  let e := MessageEvent ws (Parses (PObject m)) in
  let s' := step clock uuid s e in
  uncaught clock uuid s e = false /\
  (forall c, Map_get (prop m "to") (clients s) = Some c ->
             printable (prop m "from") = true ->
             s' = push s (written s (client_ws c) (Forwarded m))) /\
  (Map_get (prop m "to") (clients s) = None -> s' = s).
Proof.
  intros Hlabel Hrelay Hto e s'.
  assert (Hs' : s' = caught clock ws (relay m s)).
  { unfold s', e. rewrite (step_label clock uuid ws m s label Hlabel).
    destruct Hrelay as [-> | [-> | ->]];
      [by rewrite handleOffer_eq | by rewrite handleAnswer_eq
      | by rewrite handleIceCandidate_eq]. }
  split; [apply uncaught_MessageEvent|].
  rewrite Hs'. unfold relay. split.
  - intros c Hc Hfrom. by rewrite Hc, Hfrom, Hto.
  - intros Hc. by rewrite Hc, Hto.
Qed.

Lemma C4_relay_witness :
  step example_clock example_uuid example_state
    (MessageEvent 1 (Parses (PObject (offer_message "h1" "c1")))) =
  push example_state [(2, Forwarded (offer_message "h1" "c1"))] /\
  step example_clock example_uuid example_state
    (MessageEvent 1 (Parses (PObject (offer_message "h1" "nobody")))) =
  example_state.
Proof.
  split.
  - destruct (C4_relay example_clock example_uuid example_state 1
                (offer_message "h1" "c1") OFFER eq_refl (or_introl eq_refl) eq_refl)
      as (_ & Hhit & _).
    assert (Hc : Map_get (VStr "c1") (clients example_state)
                 = Some (mkClient (VStr "c1") 2 client None))
      by (vm_compute; reflexivity).
    rewrite (Hhit (mkClient (VStr "c1") 2 client None) Hc eq_refl).
    f_equal; vm_compute; reflexivity.
  - destruct (C4_relay example_clock example_uuid example_state 1
                (offer_message "h1" "nobody") OFFER eq_refl (or_introl eq_refl) eq_refl)
      as (_ & _ & Hmiss).
    apply Hmiss. vm_compute. reflexivity.
Defined.

(** C4 as stated fails three times.  An OFFER to a registered participant
    on an open socket whose [from] cannot be converted to a string is not
    delivered, and its sender gets ERROR "Invalid message format"; an OFFER
    whose [to] names nobody and cannot be converted to a string gets its sender
    the same error reply; and an OFFER to a participant that is registered on
    a closed socket is delivered to nobody. *)
Lemma C4_counterexample :
  (reachable example_clock example_uuid example_state /\
   Map_get (VStr "c1") (clients example_state)
     = Some (mkClient (VStr "c1") 2 client None) /\
   readyState example_state 2 = OPEN /\
   sent_from example_state
     (step example_clock example_uuid example_state
        (MessageEvent 1 (Parses (PObject offer_from_unprintable))))
   = [(1, ErrorMessage 1004 "Invalid message format" VUndefined)]) /\
  (Map_get unprintable (clients example_state) = None /\
   sent_from example_state
     (step example_clock example_uuid example_state
        (MessageEvent 1 (Parses (PObject offer_to_unprintable))))
   = [(1, ErrorMessage 1004 "Invalid message format" VUndefined)]) /\
  (reachable example_clock example_uuid stale_host_state /\
   Map_get (VStr "hb") (clients stale_host_state)
     = Some (mkClient (VStr "hb") 1 host (Some 1)) /\
   sent_from stale_host_state
     (step example_clock example_uuid stale_host_state
        (MessageEvent 2 (Parses (PObject (offer_message "c2" "hb")))))
   = []).
Proof.
  split; [split; [apply example_state_reachable|]|split;
    [|split; [apply stale_host_state_reachable|]]];
    vm_compute; repeat split.
Qed.

(** ** Malformed frames *)

(** C2, as amended. A frame from an open socket that does not parse, or
    that parses to [null], is answered with exactly one ERROR "Invalid
    message format" to its sender and to nobody else; the registry is
    unchanged, no socket changes state, and the listener returns. *)
Theorem C2_invalid_format_reply clock uuid s ws data :
  readyState s ws = OPEN ->
  data = Unparsable \/ data = Parses PNull ->
  let e := MessageEvent ws data in
  let s' := step clock uuid s e in
  sent_from s s' =
  [(ws, ErrorMessage (clock (date_calls s)) "Invalid message format" VUndefined)] /\
  same_registry s s' /\ readyState s' = readyState s /\
  uncaught clock uuid s e = false.
Proof.
  intros Hopen Hdata e s'.
  assert (Hs' : s' = exec (sendError clock ws "Invalid message format" VUndefined) s).
  { unfold s', e. rewrite step_MessageEvent. by destruct Hdata as [-> | ->]. }
  rewrite Hs'. unfold exec. rewrite sendError_eq.
  split; [|split; [by repeat split|split; [done|apply uncaught_MessageEvent]]].
  apply sent_from_wire. simpl. unfold written. by rewrite decide_True.
Qed.

Lemma C2_invalid_format_reply_witness :
  sent_from example_state
    (step example_clock example_uuid example_state (MessageEvent 2 Unparsable)) =
  [(2, ErrorMessage 1004 "Invalid message format" VUndefined)].
Proof.
  assert (Hopen : readyState example_state 2 = OPEN) by (vm_compute; reflexivity).
  rewrite (proj1 (C2_invalid_format_reply example_clock example_uuid example_state 2
                    Unparsable Hopen (or_introl eq_refl))).
  vm_compute. reflexivity.
Defined.

(** C2 as stated fails: a REGISTER_HOST without [deviceId] is malformed, yet
    it is answered with AUTH_SUCCESS and registered (under [undefined]). *)
Lemma C2_counterexample :
  let s := step example_clock example_uuid initial (Connection 1) in
  let data := Parses (PObject nameless_host_message) in
  let s' := step example_clock example_uuid s (MessageEvent 1 data) in
  malformed data /\ readyState s 1 = OPEN /\
  sent_from s s' = [(1, AuthSuccess 1001 VUndefined)] /\
  Map_get VUndefined (clients s') = Some (mkClient VUndefined 1 host (Some 0)) /\
  ~ answers_invalid_format s s' 1.
Proof.
  repeat split.
  intros (_ & Hclients & _). vm_compute in Hclients. discriminate.
Qed.

(** ** Timestamps *)

(** C7, as amended. Every frame the server writes during a step is either
    the object of an OFFER, ANSWER or ICE_CANDIDATE relayed as received,
    whose [timestamp] is whatever the sender put there, or an object literal
    of the server, whose [timestamp] is the capture time at the moment of
    sending: what the last call of [Date.now()] before the write returned, a
    call made during that step. *)
Theorem C7_timestamps clock uuid s e :
  let s' := step clock uuid s e in
  Forall2 (fun f n =>
             relayed e (snd f) \/
             (timely clock s (snd f) n /\
              match snd f with Forwarded _ => False | _ => True end))
          (sent_from s s') (reads_from s s').
Proof.
  intros s'. destruct (step_Wrote clock uuid s e) as (_ & l & ns & Hw & Hs & Hl).
  fold s' in Hw, Hs, Hl.
  rewrite (sent_from_wire _ _ _ Hw), (reads_from_sent_at _ _ _ Hs).
  eapply Forall2_impl; [exact Hl|].
  intros [w o] n [_ [Hr|[Ht Hb]]]; [by left|right]. split; [done|].
  simpl in *. destruct o; try done. by destruct Hb.
Qed.

(** C7 as stated fails: a relayed OFFER carries the sender's [timestamp];
    the server reads no clock while relaying it. *)
Lemma C7_counterexample :
  ~ all_timely example_clock example_state
      (step example_clock example_uuid example_state
         (MessageEvent 1 (Parses (PObject (offer_message "h1" "c1"))))).
Proof.
  unfold all_timely. intros H. vm_compute in H.
  inversion H as [|? ? ? ? [Hn _] _]; subst. lia.
Qed.

(** ** Disconnect *)

Lemma entries_on_nil ws entries :
  entries_on ws entries = [] <-> first_on ws entries = None.
Proof.
  rewrite first_on_None. unfold entries_on. split.
  - intros H k c Hin Hw.
    assert (Hf : (k, c) ∈ filter (fun e => client_ws (snd e) = ws) entries)
      by (by apply list_elem_of_filter).
    rewrite H in Hf. by apply elem_of_nil in Hf.
  - intros H. apply elem_of_nil_inv. intros [k c] Hin.
    apply list_elem_of_filter in Hin as [Hw Hin]. by apply (H k c).
Qed.

Lemma length_Map_delete {V} key (m : list (value * V)) :
  length m <= S (length (Map_delete key m)).
Proof.
  induction m as [|[k v] m IH]; simpl; [lia|].
  destruct (decide (k = key)); simpl; lia.
Qed.

Lemma entries_on_delete ws m id c :
  NoDup (Map_keys m) -> (id, c) ∈ m -> client_ws c = ws ->
  length (entries_on ws m) = S (length (entries_on ws (Map_delete id m))).
Proof.
  unfold entries_on, Map_keys.
  induction m as [|[k v] m IH]; simpl; intros Hnd Hin Hw.
  - by apply elem_of_nil in Hin.
  - apply NoDup_cons in Hnd as [Hk Hnd].
    destruct (decide (k = id)) as [->|Hne].
    + apply elem_of_cons in Hin as [Heq|Hin].
      * inversion Heq; subst. rewrite filter_cons. by rewrite decide_True.
      * exfalso. apply Hk. by apply (elem_of_Map_keys _ _ c).
    + apply elem_of_cons in Hin as [Heq|Hin]; [inversion Heq; congruence|].
      rewrite !filter_cons. simpl.
      destruct (decide (client_ws v = ws)); simpl; rewrite (IH Hnd Hin Hw); done.
Qed.

Section Disconnect_facts.
Variable clock : nat -> Z.
Variable uuid : nat -> string.

Lemma handleDisconnect_absent ws s :
  first_on ws (clients s) = None -> handleDisconnect clock ws s = (Normal, s).
Proof. intros H. by rewrite handleDisconnect_eq, H. Qed.

Lemma handleDisconnect_throws ws s id c :
  first_on ws (clients s) = Some (id, c) -> printable id = false ->
  handleDisconnect clock ws s = (Throw, s).
Proof. intros H Hp. by rewrite handleDisconnect_eq, H, disconnect_entry_throws. Qed.

Lemma handleDisconnect_clients ws s :
  clients (exec (handleDisconnect clock ws) s) =
  match first_on ws (clients s) with
  | Some (id, _) => if printable id then Map_delete id (clients s) else clients s
  | None => clients s
  end.
Proof.
  unfold exec. rewrite handleDisconnect_eq.
  destruct (first_on ws (clients s)) as [[id c]|]; [|done].
  destruct (printable id) eqn:Hp; [|by rewrite disconnect_entry_throws].
  destruct (client_type c) eqn:Ht; [destruct (client_device c) as [r|] eqn:Hr|].
  - by destruct (disconnect_entry_host clock id c r s Hp Ht Hr) as (_ & Ec & _).
  - by rewrite disconnect_entry_other by (done || by right).
  - by rewrite disconnect_entry_other by (done || by left).
Qed.

(** The disconnect path of an event, with what the [catch] of the message
    listener adds when it ran for a DISCONNECT message. *)
Lemma step_disconnects ws e s :
  disconnects ws e ->
  step clock uuid s e =
  match e with
  | CloseEvent _ => exec (handleDisconnect clock ws) (at_disconnect e s)
  | _ => caught clock ws (handleDisconnect clock ws s)
  end.
Proof.
  intros [->|(m & -> & Hlabel)]; [done|].
  by rewrite (step_label clock uuid ws m s DISCONNECT Hlabel).
Qed.

(** When the disconnect path returns, both kinds of event leave the same
    state. *)
Lemma step_disconnects_Normal ws e s :
  disconnects ws e ->
  fst (handleDisconnect clock ws (at_disconnect e s)) = Normal ->
  step clock uuid s e = exec (handleDisconnect clock ws) (at_disconnect e s).
Proof.
  intros He Hn. rewrite (step_disconnects ws e s He).
  destruct He as [->|(m & -> & Hlabel)]; [done|].
  simpl in *. unfold caught. by rewrite Hn.
Qed.

Lemma at_disconnect_same e s :
  same_registry s (at_disconnect e s) /\ wire (at_disconnect e s) = wire s /\
  date_calls (at_disconnect e s) = date_calls s /\
  uuid_calls (at_disconnect e s) = uuid_calls s.
Proof. destruct e; by repeat split. Qed.

Lemma uncaught_disconnects ws e s :
  disconnects ws e ->
  uncaught clock uuid s e = true ->
  e = CloseEvent ws /\
  exists id c, first_on ws (clients s) = Some (id, c) /\ printable id = false.
Proof.
  intros [->|(m & -> & _)] H; [|by rewrite uncaught_MessageEvent in H].
  split; [done|]. rewrite uncaught_CloseEvent in H.
  destruct (first_on ws (clients s)) as [[id c]|]; [|done].
  exists id, c. split; [done|]. by apply negb_true_iff.
Qed.

End Disconnect_facts.

(** C6. Running the disconnect path, by a close event or by a DISCONNECT
    message, for a socket whose participant has been removed, so that no
    registered participant is on it: nothing is written, so no DEVICE_OFFLINE
    is broadcast again, no clock is read, the registry is as it was, and the
    listener returns without an error. *)
Theorem C6_disconnect_idempotent clock uuid s ws e :
  disconnects ws e ->
  entries_on ws (clients s) = [] ->
  let s' := step clock uuid s e in
  sent_from s s' = [] /\ same_registry s s' /\
  date_calls s' = date_calls s /\ uuid_calls s' = uuid_calls s /\
  uncaught clock uuid s e = false.
Proof.
  intros He Hnone s'.
  destruct (at_disconnect_same e s) as ((Hc & Hd & Hh & Hn) & Hw & Hdc & Huc).
  apply entries_on_nil in Hnone.
  assert (Hnone0 : first_on ws (clients (at_disconnect e s)) = None)
    by (by rewrite Hc).
  assert (Hs' : s' = at_disconnect e s).
  { unfold s'. rewrite (step_disconnects_Normal clock uuid ws e s He);
      unfold exec; by rewrite (handleDisconnect_absent clock ws _ Hnone0). }
  rewrite Hs'. split; [unfold sent_from; rewrite Hw; apply drop_all|].
  split; [by repeat split|]. split; [done|]. split; [done|].
  destruct (uncaught clock uuid s e) eqn:Hu; [|done].
  destruct (uncaught_disconnects clock uuid ws e s He Hu) as (_ & id & c & Hf & _).
  by rewrite Hnone in Hf.
Qed.

Lemma C6_disconnect_idempotent_witness :
  let s := example_closed_state in
  let s' := step example_clock example_uuid s (CloseEvent 1) in
  sent_from s s' = [] /\ same_registry s s' /\
  date_calls s' = date_calls s /\ uuid_calls s' = uuid_calls s /\
  uncaught example_clock example_uuid s (CloseEvent 1) = false.
Proof.
  assert (H : entries_on 1 (clients example_closed_state) = [])
    by (vm_compute; reflexivity).
  exact (C6_disconnect_idempotent example_clock example_uuid
           example_closed_state 1 (CloseEvent 1) (or_introl eq_refl) H).
Defined.

Section Disconnect_frame.
Variable clock : nat -> Z.
Variable uuid : nat -> string.

(** What the disconnect path does to the registry when it finds an entry
    whose id it can log. *)
Lemma handleDisconnect_registry ws s id c :
  consistent s ->
  first_on ws (clients s) = Some (id, c) ->
  printable id = true ->
  let s' := exec (handleDisconnect clock ws) s in
  clients s' = Map_delete id (clients s) /\
  (forall k, k <> id -> Map_get k (devices s') = Map_get k (devices s)) /\
  length (devices s) <= S (length (devices s')) /\
  (forall k r, (k, r) ∈ devices s -> k <> id -> heap s' r = heap s r).
Proof.
  intros Hs Hf Hp s'. subst s'. unfold exec. rewrite handleDisconnect_eq, Hf.
  apply first_on_Some in Hf as [Hin Hws].
  destruct (client_type c) eqn:Ht.
  - destruct (hosts_device s Hs id c Hin Ht) as (r0 & Hr0 & Hd0).
    destruct (disconnect_entry_host clock id c r0 s Hp Ht Hr0)
      as (_ & Ec & Ed & Eh & _).
    fold (exec (disconnect_entry clock id c) s).
    rewrite Ec, Ed. split; [done|]. split; [|split].
    + intros k Hk. by apply Map_get_delete_ne.
    + apply length_Map_delete.
    + intros k r Hk Hne. rewrite Eh. rewrite decide_False; [done|].
      intros ->. apply Hne. by apply (devices_ref_inj s k id r0).
  - rewrite disconnect_entry_other by (done || by left). simpl.
    split; [done|]. split; [done|]. split; [lia|done].
Qed.
End Disconnect_frame.

(** C10. One run of the disconnect path removes at most one entry of each
    map, and only the first entry of [clients] on the closing socket: that
    entry goes when its id can be logged; when it cannot, the log line throws
    and nothing goes.  Every
    other entry, also one on the same socket, stays as it is: same
    participant under the same id, same entry of [devices], and a host's
    [Device] object with every field as before. *)
Theorem C10_disconnect_removes_one clock uuid s ws :
  reachable clock uuid s ->
  let s' := exec (handleDisconnect clock ws) s in
  length (clients s) <= S (length (clients s')) /\
  length (devices s) <= S (length (devices s')) /\
  match first_on ws (clients s) with
  | None => s' = s
  | Some (id, c) =>
      fst (handleDisconnect clock ws s) = (if printable id then Normal else Throw) /\
      clients s' = (if printable id then Map_delete id (clients s) else clients s) /\
      forall k c', (k, c') ∈ clients s -> (k, c') <> (id, c) ->
        Map_get k (clients s') = Some c' /\
        Map_get k (devices s') = Map_get k (devices s) /\
        forall r, client_device c' = Some r -> heap s' r = heap s r
  end.
Proof.
  intros Hreach s'.
  pose proof (reachable_consistent clock uuid s Hreach) as Hs.
  destruct (first_on ws (clients s)) as [[id c]|] eqn:Hf.
  - destruct (printable id) eqn:Hp.
    + destruct (handleDisconnect_registry clock ws s id c Hs Hf Hp)
        as (Ec & Ed & Hlen & Eh).
      fold s' in Ec, Ed, Hlen, Eh. rewrite Ec.
      split; [apply length_Map_delete|]. split; [done|].
      split; [by rewrite handleDisconnect_completion, Hf, Hp|]. split; [done|].
      apply first_on_Some in Hf as [Hin Hws].
      intros k c' Hk Hother.
      assert (Hne : k <> id).
      { intros ->. apply Hother. f_equal.
        pose proof (Map_get_elem_of _ _ _ (clients_NoDup s Hs) Hk) as E1.
        pose proof (Map_get_elem_of _ _ _ (clients_NoDup s Hs) Hin) as E2.
        congruence. }
      split; [|split].
      * rewrite Map_get_delete_ne by done.
        by apply Map_get_elem_of; [apply (clients_NoDup s Hs)|].
      * by apply Ed.
      * intros r Hr. destruct (client_type c') eqn:Ht.
        -- destruct (hosts_device s Hs k c' Hk Ht) as (r' & Hr' & Hd').
           rewrite Hr in Hr'. inversion Hr'; subst r'. by apply (Eh k).
        -- rewrite (clients_device s Hs k c' Hk Ht) in Hr. done.
    + subst s'. unfold exec.
      rewrite (handleDisconnect_throws clock ws s id c Hf Hp). simpl.
      split; [lia|]. split; [lia|]. split; [done|]. split; [done|].
      intros k c' Hk _. split; [|done].
      by apply Map_get_elem_of; [apply (clients_NoDup s Hs)|].
  - subst s'. unfold exec. rewrite (handleDisconnect_absent clock ws s Hf). simpl.
    split; [lia|]. split; [lia|done].
Qed.

Lemma C10_disconnect_removes_one_witness :
  let s := two_ids_state in
  let s' := exec (handleDisconnect example_clock 1) s in
  Map_get (VStr "h1") (clients s') = Some (mkClient (VStr "h1") 1 host (Some 0)) /\
  Map_get (VStr "h1") (devices s') = Map_get (VStr "h1") (devices s) /\
  heap s' 0 = heap s 0.
Proof.
  intros s s'.
  pose proof (C10_disconnect_removes_one example_clock example_uuid two_ids_state 1
                two_ids_state_reachable) as H.
  cbv zeta in H.
  assert (Hf : first_on 1 (clients two_ids_state)
               = Some (VStr "c1", mkClient (VStr "c1") 1 client None))
    by (vm_compute; reflexivity).
  rewrite Hf in H. destruct H as (_ & _ & _ & _ & H).
  destruct (H (VStr "h1") (mkClient (VStr "h1") 1 host (Some 0)))
    as (H1 & H2 & H3).
  - vm_compute. apply elem_of_cons. right. apply elem_of_cons. by left.
  - intros Heq. inversion Heq.
  - split; [exact H1|]. split; [exact H2|]. exact (H3 0 eq_refl).
Defined.

(** ** After a host left *)

Lemma listed_ids s :
  (forall k r, (k, r) ∈ devices s -> deviceId (heap s r) = k) ->
  map deviceId (listed s) = Map_keys (devices s).
Proof.
  unfold listed, Map_values, Map_keys.
  induction (devices s) as [|[k r] l IH]; simpl; intros H; [done|].
  f_equal.
  - apply H. apply elem_of_cons. by left.
  - apply IH. intros k' r' Hin. apply H. apply elem_of_cons. by right.
Qed.

Lemma elem_of_listed s d :
  d ∈ listed s <-> exists k r, (k, r) ∈ devices s /\ d = heap s r.
Proof.
  unfold listed, Map_values. split.
  - intros H. apply list_elem_of_fmap in H as (r & -> & Hr).
    apply list_elem_of_fmap in Hr as ([k r'] & -> & Hk). by exists k, r'.
  - intros (k & r & Hin & ->). apply list_elem_of_fmap. exists r. split; [done|].
    apply list_elem_of_fmap. by exists (k, r).
Qed.

Section Devices_of_a_step.
Variable clock : nat -> Z.
Variable uuid : nat -> string.

(** What an event does to the [devices] map: nothing, or the [set] of a
    REGISTER_HOST under a new object, or the [delete] of a disconnect. *)
Lemma step_devices s e :
  next_ref s <= next_ref (step clock uuid s e) /\
  (devices (step clock uuid s e) = devices s \/
   (exists id, registers_host id e /\
      devices (step clock uuid s e) = Map_set id (next_ref s) (devices s) /\
      next_ref (step clock uuid s e) = S (next_ref s)) \/
   (exists id, devices (step clock uuid s e) = Map_delete id (devices s))).
Proof.
  assert (Hsame : forall s', same_registry s s' ->
            next_ref s <= next_ref s' /\
            (devices s' = devices s \/
             (exists id, registers_host id e /\
                devices s' = Map_set id (next_ref s) (devices s) /\
                next_ref s' = S (next_ref s)) \/
             (exists id, devices s' = Map_delete id (devices s)))).
  { intros s' (_ & Hd & _ & Hn). split; [lia | by left]. }
  assert (Hdisc : forall ws s0, same_registry s s0 ->
            let s' := snd (handleDisconnect clock ws s0) in
            next_ref s <= next_ref s' /\
            (devices s' = devices s \/
             (exists id, devices s' = Map_delete id (devices s)))).
  { intros ws s0 (_ & Hd & _ & Hn) s'. subst s'. rewrite handleDisconnect_eq.
    destruct (first_on ws (clients s0)) as [[id c]|];
      [|simpl; split; [lia | by left]].
    destruct (printable id) eqn:Hp;
      [|rewrite disconnect_entry_throws by done; simpl; split; [lia | by left]].
    destruct (client_type c) eqn:Ht; destruct (client_device c) as [r|] eqn:Hr;
      try (rewrite disconnect_entry_other by (done || tauto); simpl;
           split; [lia | by left]).
    destruct (disconnect_entry_host clock id c r s0 Hp Ht Hr)
      as (_ & _ & Ed & _ & En & _).
    unfold exec in Ed, En. rewrite Ed, En, Hd. split; [lia|]. right. by exists id. }
  destruct e as [ws|ws [|[| |m]]|ws].
  - apply Hsame. by repeat split.
  - rewrite step_MessageEvent. unfold exec. rewrite on_message_Unparsable, sendError_eq.
    apply Hsame. by repeat split.
  - rewrite step_MessageEvent. unfold exec. rewrite on_message_PNull, sendError_eq.
    apply Hsame. by repeat split.
  - rewrite step_MessageEvent. apply Hsame. by repeat split.
  - rewrite step_MessageEvent_PObject.
    assert (Hcaught : forall r, devices (caught clock ws r) = devices (snd r) /\
                                next_ref (caught clock ws r) = next_ref (snd r)).
    { intros [[] s1]; [done|]. by rewrite caught_Throw. }
    destruct (Hcaught (dispatch clock uuid ws m s)) as [-> ->].
    unfold dispatch.
    destruct (case_label (prop m "type")) as [[]|] eqn:Hlabel;
      try (apply Hsame; by repeat split).
    + rewrite handleRegisterHost_eq.
      assert (Hreg : registers_host (prop m "deviceId")
                       (MessageEvent ws (Parses (PObject m))))
        by (by exists ws, m).
      destruct (_ && _); simpl; (split; [lia|]); right; left;
        by exists (prop m "deviceId").
    + rewrite handleRegisterClient_eq.
      destruct (printable _); simpl; (split; [lia | by left]).
    + rewrite handleGetDevices_eq. apply Hsame. by repeat split.
    + apply Hsame, handleConnectRequest_same_registry.
    + rewrite handleOffer_eq. apply Hsame, relay_same_registry.
    + rewrite handleAnswer_eq. apply Hsame, relay_same_registry.
    + rewrite handleIceCandidate_eq. apply Hsame, relay_same_registry.
    + destruct (Hdisc ws s) as [Hn [Hd|Hd]]; [by repeat split| |];
        (split; [done|]); [by left | by right; right].
  - rewrite step_CloseEvent.
    destruct (Hdisc ws (exec (set_readyState ws CLOSED) s)) as [Hn [Hd|Hd]];
      [by repeat split| |]; (split; [done|]); [by left | by right; right].
Qed.

(** A [Device] object that left the [devices] map never comes back: a
    registration makes a new object. *)
Lemma retired_step s e r :
  r < next_ref s -> r ∉ Map_values (devices s) ->
  r < next_ref (step clock uuid s e) /\
  r ∉ Map_values (devices (step clock uuid s e)).
Proof.
  intros Hlt Hout.
  destruct (step_devices s e) as [Hn [Hd|[(id & _ & Hd & _)|(id & Hd)]]];
    (split; [lia|]); rewrite Hd; [done| |].
  - intros Hin. apply elem_of_Map_values in Hin as [k Hin].
    apply elem_of_Map_set_inv in Hin as [[_ ->]|Hin]; [lia|].
    apply Hout. by apply (Map_values_elem_of _ k).
  - intros Hin. apply elem_of_Map_values in Hin as [k Hin].
    apply elem_of_Map_delete_inv in Hin.
    apply Hout. by apply (Map_values_elem_of _ k).
Qed.

Lemma retired_run s events r :
  r < next_ref s -> r ∉ Map_values (devices s) ->
  r ∉ Map_values (devices (run clock uuid s events)).
Proof.
  intros Hlt Hout.
  cut (r < next_ref (run clock uuid s events) /\
       r ∉ Map_values (devices (run clock uuid s events))); [tauto|].
  induction events as [|e events IH] using rev_ind; [done|].
  rewrite run_snoc. destruct IH. by apply retired_step.
Qed.

(** An id that is not a key of the [devices] map stays out until a host
    registers under it. *)
Lemma absent_step s e id :
  Map_get id (devices s) = None -> ~ registers_host id e ->
  Map_get id (devices (step clock uuid s e)) = None.
Proof.
  intros Hnone Hno.
  destruct (step_devices s e) as [_ [Hd|[(id' & Hreg & Hd & _)|(id' & Hd)]]];
    rewrite Hd; [done| |by apply Map_get_delete_None].
  rewrite Map_get_set_ne; [done|]. by intros ->.
Qed.

Lemma absent_run s events id :
  Map_get id (devices s) = None ->
  Forall (fun e => ~ registers_host id e) events ->
  Map_get id (devices (run clock uuid s events)) = None.
Proof.
  intros Hnone Hno. induction events as [|e events IH] using rev_ind; [done|].
  apply Forall_app in Hno as [Hno He]. apply Forall_inv in He.
  rewrite run_snoc. apply absent_step; [by apply IH | done].
Qed.

(** A host leaves, seen from the handler. *)
Lemma handleDisconnect_host ws s id c :
  consistent s ->
  first_on ws (clients s) = Some (id, c) ->
  client_type c = host ->
  printable id = true ->
  let s' := exec (handleDisconnect clock ws) s in
  fst (handleDisconnect clock ws s) = Normal /\
  exists r, client_device c = Some r /\ (id, r) ∈ devices s /\
    let d := offline_at (clock (date_calls s)) (heap s r) in
    deviceId d = id /\
    wire s' = wire s ++
      map (fun c' => (client_ws c',
                      DeviceStatus DEVICE_OFFLINE (clock (1 + date_calls s)) d))
          (filter (listening s) (Map_values (clients s))) /\
    Map_get id (clients s') = None /\
    Map_get id (devices s') = None /\
    r < next_ref s' /\ r ∉ Map_values (devices s').
Proof.
  intros Hs Hf Ht Hp s'.
  pose proof Hf as Hf0. apply first_on_Some in Hf0 as [Hin Hws].
  destruct (hosts_device s Hs id c Hin Ht) as (r & Hr & Hd).
  assert (Es' : s' = exec (disconnect_entry clock id c) s).
  { unfold s', exec. by rewrite handleDisconnect_eq, Hf. }
  destruct (disconnect_entry_host clock id c r s Hp Ht Hr)
    as (Hn & Ec & Ed & Eh & En & _ & _ & _ & Ew & _).
  rewrite <- Es' in Ec, Ed, Eh, En, Ew.
  split; [by rewrite handleDisconnect_eq, Hf|].
  exists r. split; [done|]. split; [done|]. simpl.
  split; [by apply (devices_key s Hs)|]. split; [done|].
  split; [rewrite Ec; apply Map_get_delete_eq, (clients_NoDup s Hs)|].
  split; [rewrite Ed; apply Map_get_delete_eq, (devices_NoDup s Hs)|].
  split; [rewrite En; by apply (devices_allocated s Hs id)|].
  rewrite Ed. intros Hv. apply elem_of_Map_values in Hv as [k Hk].
  apply elem_of_Map_delete in Hk as [Hne Hk]; [|apply (devices_NoDup s Hs)].
  apply Hne. by apply (devices_ref_inj s k id r).
Qed.
End Devices_of_a_step.

(** C5, as amended. When the disconnect path runs for a socket, by its
    close event or by a DISCONNECT message, and the first participant
    registered on it is a host whose id can be converted to a string: every
    participant of role client whose socket is open is sent exactly one
    DEVICE_OFFLINE carrying the host's device with [online = false] and
    [lastSeen] the reading of the clock made on disconnect; the host's entries
    are gone from both maps; and whatever happens next, the DEVICE_LIST sent
    for a GET_DEVICES does not have that device in it: the object never
    returns to the [devices] map, the device as it was broadcast is not in
    the list, and no device of the list has the host's id for as long as no
    host registers under that id again. *)
Theorem C5_host_disconnect clock uuid s ws e id c :
  reachable clock uuid s ->
  disconnects ws e ->
  first_on ws (clients s) = Some (id, c) ->
  client_type c = host ->
  printable id = true ->
  let s' := step clock uuid s e in
  exists r, client_device c = Some r /\
    let d := offline_at (clock (date_calls s)) (heap s r) in
    deviceId d = id /\ online d = false /\ lastSeen d = clock (date_calls s) /\
    sent_from s s' =
      map (fun c' => (client_ws c',
                      DeviceStatus DEVICE_OFFLINE (clock (1 + date_calls s)) d))
          (filter (listening (at_disconnect e s)) (Map_values (clients s))) /\
    Map_get id (clients s') = None /\
    Map_get id (devices s') = None /\
    forall events ws' m,
      let s'' := run clock uuid s' events in
      case_label (prop m "type") = Some GET_DEVICES ->
      readyState s'' ws' = OPEN ->
      sent_from s'' (step clock uuid s'' (MessageEvent ws' (Parses (PObject m))))
        = [(ws', DeviceList (clock (date_calls s'')) (listed s''))] /\
      (r ∉ Map_values (devices s'')) /\
      (d ∉ listed s'') /\
      (Forall (fun e' => ~ registers_host id e') events ->
       forall d', d' ∈ listed s'' -> deviceId d' <> id).
Proof.
  intros Hreach He Hf Ht Hp s'.
  pose proof (reachable_consistent clock uuid s Hreach) as Hs.
  destruct (at_disconnect_same e s) as (Hsame & Hw & Hdc & _).
  pose proof (consistent_same_registry _ _ Hsame Hs) as Hs0.
  destruct Hsame as (Hc & Hd0 & Hh & _).
  set (s0 := at_disconnect e s) in *.
  rewrite <- Hc in Hf.
  destruct (handleDisconnect_host clock ws s0 id c Hs0 Hf Ht Hp)
    as (Hn & r & Hr & Hin & Hid & Hwire & Hgc & Hgd & Hlt & Hout).
  pose proof (step_disconnects_Normal clock uuid ws e s He Hn) as Es'.
  fold s' s0 in Es'. rewrite <- Es', Hh, Hdc, Hc in *.
  exists r. split; [done|]. simpl. split; [done|]. split; [done|]. split; [done|].
  split; [apply sent_from_wire; by rewrite <- Hw|].
  split; [done|]. split; [done|].
  intros events ws' m Hlabel Hopen. set (s'' := run clock uuid s' events) in *.
  assert (Hs' : consistent s') by (by apply consistent_step).
  assert (Hs'' : consistent s'') by (by apply consistent_run).
  split; [|split; [|split]].
  - rewrite (step_label clock uuid ws' m s'' GET_DEVICES Hlabel).
    rewrite handleGetDevices_eq, caught_Normal. apply sent_from_wire. simpl.
    unfold written. by rewrite decide_True.
  - by apply retired_run.
  - intros Hd. apply elem_of_listed in Hd as (k & r' & Hk & Heq).
    pose proof (devices_online s'' Hs'' k r' Hk) as Hon.
    rewrite <- Heq in Hon. done.
  - intros Hno d' Hd'. apply elem_of_listed in Hd' as (k & r' & Hk & ->).
    rewrite (devices_key s'' Hs'' k r' Hk). intros ->.
    pose proof (absent_run clock uuid s' events id Hgd Hno) as Hnone.
    apply Map_get_None in Hnone. apply Hnone. by apply (elem_of_Map_keys _ _ r').
Qed.

Lemma C5_host_disconnect_witness :
  sent_from example_state
    (step example_clock example_uuid example_state (CloseEvent 1)) =
  [(2, DeviceStatus DEVICE_OFFLINE 1005
         (mkDevice (VStr "h1") (VStr "Office-PC") (VStr "macos") false 1004))].
Proof.
  assert (Hf : first_on 1 (clients example_state)
               = Some (VStr "h1", mkClient (VStr "h1") 1 host (Some 0)))
    by (vm_compute; reflexivity).
  destruct (C5_host_disconnect example_clock example_uuid example_state 1
              (CloseEvent 1) (VStr "h1") (mkClient (VStr "h1") 1 host (Some 0))
              example_state_reachable (or_introl eq_refl) Hf eq_refl eq_refl)
    as (r & Hr & _ & _ & _ & Hsent & _).
  inversion Hr; subst r. rewrite Hsent. vm_compute. reflexivity.
Defined.

(** C5 as stated fails three times, and its last part holds of the device
    that left, not of its id.  Socket 1 registered as client "c1" and
    then as host "h1": when it closes, the loop stops at "c1", the host stays
    in both maps, client "c2", whose socket is open, is sent nothing, and the
    device is still listed.  A host registered under an id that cannot be
    converted to a string sends DISCONNECT: the log line throws, the host
    stays in both maps and client "c2" is sent nothing.  When host "h2"
    closes, client "cb", which is registered on a closed socket, is sent
    nothing.  And after host "h1" left, a host that registers as "h1" again
    is listed, with a new [Device] object. *)
Lemma C5_counterexample :
  (let s := two_ids_state in
   let s' := step example_clock example_uuid s (CloseEvent 1) in
   reachable example_clock example_uuid s /\
   Map_get (VStr "h1") (clients s) = Some (mkClient (VStr "h1") 1 host (Some 0)) /\
   Map_get (VStr "c2") (clients s) = Some (mkClient (VStr "c2") 2 client None) /\
   readyState s 2 = OPEN /\
   sent_from s s' = [] /\
   Map_get (VStr "h1") (clients s') <> None /\
   Map_get (VStr "h1") (devices s') <> None /\
   exists t ds,
     sent_from s' (step example_clock example_uuid s'
                     (MessageEvent 2 (Parses (PObject get_devices_message)))) =
     [(2, DeviceList t ds)] /\
     exists d, d ∈ ds /\ deviceId d = VStr "h1" /\ online d = true) /\
  (let s := unprintable_host_state in
   let s' := step example_clock example_uuid s
               (MessageEvent 1 (Parses (PObject disconnect_message))) in
   reachable example_clock example_uuid s /\
   first_on 1 (clients s) = Some (unprintable, mkClient unprintable 1 host (Some 0)) /\
   Map_get (VStr "c2") (clients s) = Some (mkClient (VStr "c2") 2 client None) /\
   readyState s 2 = OPEN /\
   sent_from s s' = [(1, ErrorMessage 1003 "Invalid message format" VUndefined)] /\
   Map_get unprintable (clients s') <> None /\
   Map_get unprintable (devices s') <> None) /\
  (let s := stale_client_state in
   let s' := step example_clock example_uuid s (CloseEvent 2) in
   reachable example_clock example_uuid s /\
   first_on 2 (clients s) = Some (VStr "h2", mkClient (VStr "h2") 2 host (Some 0)) /\
   Map_get (VStr "cb") (clients s) = Some (mkClient (VStr "cb") 1 client None) /\
   sent_from s s' = []) /\
  (let s' := step example_clock example_uuid example_state (CloseEvent 1) in
   let s'' := run example_clock example_uuid s'
                [Connection 3; MessageEvent 3 (register_host_frame "h1")] in
   Map_get (VStr "h1") (devices example_state) = Some 0 /\
   Map_get (VStr "h1") (devices s') = None /\
   Map_get (VStr "h1") (devices s'') = Some 1 /\
   sent_from s'' (step example_clock example_uuid s''
                    (MessageEvent 2 (Parses (PObject get_devices_message)))) =
   [(2, DeviceList 1009
          [mkDevice (VStr "h1") (VStr "Office-PC") (VStr "macos") true 1006])]).
Proof.
  split; [|split; [|split]]; [| | |vm_compute; by repeat split].
  - split; [apply two_ids_state_reachable|].
    vm_compute. repeat split; try discriminate.
    eexists _, _. split; [reflexivity|].
    eexists. split; [constructor|]. by split.
  - split; [exists unprintable_host_events; split; [vm_compute; reflexivity | done]|].
    vm_compute. repeat split; discriminate.
  - split; [exists stale_client_events; split; [vm_compute; reflexivity | done]|].
    vm_compute. repeat split.
Qed.

(** ** Registration *)

Lemma example_uuid_nonempty n : example_uuid n <> "".
Proof. destruct n; simpl; discriminate. Qed.

Lemma example_uuid_inj a b : example_uuid a = example_uuid b -> a = b.
Proof.
  revert b. induction a as [|a IH]; intros [|b]; simpl; intros H;
    try done; try discriminate.
  inversion H. f_equal. by apply IH.
Qed.

Lemma filter_AuthSuccess_broadcast s status t d cs :
  filter is_AuthSuccess (broadcast_frames s (DeviceStatus status t d) cs) = [].
Proof.
  apply elem_of_nil_inv. intros [w o] Hin.
  apply list_elem_of_filter in Hin as [Ha Hin].
  apply elem_of_broadcast_frames in Hin as [-> _]. done.
Qed.

(** A REGISTER_CLIENT, seen from the event: the participant is in the map
    whether or not the log line throws. *)
Lemma step_register_client clock uuid s ws m :
  case_label (prop m "type") = Some REGISTER_CLIENT ->
  let generated := negb (truthy (prop m "clientId")) in
  let id := if generated then VStr (uuid (uuid_calls s)) else prop m "clientId" in
  let s' := step clock uuid s (MessageEvent ws (Parses (PObject m))) in
  clients s' = Map_set id (mkClient id ws client None) (clients s) /\
  devices s' = devices s /\
  uuid_calls s' = (if generated then S (uuid_calls s) else uuid_calls s) /\
  sent_from s s' =
    written s ws (if printable id then AuthSuccess (clock (date_calls s)) id
                  else ErrorMessage (clock (date_calls s))
                         "Invalid message format" VUndefined).
Proof.
  intros Hlabel generated id s'. subst s'.
  rewrite (step_label clock uuid ws m s REGISTER_CLIENT Hlabel).
  rewrite handleRegisterClient_eq. fold generated id.
  destruct (printable id).
  - rewrite caught_Normal. simpl. repeat split. by apply sent_from_wire.
  - rewrite caught_Throw. simpl. repeat split. by apply sent_from_wire.
Qed.

(** A REGISTER_HOST, seen from the event: what is written. *)
Lemma step_register_host clock uuid s ws m :
  case_label (prop m "type") = Some REGISTER_HOST ->
  let id := prop m "deviceId" in
  let d := mkDevice id (prop m "deviceName") (prop m "platform") true
                    (clock (date_calls s)) in
  let s' := step clock uuid s (MessageEvent ws (Parses (PObject m))) in
  sent_from s s' =
    (if printable (prop m "deviceName") && printable id
     then written s ws (AuthSuccess (clock (1 + date_calls s)) id) ++
          broadcast_frames s (DeviceStatus DEVICE_ONLINE (clock (2 + date_calls s)) d)
            (Map_values (clients s'))
     else written s ws (ErrorMessage (clock (1 + date_calls s))
                          "Invalid message format" VUndefined)).
Proof.
  intros Hlabel id d s'. subst s'.
  rewrite (step_label clock uuid ws m s REGISTER_HOST Hlabel).
  rewrite handleRegisterHost_eq. fold id.
  destruct (printable (prop m "deviceName") && printable id);
    [rewrite caught_Normal | rewrite caught_Throw]; simpl;
    by apply sent_from_wire.
Qed.

(** The id generated for a registration without [clientId] that comes after
    [events] is a value of [uuidv4()] not drawn before. *)
Lemma later_generated_id clock uuid s events ws m w t id :
  let s2 := run clock uuid s events in
  case_label (prop m "type") = Some REGISTER_CLIENT ->
  truthy (prop m "clientId") = false ->
  (w, AuthSuccess t id)
    ∈ sent_from s2 (step clock uuid s2 (MessageEvent ws (Parses (PObject m)))) ->
  exists n, uuid_calls s <= n /\ id = VStr (uuid n).
Proof.
  intros s2 Hlabel Hf Hin.
  destruct (step_register_client clock uuid s2 ws m Hlabel) as (_ & _ & _ & Hsent).
  rewrite Hsent, Hf in Hin. simpl in Hin.
  apply elem_of_written in Hin as (_ & Hid & _). inversion Hid; subst.
  exists (uuid_calls s2). split; [apply uuid_calls_run | done].
Qed.

(** C8, as amended. A REGISTER_HOST or REGISTER_CLIENT from an open socket,
    in whatever state earlier registrations left, whose id (and, for a host,
    device name) can be converted to a string, is answered with exactly one
    AUTH_SUCCESS, sent to that socket, whose [id] is the id the participant
    was registered under: [deviceId] for a host, [clientId] for a client that
    supplies one, and otherwise the next value of [uuidv4()], which, when
    [uuidv4()] returns non-empty values that never repeat, is non-empty and
    differs from the id generated for any later registration. *)
Theorem C8_auth_success clock uuid s ws m :
  (forall n, uuid n <> "") ->
  (forall a b, uuid a = uuid b -> a = b) ->
  readyState s ws = OPEN ->
  let s' := step clock uuid s (MessageEvent ws (Parses (PObject m))) in
  (case_label (prop m "type") = Some REGISTER_HOST ->
   let id := prop m "deviceId" in
   printable id = true ->
   printable (prop m "deviceName") = true ->
   (exists r, Map_get id (clients s') = Some (mkClient id ws host (Some r))) /\
   filter is_AuthSuccess (sent_from s s') =
   [(ws, AuthSuccess (clock (1 + date_calls s)) id)]) /\
  (case_label (prop m "type") = Some REGISTER_CLIENT ->
   let id := if truthy (prop m "clientId") then prop m "clientId"
             else VStr (uuid (uuid_calls s)) in
   printable id = true ->
   Map_get id (clients s') = Some (mkClient id ws client None) /\
   sent_from s s' = [(ws, AuthSuccess (clock (date_calls s)) id)] /\
   (truthy (prop m "clientId") = false ->
    id <> VStr "" /\
    forall events ws2 m2 w t id2,
      let s2 := run clock uuid s' events in
      case_label (prop m2 "type") = Some REGISTER_CLIENT ->
      truthy (prop m2 "clientId") = false ->
      (w, AuthSuccess t id2)
        ∈ sent_from s2 (step clock uuid s2 (MessageEvent ws2 (Parses (PObject m2)))) ->
      id2 <> id)).
Proof.
  intros Hne Hinj Hopen s'. split; intros Hlabel.
  - intros id Hid Hname. subst s'.
    rewrite (step_label clock uuid ws m s REGISTER_HOST Hlabel).
    rewrite handleRegisterHost_eq. fold id. rewrite Hid, Hname. simpl.
    rewrite caught_Normal. simpl. split.
    + eexists. apply Map_get_set_eq.
    + erewrite sent_from_wire by (simpl; reflexivity).
      rewrite filter_app, filter_AuthSuccess_broadcast, app_nil_r.
      unfold written. rewrite decide_True by done.
      rewrite filter_cons. by rewrite decide_True.
  - intros id Hid.
    destruct (step_register_client clock uuid s ws m Hlabel)
      as (Hc & _ & Hu & Hsent).
    fold s' in Hc, Hu, Hsent.
    assert (Eid : (if negb (truthy (prop m "clientId"))
                   then VStr (uuid (uuid_calls s)) else prop m "clientId") = id).
    { subst id. by destruct (truthy (prop m "clientId")). }
    rewrite Eid in Hc, Hsent. rewrite Hid in Hsent.
    split; [|split].
    + rewrite Hc. apply Map_get_set_eq.
    + rewrite Hsent. unfold written. by rewrite decide_True.
    + intros Hf. rewrite Hf in Hu. simpl in Hu. subst id. rewrite Hf. split.
      { intros Heq. inversion Heq as [Heq']. by apply (Hne (uuid_calls s)). }
      intros events ws2 m2 w t id2 s2 Hlabel2 Hf2 Hin Heq.
      destruct (later_generated_id clock uuid s' events ws2 m2 w t id2
                  Hlabel2 Hf2 Hin) as (n & Hn & ->).
      inversion Heq as [Heq']. apply Hinj in Heq'. lia.
Qed.

Lemma C8_auth_success_witness :
  sent_from example_state
    (step example_clock example_uuid example_state
       (MessageEvent 2 (Parses (PObject no_clientId_message)))) =
  [(2, AuthSuccess 1004 (VStr "u"))] /\
  sent_from example_state
    (step example_clock example_uuid example_state
       (MessageEvent 2 (Parses (PObject (register_client_message "c2"))))) =
  [(2, AuthSuccess 1004 (VStr "c2"))] /\
  filter is_AuthSuccess
    (sent_from example_state
       (step example_clock example_uuid example_state
          (MessageEvent 1 (Parses (PObject (register_host_message "h2")))))) =
  [(1, AuthSuccess 1005 (VStr "h2"))].
Proof.
  split; [|split].
  - destruct (C8_auth_success example_clock example_uuid example_state 2
                no_clientId_message example_uuid_nonempty example_uuid_inj eq_refl)
      as [_ Hclient].
    destruct (Hclient eq_refl eq_refl) as (_ & Hsent & _). exact Hsent.
  - destruct (C8_auth_success example_clock example_uuid example_state 2
                (register_client_message "c2")
                example_uuid_nonempty example_uuid_inj eq_refl)
      as [_ Hclient].
    destruct (Hclient eq_refl eq_refl) as (_ & Hsent & _). exact Hsent.
  - destruct (C8_auth_success example_clock example_uuid example_state 1
                (register_host_message "h2")
                example_uuid_nonempty example_uuid_inj eq_refl)
      as [Hhost _].
    destruct (Hhost eq_refl eq_refl eq_refl) as (_ & Hsent). exact Hsent.
Defined.

(** C8 as stated fails for an id or a device name that cannot be converted
    to a string: the participant is registered, the log line after the
    registration throws, and the answer is the error of the listener's
    [catch], with no AUTH_SUCCESS. *)
Lemma C8_counterexample :
  (let s' := step example_clock example_uuid example_state
               (MessageEvent 2 (Parses (PObject unprintable_client_message))) in
   reachable example_clock example_uuid example_state /\
   case_label (prop unprintable_client_message "type") = Some REGISTER_CLIENT /\
   readyState example_state 2 = OPEN /\
   Map_get unprintable (clients s') = Some (mkClient unprintable 2 client None) /\
   sent_from example_state s' =
     [(2, ErrorMessage 1004 "Invalid message format" VUndefined)]) /\
  (let s' := step example_clock example_uuid example_state
               (MessageEvent 1 (Parses (PObject unprintable_name_message))) in
   case_label (prop unprintable_name_message "type") = Some REGISTER_HOST /\
   readyState example_state 1 = OPEN /\
   Map_get (VStr "h2") (clients s') = Some (mkClient (VStr "h2") 1 host (Some 1)) /\
   Map_get (VStr "h2") (devices s') = Some 1 /\
   sent_from example_state s' =
     [(1, ErrorMessage 1005 "Invalid message format" VUndefined)]).
Proof.
  split.
  - split; [apply example_state_reachable|]. vm_compute. by repeat split.
  - vm_compute. by repeat split.
Qed.

(** C9. A REGISTER_CLIENT whose [clientId] is the empty string does what one
    without [clientId] does: the next value of [uuidv4()] becomes the id, the
    participant is registered under it and found there, no other entry of
    the map changes, AUTH_SUCCESS carries that id, and, that value being
    non-empty, what the registry holds under the empty string is what it held
    before: nothing, in a state where nothing was registered under it. *)
Theorem C9_empty_clientId clock uuid s ws m_empty m_absent :
  case_label (prop m_empty "type") = Some REGISTER_CLIENT ->
  case_label (prop m_absent "type") = Some REGISTER_CLIENT ->
  prop m_empty "clientId" = VStr "" ->
  prop m_absent "clientId" = VUndefined ->
  let s' := step clock uuid s (MessageEvent ws (Parses (PObject m_empty))) in
  let id := VStr (uuid (uuid_calls s)) in
  s' = step clock uuid s (MessageEvent ws (Parses (PObject m_absent))) /\
  clients s' = Map_set id (mkClient id ws client None) (clients s) /\
  Map_get id (clients s') = Some (mkClient id ws client None) /\
  (forall k, k <> id -> Map_get k (clients s') = Map_get k (clients s)) /\
  devices s' = devices s /\
  uuid_calls s' = S (uuid_calls s) /\
  (readyState s ws = OPEN ->
   sent_from s s' = [(ws, AuthSuccess (clock (date_calls s)) id)]) /\
  (uuid (uuid_calls s) <> "" ->
   Map_get (VStr "") (clients s') = Map_get (VStr "") (clients s) /\
   (Map_get (VStr "") (clients s) = None -> VStr "" ∉ Map_keys (clients s'))).
Proof.
  intros Hl1 Hl2 Hempty Habsent s' id.
  destruct (step_register_client clock uuid s ws m_empty Hl1)
    as (Hc & Hd & Hu & Hsent).
  fold s' in Hc, Hd, Hu, Hsent. rewrite Hempty in Hc, Hu, Hsent.
  simpl in Hc, Hu, Hsent. fold id in Hc, Hsent.
  split; [|split; [done|]; split; [|split; [|split; [done|]; split; [done|]; split]]].
  - subst s'. rewrite !step_MessageEvent_PObject. unfold dispatch.
    rewrite Hl1, Hl2, !handleRegisterClient_eq, Hempty, Habsent. done.
  - rewrite Hc. apply Map_get_set_eq.
  - intros k Hk. rewrite Hc. by apply Map_get_set_ne.
  - intros Hopen. rewrite Hsent. unfold written. by rewrite decide_True.
  - intros Hne.
    assert (Hkeep : Map_get (VStr "") (clients s') = Map_get (VStr "") (clients s)).
    { rewrite Hc. apply Map_get_set_ne. intros Heq. inversion Heq. by apply Hne. }
    split; [done|]. intros Hnone. apply Map_get_None. by rewrite Hkeep.
Qed.

Lemma C9_empty_clientId_witness :
  let s' := step example_clock example_uuid example_state
              (MessageEvent 2 (Parses (PObject empty_clientId_message))) in
  s' = step example_clock example_uuid example_state
         (MessageEvent 2 (Parses (PObject no_clientId_message))) /\
  Map_get (VStr "u") (clients s') = Some (mkClient (VStr "u") 2 client None) /\
  sent_from example_state s' = [(2, AuthSuccess 1004 (VStr "u"))] /\
  VStr "" ∉ Map_keys (clients s').
Proof.
  destruct (C9_empty_clientId example_clock example_uuid example_state 2
              empty_clientId_message no_clientId_message
              eq_refl eq_refl eq_refl eq_refl)
    as (Hsame & _ & Hget & _ & _ & _ & Hsent & Hkey).
  split; [exact Hsame|]. split; [exact Hget|]. split; [exact (Hsent eq_refl)|].
  destruct (Hkey (example_uuid_nonempty 0)) as [_ Hout]. exact (Hout eq_refl).
Defined.

(** ** The Device invariant *)

Lemma filter_at_key {V} (P : value * V -> Prop) `{!forall e, Decision (P e)}
    (k0 : value) (m : list (value * V)) :
  NoDup (Map_keys m) ->
  (forall k v, (k, v) ∈ m -> P (k, v) -> k = k0) ->
  filter P m = match Map_get k0 m with
               | Some v => if decide (P (k0, v)) then [(k0, v)] else []
               | None => []
               end.
Proof.
  unfold Map_keys. induction m as [|[k v] m IH]; simpl; intros Hnd HP; [done|].
  apply NoDup_cons in Hnd as [Hk Hnd].
  assert (HP' : forall k' v', (k', v') ∈ m -> P (k', v') -> k' = k0).
  { intros k' v' Hin. apply HP. apply elem_of_cons. by right. }
  rewrite filter_cons, (IH Hnd HP').
  destruct (decide (k = k0)) as [->|Hne].
  - assert (Hnone : Map_get k0 m = None) by (by apply Map_get_None).
    rewrite Hnone. done.
  - rewrite decide_False; [done|].
    intros HPk. apply Hne. apply (HP k v); [apply elem_of_cons; by left | done].
Qed.

(** In a consistent state, a device has exactly one owner when a host is
    registered under its id. *)
Lemma one_owner s d :
  consistent s ->
  length (filter (owns d) (clients s)) = 1 <->
  exists c, Map_get (deviceId d) (clients s) = Some c /\ client_type c = host.
Proof.
  intros Hs.
  rewrite (filter_at_key (owns d) (deviceId d) (clients s) (clients_NoDup s Hs)).
  - destruct (Map_get (deviceId d) (clients s)) as [c|] eqn:Hc.
    + destruct (decide (owns d (deviceId d, c))) as [[Hh _]|Hno]; simpl.
      * split; [intros _; by exists c | done].
      * split; [done|]. intros (c' & Heq & Hh). inversion Heq; subst c'.
        exfalso. apply Hno. split; [done|]. simpl.
        apply (clients_key s Hs). by apply Map_get_Some.
    + split; [done | intros (c' & Heq & _); done].
  - intros k c Hin [_ Hid]. simpl in Hid. rewrite <- Hid.
    symmetry. by apply (clients_key s Hs).
Qed.

Lemma Device_invariant_hosted s :
  consistent s -> Device_invariant s <-> hosted s.
Proof.
  intros Hs. unfold Device_invariant, hosted. split; intros H k r Hin.
  - destruct (H k r Hin) as [_ Hone]. apply (one_owner s _ Hs) in Hone.
    by rewrite (devices_key s Hs k r Hin) in Hone.
  - split; [by apply (devices_online s Hs k)|]. apply (one_owner s _ Hs).
    rewrite (devices_key s Hs k r Hin). by apply (H k r).
Qed.

Section Takeover.
Variable clock : nat -> Z.
Variable uuid : nat -> string.

Lemma hosted_same_registry s s' : same_registry s s' -> hosted s -> hosted s'.
Proof. intros (Hc & Hd & _) H. unfold hosted. by rewrite Hc, Hd. Qed.

Lemma hosted_handleRegisterHost ws m s :
  consistent s -> hosted s -> hosted (exec (handleRegisterHost clock ws m) s).
Proof.
  intros Hs H. unfold exec. rewrite handleRegisterHost_eq.
  destruct (_ && _); simpl; intros k r Hin; simpl in *;
    (apply elem_of_Map_set in Hin as [[-> ->]|[Hne Hin]];
       [| |apply (devices_NoDup s Hs)];
     [eexists; split; [apply Map_get_set_eq | done]
     |rewrite Map_get_set_ne by done; by apply (H k r)]).
Qed.

Lemma hosted_handleRegisterClient ws m s :
  hosted s ->
  Map_get (if truthy (prop m "clientId") then prop m "clientId"
           else VStr (uuid (uuid_calls s))) (devices s) = None ->
  hosted (exec (handleRegisterClient clock uuid ws m) s).
Proof.
  intros H Hfree. unfold exec. rewrite handleRegisterClient_eq.
  destruct (printable _); simpl; intros k r Hin; simpl in *;
    (rewrite Map_get_set_ne; [by apply (H k r)|];
     intros ->; apply Map_get_None in Hfree; apply Hfree;
     destruct (truthy (prop m "clientId")); by apply (elem_of_Map_keys _ _ r)).
Qed.

Lemma handleDisconnect_devices ws s id c :
  consistent s ->
  first_on ws (clients s) = Some (id, c) ->
  printable id = true ->
  devices (exec (handleDisconnect clock ws) s) =
  match client_type c with
  | host => Map_delete id (devices s)
  | client => devices s
  end.
Proof.
  intros Hs Hf Hp. unfold exec. rewrite handleDisconnect_eq, Hf.
  apply first_on_Some in Hf as [Hin _].
  destruct (client_type c) eqn:Ht.
  - destruct (hosts_device s Hs id c Hin Ht) as (r & Hr & _).
    by destruct (disconnect_entry_host clock id c r s Hp Ht Hr) as (_ & _ & Ed & _).
  - by rewrite disconnect_entry_other by (done || by left).
Qed.

Lemma hosted_handleDisconnect ws s :
  consistent s -> hosted s -> hosted (exec (handleDisconnect clock ws) s).
Proof.
  intros Hs H.
  destruct (first_on ws (clients s)) as [[id c]|] eqn:Hf.
  - destruct (printable id) eqn:Hp;
      [|unfold exec; by rewrite (handleDisconnect_throws clock ws s id c Hf Hp)].
    intros k r Hk.
    rewrite handleDisconnect_clients, Hf, Hp.
    rewrite (handleDisconnect_devices ws s id c Hs Hf Hp) in Hk.
    apply first_on_Some in Hf as [Hin _].
    assert (Hne : k <> id /\ (k, r) ∈ devices s).
    { destruct (client_type c) eqn:Ht.
      - apply elem_of_Map_delete in Hk; [done | apply (devices_NoDup s Hs)].
      - split; [|done]. intros ->.
        destruct (H id r Hk) as (c0 & Hc0 & Hh).
        rewrite (Map_get_elem_of _ _ _ (clients_NoDup s Hs) Hin) in Hc0.
        inversion Hc0; subst c0. congruence. }
    destruct Hne as [Hne Hk']. rewrite Map_get_delete_ne by done.
    by apply (H k r).
  - unfold exec. by rewrite (handleDisconnect_absent clock ws s Hf).
Qed.

Lemma hosted_caught ws r : hosted (snd r) -> hosted (caught clock ws r).
Proof.
  apply hosted_same_registry, caught_same_registry. by repeat split.
Qed.

Lemma hosted_step s e :
  consistent s -> hosted s -> ~ client_takeover uuid s e ->
  hosted (step clock uuid s e).
Proof.
  intros Hs H Hno. destruct e as [ws|ws [|[| |m]]|ws].
  - eapply hosted_same_registry; [|done]. by repeat split.
  - rewrite step_MessageEvent. unfold exec. rewrite on_message_Unparsable, sendError_eq.
    eapply hosted_same_registry; [|done]. by repeat split.
  - rewrite step_MessageEvent. unfold exec. rewrite on_message_PNull, sendError_eq.
    eapply hosted_same_registry; [|done]. by repeat split.
  - by rewrite step_MessageEvent.
  - rewrite step_MessageEvent_PObject. apply hosted_caught. unfold dispatch.
    destruct (case_label (prop m "type")) as [[]|] eqn:Hlabel; try done.
    + by apply hosted_handleRegisterHost.
    + apply hosted_handleRegisterClient; [done|].
      destruct (Map_get _ (devices s)) eqn:Hfree; [|done].
      exfalso. apply Hno. exists ws, m. split; [done|]. split; [done|].
      by rewrite Hfree.
    + rewrite handleGetDevices_eq.
      eapply hosted_same_registry; [|done]. by repeat split.
    + eapply hosted_same_registry; [|done].
      apply handleConnectRequest_same_registry.
    + rewrite handleOffer_eq.
      eapply hosted_same_registry; [apply relay_same_registry|done].
    + rewrite handleAnswer_eq.
      eapply hosted_same_registry; [apply relay_same_registry|done].
    + rewrite handleIceCandidate_eq.
      eapply hosted_same_registry; [apply relay_same_registry|done].
    + by apply hosted_handleDisconnect.
  - rewrite step_CloseEvent. apply hosted_handleDisconnect.
    + eapply consistent_same_registry; [|done]. by repeat split.
    + eapply hosted_same_registry; [|done]. by repeat split.
Qed.

(** The Device invariant holds at the start and is kept by every event
    that is not a client registering an id a device is stored under. *)
Lemma Device_invariant_initial : Device_invariant initial.
Proof. intros k r Hin. by apply elem_of_nil in Hin. Qed.

Lemma Device_invariant_step s e :
  consistent s -> Device_invariant s -> ~ client_takeover uuid s e ->
  Device_invariant (step clock uuid s e).
Proof.
  intros Hs H Hno.
  apply Device_invariant_hosted; [by apply consistent_step|].
  apply hosted_step; [done| |done]. by apply Device_invariant_hosted.
Qed.

(** So the invariant holds along every run in which no client registers an
    id a device is stored under. *)
Lemma Device_invariant_run events :
  (forall before e after, events = before ++ e :: after ->
     ~ client_takeover uuid (run clock uuid initial before) e) ->
  Device_invariant (run clock uuid initial events).
Proof.
  induction events as [|e events IH] using rev_ind; intros Hno.
  - apply Device_invariant_initial.
  - rewrite run_snoc. apply Device_invariant_step.
    + apply consistent_run, consistent_initial.
    + apply IH. intros before e' after ->. apply (Hno before e' (after ++ [e])).
      by rewrite <- app_assoc.
    + apply (Hno events e []). done.
Qed.
End Takeover.

(** C1 fails on a takeover by a client. Host "h1" registers on socket 1,
    then socket 2 registers as client "h1": [handleRegisterClient] replaces
    the participant and leaves the host's device in [devices], online, with
    no host of that id registered.  The device stays listed after both
    sockets closed. *)
Theorem C1_client_takeover_leaves_device :
  reachable example_clock example_uuid takeover_state /\
  ~ Device_invariant takeover_state /\
  (exists r, Map_get (VStr "h1") (devices takeover_state) = Some r /\
             online (heap takeover_state r) = true) /\
  Map_get (VStr "h1") (clients takeover_state)
    = Some (mkClient (VStr "h1") 2 client None) /\
  devices (run example_clock example_uuid takeover_state
             [CloseEvent 1; CloseEvent 2])
    = devices takeover_state.
Proof.
  split; [apply takeover_state_reachable|]. split.
  - intros H. destruct (H (VStr "h1") 0) as [_ Hone].
    + vm_compute. constructor.
    + vm_compute in Hone. discriminate.
  - split; [exists 0|]; vm_compute; by repeat split.
Qed.
(** * Further properties of the server *)

(** ** The switch on the message type *)

Lemma case_label_Some v t :
  case_label v = Some t -> v = VStr (MessageType_value t).
Proof.
  destruct v; try discriminate. unfold case_label. intros H.
  apply find_some in H as [_ H]. apply String.eqb_eq in H. by subst.
Qed.

(** The sixteen strings of the enum are pairwise distinct and a [case]
    label is selected by exactly its own string: no other string, and no
    value that is not a string, selects it. *)
Theorem case_label_exact v t :
  case_label v = Some t <-> v = VStr (MessageType_value t).
Proof.
  split; [apply case_label_Some|]. intros ->. by destruct t.
Qed.

Lemma case_label_unhandled m :
  (forall t, handled t = true -> prop m "type" <> VStr (MessageType_value t)) ->
  match case_label (prop m "type") with
  | Some t => handled t = false
  | None => True
  end.
Proof.
  intros H. destruct (case_label (prop m "type")) as [t|] eqn:E; [|done].
  apply case_label_Some in E.
  destruct (handled t) eqn:Ht; [|done]. by destruct (H t Ht).
Qed.

Section Default_case.
Variable clock : nat -> Z.
Variable uuid : nat -> string.

(** A frame that parses to a value without [type], or to an object whose
    [type] is not one of the eight handled strings (a message type of the
    server's own replies included), is ignored: nothing is written, no clock
    is read, the state is the one before. *)
Theorem default_case_ignored s ws p :
  selects_default p ->
  step clock uuid s (MessageEvent ws (Parses p)) = s.
Proof.
  destruct p as [| |m]; [done|intros _; apply step_MessageEvent|].
  intros H. simpl in H.
  rewrite step_MessageEvent_PObject. unfold dispatch.
  pose proof (case_label_unhandled m H) as Hl.
  destruct (case_label (prop m "type")) as [[]|]; try done.
Qed.
End Default_case.

Lemma default_case_ignored_witness :
  step example_clock example_uuid example_state
    (MessageEvent 2 (Parses (PObject forged_list_message))) = example_state.
Proof.
  apply default_case_ignored. intros t Ht. by destruct t.
Defined.

(** ** GET_DEVICES *)

Section Get_devices.
Variable clock : nat -> Z.
Variable uuid : nat -> string.

(** GET_DEVICES from an open socket is answered with exactly one
    DEVICE_LIST, to the requester only, and changes nothing in the registry.
    In a reachable state the list has one device per key of the [devices] map,
    in the map's order, under pairwise distinct ids, each with
    [online = true]. *)
Theorem get_devices_reply s ws m :
  reachable clock uuid s ->
  case_label (prop m "type") = Some GET_DEVICES ->
  readyState s ws = OPEN ->
  let s' := step clock uuid s (MessageEvent ws (Parses (PObject m))) in
  sent_from s s' = [(ws, DeviceList (clock (date_calls s)) (listed s))] /\
  same_registry s s' /\
  map deviceId (listed s) = Map_keys (devices s) /\
  NoDup (map deviceId (listed s)) /\
  Forall (fun d => online d = true) (listed s).
Proof.
  intros Hreach Hlabel Hopen s'.
  pose proof (reachable_consistent clock uuid s Hreach) as Hs.
  subst s'. rewrite (step_label clock uuid ws m s GET_DEVICES Hlabel).
  rewrite handleGetDevices_eq, caught_Normal. simpl.
  pose proof (listed_ids s (devices_key s Hs)) as Hids.
  split; [|split; [by repeat split|split; [done|split]]].
  - apply sent_from_wire. simpl. unfold written. by rewrite decide_True.
  - rewrite Hids. apply (devices_NoDup s Hs).
  - apply Forall_forall. intros d Hd.
    apply elem_of_listed in Hd as (k & r & Hin & ->).
    by apply (devices_online s Hs k).
Qed.

(** In a reachable state every participant of role host is in the list a
    GET_DEVICES is answered with, under its id and with [online = true]. *)
Theorem registered_host_is_listed s k c ws m :
  reachable clock uuid s ->
  (k, c) ∈ clients s -> client_type c = host ->
  case_label (prop m "type") = Some GET_DEVICES ->
  readyState s ws = OPEN ->
  exists t ds d,
    sent_from s (step clock uuid s (MessageEvent ws (Parses (PObject m))))
      = [(ws, DeviceList t ds)] /\
    d ∈ ds /\ deviceId d = k /\ online d = true.
Proof.
  intros Hreach Hin Hh Hlabel Hopen.
  pose proof (reachable_consistent clock uuid s Hreach) as Hs.
  destruct (hosts_device s Hs k c Hin Hh) as (r & _ & Hr).
  exists (clock (date_calls s)), (listed s), (heap s r).
  split; [|split; [|split]].
  - rewrite (step_label clock uuid ws m s GET_DEVICES Hlabel).
    rewrite handleGetDevices_eq, caught_Normal.
    apply sent_from_wire. simpl. unfold written. by rewrite decide_True.
  - apply elem_of_listed. by exists k, r.
  - by apply (devices_key s Hs).
  - by apply (devices_online s Hs k).
Qed.
End Get_devices.

Lemma get_devices_reply_witness :
  sent_from example_state
    (step example_clock example_uuid example_state
       (MessageEvent 2 (Parses (PObject get_devices_message)))) =
  [(2, DeviceList 1004
         [mkDevice (VStr "h1") (VStr "Office-PC") (VStr "macos") true 1000])].
Proof.
  destruct (get_devices_reply example_clock example_uuid example_state 2
              get_devices_message example_state_reachable
              eq_refl eq_refl) as [H _].
  rewrite H. vm_compute. reflexivity.
Defined.

Lemma registered_host_is_listed_witness :
  exists t ds d,
    sent_from example_state
      (step example_clock example_uuid example_state
         (MessageEvent 2 (Parses (PObject get_devices_message))))
      = [(2, DeviceList t ds)] /\
    d ∈ ds /\ deviceId d = VStr "h1" /\ online d = true.
Proof.
  apply (registered_host_is_listed example_clock example_uuid example_state
           (VStr "h1") (mkClient (VStr "h1") 1 host (Some 0)) 2
           get_devices_message example_state_reachable).
  - vm_compute. constructor.
  - reflexivity.
  - reflexivity.
  - reflexivity.
Defined.

(** ** Registration, seen from the maps *)

Section Registration.
Variable clock : nat -> Z.
Variable uuid : nat -> string.

(** What a registration writes in the maps, whether or not its log line
    throws afterwards. *)
Lemma register_maps s ws m label :
  case_label (prop m "type") = Some label ->
  label = REGISTER_HOST \/ label = REGISTER_CLIENT ->
  let s1 := step clock uuid s (MessageEvent ws (Parses (PObject m))) in
  let id := registered_id uuid s label m in
  exists device,
    clients s1 = Map_set id (mkClient id ws (role_of label) device) (clients s) /\
    devices s1 = match label with
                 | REGISTER_HOST => Map_set id (next_ref s) (devices s)
                 | _ => devices s
                 end /\
    readyState s1 = readyState s /\
    (forall r, r < next_ref s -> heap s1 r = heap s r).
Proof.
  intros Hlabel Hreg s1 id. subst s1 id.
  rewrite (step_label clock uuid ws m s label Hlabel).
  destruct Hreg as [-> | ->].
  - rewrite handleRegisterHost_eq. simpl.
    destruct (_ && _); [rewrite caught_Normal | rewrite caught_Throw]; simpl;
      eexists; repeat split; intros r Hr; (rewrite decide_False; [done | lia]).
  - rewrite handleRegisterClient_eq. simpl.
    destruct (truthy (prop m "clientId")); simpl;
      try destruct (printable (prop m "clientId"));
      try rewrite caught_Normal; try rewrite caught_Throw;
      simpl; eexists; by repeat split.
Qed.

(** REGISTER_HOST announces the device when its name and id can be
    converted to a string: AUTH_SUCCESS to the registering socket when it is
    open, then one DEVICE_ONLINE to each participant of role client whose
    socket is open, in the order of the map, carrying the new device with the
    fields of the message, [online = true] and [lastSeen] the first reading
    of the clock.  When one of them cannot, the registering socket is sent
    the error of the listener's [catch] and nobody else anything.  Either way
    the device is in the list a GET_DEVICES is answered with from then on. *)
Theorem register_host_announces s ws m :
  case_label (prop m "type") = Some REGISTER_HOST ->
  let s' := step clock uuid s (MessageEvent ws (Parses (PObject m))) in
  let id := prop m "deviceId" in
  let d := mkDevice id (prop m "deviceName") (prop m "platform") true
                    (clock (date_calls s)) in
  sent_from s s' =
    (if printable (prop m "deviceName") && printable id
     then written s ws (AuthSuccess (clock (1 + date_calls s)) id) ++
          map (fun c => (client_ws c,
                         DeviceStatus DEVICE_ONLINE (clock (2 + date_calls s)) d))
              (filter (listening s) (Map_values (clients s')))
     else written s ws (ErrorMessage (clock (1 + date_calls s))
                          "Invalid message format" VUndefined)) /\
  (forall k c, (k, c) ∈ clients s' -> client_type c = client -> (k, c) ∈ clients s) /\
  d ∈ listed s'.
Proof.
  intros Hlabel s' id d. subst s'.
  rewrite (step_label clock uuid ws m s REGISTER_HOST Hlabel).
  rewrite handleRegisterHost_eq. fold id.
  destruct (printable (prop m "deviceName") && printable id);
    [rewrite caught_Normal | rewrite caught_Throw]; simpl;
    (split; [by apply sent_from_wire|]; split;
     [intros k c Hin Hc; by apply elem_of_Map_set_inv in Hin as [[_ ->]|Hin]
     |apply elem_of_listed; exists id, (next_ref s); simpl; split;
      [apply Map_get_Some, Map_get_set_eq | by rewrite decide_True]]).
Qed.

(** A registration is last writer wins, in place: an id already in the
    participant map keeps its position in the map's order and gets the new
    participant, a new id goes last, and what is stored under every other id
    stays; the same holds for the [devices] map on REGISTER_HOST, and
    REGISTER_CLIENT leaves that map alone. *)
Theorem registration_in_place s ws m label :
  case_label (prop m "type") = Some label ->
  label = REGISTER_HOST \/ label = REGISTER_CLIENT ->
  let s' := step clock uuid s (MessageEvent ws (Parses (PObject m))) in
  let id := registered_id uuid s label m in
  (exists device,
     Map_get id (clients s') = Some (mkClient id ws (role_of label) device)) /\
  Map_keys (clients s') =
    (if decide (id ∈ Map_keys (clients s)) then Map_keys (clients s)
     else Map_keys (clients s) ++ [id]) /\
  (forall k, k <> id -> Map_get k (clients s') = Map_get k (clients s)) /\
  match label with
  | REGISTER_HOST =>
      Map_keys (devices s') =
        (if decide (id ∈ Map_keys (devices s)) then Map_keys (devices s)
         else Map_keys (devices s) ++ [id]) /\
      (forall k, k <> id -> Map_get k (devices s') = Map_get k (devices s))
  | _ => devices s' = devices s
  end.
Proof.
  intros Hlabel Hreg s' id.
  destruct (register_maps s ws m label Hlabel Hreg) as (device & Hc & Hd & _).
  fold s' id in Hc, Hd.
  assert (Hkeys : forall V (x : V) (l : list (value * V)),
            Map_keys (Map_set id x l) =
            if decide (id ∈ Map_keys l) then Map_keys l else Map_keys l ++ [id]).
  { intros V x l. destruct (decide (id ∈ Map_keys l)) as [Hin|Hnin].
    - by apply Map_keys_set_present.
    - rewrite Map_set_fresh by done. unfold Map_keys. by rewrite map_app. }
  split; [|split; [|split]].
  - exists device. rewrite Hc. apply Map_get_set_eq.
  - rewrite Hc. apply Hkeys.
  - intros k Hk. rewrite Hc. by apply Map_get_set_ne.
  - destruct Hreg as [-> | ->]; [|done]. rewrite Hd. split; [apply Hkeys|].
    intros k Hk. by apply Map_get_set_ne.
Qed.

(** Register, then connect: once a host registered on an open socket,
    under an id that is not an object and a name that can be converted to a
    string, a CONNECT_REQUEST for that id from an open socket, with a
    [clientId] that can be converted to a string, is forwarded to the host's
    socket and accepted. *)
Theorem register_then_connect s ws_h m_h ws_c m_c :
  case_label (prop m_h "type") = Some REGISTER_HOST ->
  case_label (prop m_c "type") = Some CONNECT_REQUEST ->
  is_object (prop m_h "deviceId") = false ->
  printable (prop m_h "deviceName") = true ->
  printable (prop m_c "clientId") = true ->
  prop m_c "targetDeviceId" = prop m_h "deviceId" ->
  readyState s ws_h = OPEN -> readyState s ws_c = OPEN ->
  let s1 := step clock uuid s (MessageEvent ws_h (Parses (PObject m_h))) in
  let s2 := step clock uuid s1 (MessageEvent ws_c (Parses (PObject m_c))) in
  sent_from s1 s2 =
  [(ws_h, ConnectRequest (clock (3 + date_calls s)) (prop m_h "deviceId")
            (prop m_c "clientId"));
   (ws_c, ConnectionAccepted (clock (4 + date_calls s)) (prop m_h "deviceId"))].
Proof.
  intros Hlh Hlc Hprim Hname Hclient Htarget Hoh Hoc s1 s2.
  assert (Hid : printable (prop m_h "deviceId") = true)
    by (by destruct (prop m_h "deviceId")).
  destruct (register_maps s ws_h m_h REGISTER_HOST Hlh (or_introl eq_refl))
    as (device & Hc & _ & Hrs & _).
  fold s1 in Hc, Hrs. simpl in Hc.
  assert (Hdc : date_calls s1 = 3 + date_calls s).
  { unfold s1. rewrite (step_label clock uuid ws_h m_h s REGISTER_HOST Hlh).
    by rewrite handleRegisterHost_eq, Hname, Hid. }
  subst s2. rewrite (step_label clock uuid ws_c m_c s1 CONNECT_REQUEST Hlc).
  rewrite (handleConnectRequest_hit clock ws_c m_c s1
             (mkClient (prop m_h "deviceId") ws_h host device)).
  - rewrite Hclient, Htarget, Hid. simpl. rewrite caught_Normal.
    apply sent_from_wire. simpl. unfold written.
    rewrite Hrs, !decide_True, Hdc by done. done.
  - rewrite Htarget, Hc. apply Map_get_set_eq.
  - done.
Qed.
End Registration.

Lemma register_host_announces_witness :
  sent_from example_state
    (step example_clock example_uuid example_state
       (MessageEvent 1 (Parses (PObject (register_host_message "h2"))))) =
  [(1, AuthSuccess 1005 (VStr "h2"));
   (2, DeviceStatus DEVICE_ONLINE 1006
         (mkDevice (VStr "h2") (VStr "Office-PC") (VStr "macos") true 1004))] /\
  sent_from example_state
    (step example_clock example_uuid example_state
       (MessageEvent 1 (Parses (PObject unprintable_name_message)))) =
  [(1, ErrorMessage 1005 "Invalid message format" VUndefined)].
Proof.
  split.
  - destruct (register_host_announces example_clock example_uuid example_state 1
                (register_host_message "h2") eq_refl) as [H _].
    rewrite H. vm_compute. reflexivity.
  - destruct (register_host_announces example_clock example_uuid example_state 1
                unprintable_name_message eq_refl) as [H _].
    rewrite H. vm_compute. reflexivity.
Defined.

Lemma registration_in_place_witness :
  let s' := step example_clock example_uuid example_state
              (MessageEvent 2 (Parses (PObject (register_host_message "h1")))) in
  Map_keys (clients s') = [VStr "h1"; VStr "c1"] /\
  Map_keys (devices s') = [VStr "h1"].
Proof.
  intros s'.
  destruct (registration_in_place example_clock example_uuid example_state 2
              (register_host_message "h1") REGISTER_HOST eq_refl
              (or_introl eq_refl)) as (_ & Hc & _ & Hd & _).
  fold s' in Hc, Hd. rewrite Hc, Hd. vm_compute. by split.
Defined.

Lemma register_then_connect_witness :
  let s1 := step example_clock example_uuid example_state
              (MessageEvent 1 (Parses (PObject (register_host_message "h2")))) in
  sent_from s1
    (step example_clock example_uuid s1
       (MessageEvent 2 (Parses (PObject (connect_request_message "h2" "c1"))))) =
  [(1, ConnectRequest 1007 (VStr "h2") (VStr "c1"));
   (2, ConnectionAccepted 1008 (VStr "h2"))].
Proof.
  exact (register_then_connect example_clock example_uuid example_state
           1 (register_host_message "h2") 2 (connect_request_message "h2" "c1")
           eq_refl eq_refl eq_refl eq_refl eq_refl eq_refl eq_refl eq_refl).
Defined.

(** ** Registration and disconnect together *)

Lemma first_on_app_last ws m id c :
  first_on ws m = None -> client_ws c = ws ->
  first_on ws (m ++ [(id, c)]) = Some (id, c).
Proof.
  unfold first_on. intros Hnone Hws.
  induction m as [|[k v] m IH]; simpl in *.
  - by rewrite bool_decide_eq_true_2.
  - destruct (bool_decide (client_ws v = ws)); [done | by apply IH].
Qed.

Section Register_disconnect.
Variable clock : nat -> Z.
Variable uuid : nat -> string.

(** Register, then disconnect: a socket that no participant is on registers
    an id that is in neither map and can be converted to a string, as host or
    as client, and then closes or sends DISCONNECT; the disconnect path
    completes and both maps are again what they were before the
    registration. *)
Theorem register_then_disconnect s ws m label e :
  reachable clock uuid s ->
  case_label (prop m "type") = Some label ->
  label = REGISTER_HOST \/ label = REGISTER_CLIENT ->
  entries_on ws (clients s) = [] ->
  registered_id uuid s label m ∉ Map_keys (clients s) ->
  registered_id uuid s label m ∉ Map_keys (devices s) ->
  printable (registered_id uuid s label m) = true ->
  disconnects ws e ->
  let s1 := step clock uuid s (MessageEvent ws (Parses (PObject m))) in
  let s2 := step clock uuid s1 e in
  clients s2 = clients s /\ devices s2 = devices s /\
  uncaught clock uuid s1 e = false.
Proof.
  intros Hreach Hlabel Hreg Hnone Hfc Hfd Hp He s1 s2.
  set (id := registered_id uuid s label m) in *.
  destruct (register_maps clock uuid s ws m label Hlabel Hreg)
    as (device & Hc & Hd & _).
  fold s1 id in Hc, Hd.
  rewrite Map_set_fresh in Hc by done.
  pose proof (reachable_consistent clock uuid s Hreach) as Hs.
  pose proof (consistent_step clock uuid s
                (MessageEvent ws (Parses (PObject m))) Hs) as Hs1.
  fold s1 in Hs1.
  destruct (at_disconnect_same e s1) as (Hsame & _).
  pose proof (consistent_same_registry _ _ Hsame Hs1) as Hs0.
  destruct Hsame as (Hc0 & Hd0 & _).
  set (s0 := at_disconnect e s1) in *.
  assert (Hf : first_on ws (clients s0)
               = Some (id, mkClient id ws (role_of label) device)).
  { rewrite Hc0, Hc. apply first_on_app_last; [by apply entries_on_nil | done]. }
  assert (Hn : fst (handleDisconnect clock ws s0) = Normal)
    by (by rewrite handleDisconnect_completion, Hf, Hp).
  unfold s2. rewrite (step_disconnects_Normal clock uuid ws e s1 He Hn). fold s0.
  split; [|split].
  - rewrite handleDisconnect_clients, Hf, Hp, Hc0, Hc. by apply Map_delete_last.
  - rewrite (handleDisconnect_devices clock ws s0 _ _ Hs0 Hf Hp). simpl.
    rewrite Hd0, Hd. destruct Hreg as [-> | ->]; simpl; [|done].
    rewrite Map_set_fresh by done. by apply Map_delete_last.
  - destruct (uncaught clock uuid s1 e) eqn:Hu; [|done].
    destruct (uncaught_disconnects clock uuid ws e s1 He Hu)
      as (-> & id' & c' & Hf' & Hp').
    rewrite <- Hc0, Hf in Hf'. inversion Hf'; subst id'. congruence.
Qed.

(** A participant of role client leaves in silence: when the first entry on
    the socket is a client whose id can be converted to a string, the
    disconnect path writes nothing to anyone, reads no clock, and removes
    that entry from the participant map only. *)
Theorem client_disconnect_silent s ws e id c :
  disconnects ws e ->
  first_on ws (clients s) = Some (id, c) ->
  client_type c = client ->
  printable id = true ->
  let s' := step clock uuid s e in
  sent_from s s' = [] /\
  clients s' = Map_delete id (clients s) /\
  devices s' = devices s /\ heap s' = heap s /\
  date_calls s' = date_calls s.
Proof.
  intros He Hf Hc Hp s'. subst s'.
  destruct (at_disconnect_same e s) as ((Hc0 & Hd0 & Hh0 & _) & Hw & Hdc & _).
  set (s0 := at_disconnect e s) in *.
  assert (Hn : fst (handleDisconnect clock ws s0) = Normal)
    by (by rewrite handleDisconnect_completion, Hc0, Hf, Hp).
  rewrite (step_disconnects_Normal clock uuid ws e s He Hn). fold s0.
  unfold exec. rewrite handleDisconnect_eq, Hc0, Hf.
  rewrite disconnect_entry_other by (done || by left). simpl.
  rewrite Hc0, Hd0, Hh0, Hdc. split; [|done].
  unfold sent_from. simpl. rewrite Hw. apply drop_all.
Qed.

(** Takeover, then the evicted socket closes: when the only participant
    on a socket is replaced by a registration of its id from another socket,
    the disconnect path for the first socket finds nothing: it writes nothing
    and the new participant stays registered. *)
Theorem takeover_then_old_disconnect s ws_old c_old ws_new m label e :
  reachable clock uuid s ->
  case_label (prop m "type") = Some label ->
  label = REGISTER_HOST \/ label = REGISTER_CLIENT ->
  entries_on ws_old (clients s) = [(registered_id uuid s label m, c_old)] ->
  ws_new <> ws_old ->
  disconnects ws_old e ->
  let id := registered_id uuid s label m in
  let s1 := step clock uuid s (MessageEvent ws_new (Parses (PObject m))) in
  let s2 := step clock uuid s1 e in
  sent_from s1 s2 = [] /\ same_registry s1 s2 /\
  exists device,
    Map_get id (clients s2) = Some (mkClient id ws_new (role_of label) device).
Proof.
  intros Hreach Hlabel Hreg Hold Hne He id s1 s2.
  destruct (register_maps clock uuid s ws_new m label Hlabel Hreg)
    as (device & Hc & _).
  fold s1 id in Hc.
  pose proof (reachable_consistent clock uuid s Hreach) as Hs.
  destruct (at_disconnect_same e s1) as ((Hc0 & Hd0 & Hh0 & Hn0) & Hw & _).
  assert (Hnone : first_on ws_old (clients (at_disconnect e s1)) = None).
  { rewrite Hc0, Hc. apply first_on_None. intros k c Hin Hws.
    apply elem_of_Map_set in Hin as [[_ ->]|[Hk Hin]];
      [by apply Hne | | apply (clients_NoDup s Hs)].
    assert (Hin' : (k, c) ∈ entries_on ws_old (clients s))
      by (by apply list_elem_of_filter).
    rewrite Hold in Hin'. apply list_elem_of_singleton in Hin'.
    inversion Hin'. by apply Hk. }
  assert (Hn : fst (handleDisconnect clock ws_old (at_disconnect e s1)) = Normal)
    by (by rewrite (handleDisconnect_absent clock ws_old _ Hnone)).
  unfold s2. rewrite (step_disconnects_Normal clock uuid ws_old e s1 He Hn).
  unfold exec. rewrite (handleDisconnect_absent clock ws_old _ Hnone). simpl.
  split; [|split; [by repeat split|]].
  - unfold sent_from. rewrite Hw. apply drop_all.
  - exists device. rewrite Hc0, Hc. apply Map_get_set_eq.
Qed.
End Register_disconnect.

Lemma register_then_disconnect_witness :
  let s1 := step example_clock example_uuid example_state
              (MessageEvent 3 (Parses (PObject (register_host_message "h2")))) in
  let s2 := step example_clock example_uuid s1 (CloseEvent 3) in
  clients s2 = clients example_state /\ devices s2 = devices example_state /\
  uncaught example_clock example_uuid s1 (CloseEvent 3) = false.
Proof.
  apply (register_then_disconnect example_clock example_uuid example_state 3
           (register_host_message "h2") REGISTER_HOST (CloseEvent 3)
           example_state_reachable eq_refl (or_introl eq_refl)).
  - vm_compute. reflexivity.
  - vm_compute. intros H. inversion H as [|? ? ? H1]; subst.
    inversion H1 as [|? ? ? H2]; subst. inversion H2.
  - vm_compute. intros H. inversion H as [|? ? ? H1]; subst. inversion H1.
  - reflexivity.
  - by left.
Defined.

Lemma client_disconnect_silent_witness :
  let s' := step example_clock example_uuid example_state (CloseEvent 2) in
  sent_from example_state s' = [] /\
  clients s' = Map_delete (VStr "c1") (clients example_state) /\
  devices s' = devices example_state /\ heap s' = heap example_state /\
  date_calls s' = date_calls example_state.
Proof.
  apply (client_disconnect_silent example_clock example_uuid example_state 2
           (CloseEvent 2) (VStr "c1") (mkClient (VStr "c1") 2 client None)).
  - by left.
  - vm_compute. reflexivity.
  - reflexivity.
  - reflexivity.
Defined.

Lemma takeover_then_old_disconnect_witness :
  let s1 := step example_clock example_uuid example_state
              (MessageEvent 3 (Parses (PObject (register_host_message "h1")))) in
  let s2 := step example_clock example_uuid s1 (CloseEvent 1) in
  sent_from s1 s2 = [] /\ same_registry s1 s2 /\
  exists device,
    Map_get (VStr "h1") (clients s2) = Some (mkClient (VStr "h1") 3 host device).
Proof.
  apply (takeover_then_old_disconnect example_clock example_uuid example_state
           1 (mkClient (VStr "h1") 1 host (Some 0)) 3
           (register_host_message "h1") REGISTER_HOST (CloseEvent 1)
           example_state_reachable eq_refl (or_introl eq_refl)).
  - vm_compute. reflexivity.
  - discriminate.
  - by left.
Defined.



(** ** Who is written to *)

Section Routing.
Variable clock : nat -> Z.
Variable uuid : nat -> string.

(** What the disconnect path writes: nothing, or one DEVICE_OFFLINE
    broadcast stamped with its second reading of the clock. *)
Lemma handleDisconnect_effect ws s :
  let s' := exec (handleDisconnect clock ws) s in
  readyState s' = readyState s /\ uuid_calls s' = uuid_calls s /\
  ((wire s' = wire s /\ date_calls s' = date_calls s) \/
   (exists d, date_calls s' = 2 + date_calls s /\
      wire s' = wire s ++ broadcast_frames s
                  (DeviceStatus DEVICE_OFFLINE (clock (1 + date_calls s)) d)
                  (Map_values (clients s)))).
Proof.
  unfold exec. rewrite handleDisconnect_eq.
  destruct (first_on ws (clients s)) as [[id c]|]; [|by repeat split; left].
  destruct (printable id) eqn:Hp;
    [|rewrite disconnect_entry_throws by done; by repeat split; left].
  destruct (client_type c) eqn:Ht; destruct (client_device c) as [r|] eqn:Hr;
    try (rewrite disconnect_entry_other by (done || tauto); by repeat split; left).
  destruct (disconnect_entry_host clock id c r s Hp Ht Hr)
    as (_ & _ & _ & _ & _ & Ers & Edc & Euc & Ew & _).
  split; [done|]. split; [done|]. right. eexists. split; [exact Edc | exact Ew].
Qed.

Lemma broadcast_routed s0 s e status t d cs w o :
  readyState s0 = readyState s ->
  (forall c, c ∈ cs -> client_type c = client -> exists k, (k, c) ∈ clients s) ->
  (w, o) ∈ broadcast_frames s0 (DeviceStatus status t d) cs ->
  o = DeviceStatus status t d /\ readyState s w = OPEN /\ routed s e (w, o).
Proof.
  intros Hrs Hcs Hin.
  apply elem_of_broadcast_frames in Hin as (-> & c & Hc & [Ht Ho] & <-).
  rewrite Hrs in Ho. split; [done|]. split; [done|]. simpl.
  destruct (Hcs c Hc Ht) as (k & Hk). by exists k, c.
Qed.

(** The error of the listener's [catch] goes to the socket of the event. *)
Lemma caught_routed ws s r e :
  socket_of e = ws ->
  (readyState (snd r) = readyState s /\
   exists l, wire (snd r) = wire s ++ l /\
     forall w o, (w, o) ∈ l -> readyState s w = OPEN /\ routed s e (w, o)) ->
  readyState (caught clock ws r) = readyState s /\
  forall w o, (w, o) ∈ sent_from s (caught clock ws r) ->
    readyState s w = OPEN /\ routed s e (w, o).
Proof.
  intros He (Hrs & l & Hw & Hl). destruct r as [[] s1]; simpl in *.
  - rewrite caught_Normal. split; [done|]. intros w o Hin.
    rewrite (sent_from_wire _ _ _ Hw) in Hin. by apply Hl.
  - rewrite caught_Throw. simpl. split; [done|]. intros w o Hin.
    rewrite Hw, <- app_assoc in Hin.
    erewrite sent_from_wire in Hin by (simpl; reflexivity).
    apply elem_of_app in Hin as [Hin|Hin]; [by apply Hl|].
    apply elem_of_written in Hin as (-> & -> & Ho). by rewrite Hrs in Ho.
Qed.

Lemma disconnect_routed ws s0 s e :
  same_registry s s0 -> wire s0 = wire s ->
  let s' := exec (handleDisconnect clock ws) s0 in
  readyState s' = readyState s0 /\
  exists l, wire s' = wire s ++ l /\
    forall w o, (w, o) ∈ l -> readyState s0 w = OPEN /\ routed s e (w, o).
Proof.
  intros (Hc & _) Hw s'.
  destruct (handleDisconnect_effect ws s0)
    as (Hrs & _ & [[Hw' _]|(d & _ & Hw')]); fold s' in Hrs, Hw'.
  - split; [done|]. exists []. rewrite app_nil_r, Hw', Hw. split; [done|].
    intros w o Hin. by apply elem_of_nil in Hin.
  - split; [done|]. rewrite Hw in Hw'. eexists. split; [exact Hw'|].
    intros w o Hin.
    assert (Hcs : forall c, c ∈ Map_values (clients s0) -> client_type c = client ->
                    exists k, (k, c) ∈ clients s0).
    { intros c Hcin _. by apply elem_of_Map_values. }
    destruct (broadcast_routed s0 s0 e _ _ _ _ w o eq_refl Hcs Hin)
      as (-> & Ho & Hr).
    split; [done|]. simpl in *. destruct Hr as (k & c & Hk & ?).
    exists k, c. by rewrite <- Hc.
Qed.

Lemma dispatch_routed ws m s :
  let e := MessageEvent ws (Parses (PObject m)) in
  let r := dispatch clock uuid ws m s in
  readyState (snd r) = readyState s /\
  exists l, wire (snd r) = wire s ++ l /\
    forall w o, (w, o) ∈ l -> readyState s w = OPEN /\ routed s e (w, o).
Proof.
  intros e r. subst r. unfold dispatch.
  assert (Hnil : forall s1, readyState s1 = readyState s -> wire s1 = wire s ->
            readyState s1 = readyState s /\
            exists l, wire s1 = wire s ++ l /\
              forall w o, (w, o) ∈ l -> readyState s w = OPEN /\ routed s e (w, o)).
  { intros s1 Hrs Hw. split; [done|]. exists []. rewrite app_nil_r.
    split; [done|]. intros w o Hin. by apply elem_of_nil in Hin. }
  assert (Hrelay : readyState (snd (relay m s)) = readyState s /\
            exists l, wire (snd (relay m s)) = wire s ++ l /\
              forall w o, (w, o) ∈ l -> readyState s w = OPEN /\ routed s e (w, o)).
  { unfold relay. destruct (Map_get (prop m "to") (clients s)) as [c|] eqn:Hc;
      [destruct (_ && _)|]; try by apply Hnil.
    simpl. split; [done|]. eexists. split; [done|]. intros w o Hin.
    apply elem_of_written in Hin as (-> & -> & Ho). split; [done|]. simpl.
    by exists c. }
  destruct (case_label (prop m "type")) as [[]|]; try by apply Hnil.
  - (* REGISTER_HOST *)
    rewrite handleRegisterHost_eq. destruct (_ && _); [|by apply Hnil].
    simpl. split; [done|]. eexists. split; [done|]. intros w o Hin.
    apply elem_of_app in Hin as [Hin|Hin].
    + by apply elem_of_written in Hin as (-> & -> & Ho).
    + eapply proj2, (broadcast_routed s s e _ _ _ _ w o eq_refl); [|done].
      intros c Hc Ht. apply elem_of_Map_values in Hc as (k & Hk).
      apply elem_of_Map_set_inv in Hk as [[_ ->]|Hk]; [done | by exists k].
  - (* REGISTER_CLIENT *)
    rewrite handleRegisterClient_eq. destruct (printable _); [|by apply Hnil].
    simpl. split; [done|]. eexists. split; [done|]. intros w o Hin.
    by apply elem_of_written in Hin as (-> & -> & Ho).
  - (* GET_DEVICES *)
    rewrite handleGetDevices_eq. simpl. split; [done|].
    eexists. split; [done|]. intros w o Hin.
    by apply elem_of_written in Hin as (-> & -> & Ho).
  - (* CONNECT_REQUEST *)
    destruct (Map_get (prop m "targetDeviceId") (clients s)) as [c|] eqn:Hc;
      [destruct (decide (client_type c = host)) as [Hh|Hh]|].
    + rewrite (handleConnectRequest_hit clock ws m s c Hc Hh).
      destruct (_ && _); [|by apply Hnil].
      simpl. split; [done|]. eexists. split; [done|]. intros w o Hin.
      apply elem_of_app in Hin as [Hin|Hin];
        apply elem_of_written in Hin as (-> & -> & Ho); (split; [done|]);
        [simpl; by exists c | done].
    + rewrite handleConnectRequest_miss
        by (intros c' Heq; rewrite Hc in Heq; inversion Heq; by subst).
      simpl. unfold exec. rewrite sendError_eq. simpl.
      split; [done|]. eexists. split; [done|]. intros w o Hin.
      by apply elem_of_written in Hin as (-> & -> & Ho).
    + rewrite handleConnectRequest_miss
        by (intros c' Heq; rewrite Hc in Heq; inversion Heq).
      simpl. unfold exec. rewrite sendError_eq. simpl.
      split; [done|]. eexists. split; [done|]. intros w o Hin.
      by apply elem_of_written in Hin as (-> & -> & Ho).
  - by rewrite handleOffer_eq.
  - by rewrite handleAnswer_eq.
  - by rewrite handleIceCandidate_eq.
  - (* DISCONNECT *)
    apply (disconnect_routed ws s s e); by repeat split.
Qed.

(** Both facts, for every event. *)
Lemma step_routed s e w o :
  (w, o) ∈ sent_from s (step clock uuid s e) ->
  readyState (step clock uuid s e) w = OPEN /\ routed s e (w, o).
Proof.
  destruct e as [ws|ws [|[| |m]]|ws].
  - intros Hin. unfold sent_from in Hin. simpl in Hin.
    rewrite drop_all in Hin. by apply elem_of_nil in Hin.
  - rewrite step_MessageEvent. unfold exec.
    rewrite on_message_Unparsable, sendError_eq. intros Hin.
    erewrite sent_from_wire in Hin by (simpl; reflexivity).
    by apply elem_of_written in Hin as (-> & -> & Ho).
  - rewrite step_MessageEvent. unfold exec.
    rewrite on_message_PNull, sendError_eq. intros Hin.
    erewrite sent_from_wire in Hin by (simpl; reflexivity).
    by apply elem_of_written in Hin as (-> & -> & Ho).
  - rewrite step_MessageEvent. intros Hin. unfold sent_from in Hin. simpl in Hin.
    rewrite drop_all in Hin. by apply elem_of_nil in Hin.
  - rewrite step_MessageEvent_PObject. intros Hin.
    destruct (caught_routed ws s (dispatch clock uuid ws m s)
                (MessageEvent ws (Parses (PObject m))) eq_refl
                (dispatch_routed ws m s)) as [Hrs H].
    rewrite Hrs. by apply H.
  - rewrite step_CloseEvent. intros Hin.
    destruct (disconnect_routed ws (exec (set_readyState ws CLOSED) s) s
                (CloseEvent ws)) as (Hrs & l & Hw & H); [by repeat split | done |].
    rewrite (sent_from_wire _ _ _ Hw) in Hin.
    rewrite Hrs. by apply H.
Qed.

(** The server never writes on a socket that is not open: every frame of a
    step goes to a socket whose state is OPEN, so never to the socket whose
    close event is being handled. *)
Theorem never_writes_unless_open s e :
  Forall (fun f => readyState (step clock uuid s e) (fst f) = OPEN)
         (sent_from s (step clock uuid s e)) /\
  forall ws o, e = CloseEvent ws -> (ws, o) ∉ sent_from s (step clock uuid s e).
Proof.
  split.
  - apply Forall_forall. intros [w o] Hin. by apply step_routed in Hin as [? _].
  - intros ws o -> Hin. apply step_routed in Hin as [Ho _].
    rewrite step_CloseEvent in Ho.
    destruct (handleDisconnect_effect ws (exec (set_readyState ws CLOSED) s))
      as (Hrs & _).
    rewrite Hrs in Ho. simpl in Ho. by rewrite decide_True in Ho.
Qed.

(** Every frame of a step goes where its kind says: AUTH_SUCCESS,
    DEVICE_LIST, CONNECTION_ACCEPTED and ERROR only to the socket the event
    came from; DEVICE_ONLINE and DEVICE_OFFLINE only to sockets of registered
    participants of role client; CONNECT_REQUEST only to the socket of the host
    registered under its [targetDeviceId]; a relayed OFFER, ANSWER or
    ICE_CANDIDATE only to the socket of the participant registered under its
    [to]. *)
Theorem frames_routed s e :
  Forall (routed s e) (sent_from s (step clock uuid s e)).
Proof.
  apply Forall_forall. intros [w o] Hin. by apply step_routed in Hin as [_ ?].
Qed.
End Routing.
(** ** Timestamps in order *)

Lemma Stamps_nil clock lo hi : Stamps clock lo hi [].
Proof. exists []. split; [done|]. split; constructor. Qed.

Lemma Stamps_weaken clock lo hi lo' hi' l :
  lo' <= lo -> hi <= hi' -> Stamps clock lo hi l -> Stamps clock lo' hi' l.
Proof.
  intros Hlo Hhi (idx & Hb & Hs & Hr). exists idx. split; [done|]. split; [done|].
  eapply Forall_impl; [exact Hr|]. simpl. intros n Hn. lia.
Qed.

Lemma Stamps_app clock lo mid hi l1 l2 :
  Stamps clock lo mid l1 -> Stamps clock mid hi l2 ->
  lo <= mid <= hi -> Stamps clock lo hi (l1 ++ l2).
Proof.
  intros (i1 & Hb1 & Hs1 & Hr1) (i2 & Hb2 & Hs2 & Hr2) Hm.
  exists (i1 ++ i2). split; [|split].
  - unfold built_timestamps in *. by rewrite omap_app, Hb1, Hb2, map_app.
  - apply StronglySorted_app_2; [|done|done].
    intros a b Ha Hb. rewrite Forall_forall in Hr1, Hr2.
    specialize (Hr1 a Ha). specialize (Hr2 b Hb). lia.
  - apply Forall_app. split.
    + eapply Forall_impl; [exact Hr1|]. simpl. intros n Hn. lia.
    + eapply Forall_impl; [exact Hr2|]. simpl. intros n Hn. lia.
Qed.

Lemma Stamps_written clock lo hi s w o n :
  lo <= n < hi -> built_timestamp (w, o) = Some (clock n) ->
  Stamps clock lo hi (written s w o).
Proof.
  intros Hn Ho. unfold written. destruct (decide _); [|apply Stamps_nil].
  exists [n]. unfold built_timestamps. simpl. rewrite Ho. split; [done|].
  split; [constructor; constructor | constructor; [done | constructor]].
Qed.

Lemma Stamps_relayed clock lo hi s w m :
  Stamps clock lo hi (written s w (Forwarded m)).
Proof.
  unfold written. destruct (decide _); [|apply Stamps_nil].
  exists []. split; [done|]. split; constructor.
Qed.

Lemma Stamps_broadcast clock lo hi s status n d cs :
  lo <= n < hi ->
  Stamps clock lo hi (broadcast_frames s (DeviceStatus status (clock n) d) cs).
Proof.
  intros Hn. unfold broadcast_frames.
  exists (map (fun _ => n) (filter (listening s) cs)).
  induction (filter (listening s) cs) as [|c l (Hb & Hs & Hr)]; simpl.
  - split; [done|]. split; constructor.
  - unfold built_timestamps in *. simpl. rewrite Hb.
    split; [done|]. split; [|by constructor].
    constructor; [done|]. clear Hb Hs Hr.
    induction l as [|c' l IHl]; simpl; constructor; [lia | done].
Qed.


Section Timestamps_order.
Variable clock : nat -> Z.
Variable uuid : nat -> string.

Lemma disconnect_stamps ws s0 :
  let s' := exec (handleDisconnect clock ws) s0 in
  date_calls s0 <= date_calls s' /\
  exists l, wire s' = wire s0 ++ l /\
            Stamps clock (date_calls s0) (date_calls s') l.
Proof.
  intros s'.
  destruct (handleDisconnect_effect clock uuid ws s0)
    as (_ & _ & [[Hw Hdc]|(d & Hdc & Hw)]); fold s' in Hw, Hdc.
  - split; [lia|]. exists []. rewrite app_nil_r. split; [done|]. apply Stamps_nil.
  - split; [lia|]. eexists. split; [exact Hw|].
    apply Stamps_broadcast. lia.
Qed.

(** The error of the listener's [catch] is stamped after everything the
    handler wrote. *)
Lemma caught_stamps ws s r :
  (date_calls s <= date_calls (snd r) /\
   exists l, wire (snd r) = wire s ++ l /\
             Stamps clock (date_calls s) (date_calls (snd r)) l) ->
  let s' := caught clock ws r in
  date_calls s <= date_calls s' /\
  exists l, wire s' = wire s ++ l /\
            Stamps clock (date_calls s) (date_calls s') l.
Proof.
  intros (Hle & l & Hw & Hl). destruct r as [[] s1]; simpl in *.
  - rewrite caught_Normal. split; [done|]. by exists l.
  - rewrite caught_Throw. simpl. split; [lia|]. rewrite Hw, <- app_assoc.
    eexists. split; [done|].
    apply (Stamps_app _ _ (date_calls s1)); [done| |lia].
    apply (Stamps_written _ _ _ _ _ _ (date_calls s1)); [lia|done].
Qed.

Lemma step_stamps s e :
  let s' := step clock uuid s e in
  date_calls s <= date_calls s' /\
  exists l, wire s' = wire s ++ l /\
            Stamps clock (date_calls s) (date_calls s') l.
Proof.
  assert (Hnil : forall s1, wire s1 = wire s -> date_calls s <= date_calls s1 ->
            date_calls s <= date_calls s1 /\
            exists l, wire s1 = wire s ++ l /\
                      Stamps clock (date_calls s) (date_calls s1) l).
  { intros s1 Hw Hle. split; [done|]. exists []. rewrite app_nil_r.
    split; [done|]. apply Stamps_nil. }
  assert (Hcatch : forall ws text,
            let s' := exec (sendError clock ws text VUndefined) s in
            date_calls s <= date_calls s' /\
            exists l, wire s' = wire s ++ l /\
                      Stamps clock (date_calls s) (date_calls s') l).
  { intros ws text. unfold exec. rewrite sendError_eq. simpl. split; [lia|].
    eexists. split; [done|].
    apply (Stamps_written _ _ _ _ _ _ (date_calls s)); [lia|done]. }
  destruct e as [ws|ws [|[| |m]]|ws]; intros s'; subst s'.
  - by apply Hnil.
  - rewrite step_MessageEvent. unfold exec. rewrite on_message_Unparsable.
    apply Hcatch.
  - rewrite step_MessageEvent. unfold exec. rewrite on_message_PNull.
    apply Hcatch.
  - rewrite step_MessageEvent. by apply Hnil.
  - rewrite step_MessageEvent_PObject. apply caught_stamps. unfold dispatch.
    assert (Hr : date_calls s <= date_calls (snd (relay m s)) /\
              exists l, wire (snd (relay m s)) = wire s ++ l /\
                Stamps clock (date_calls s) (date_calls (snd (relay m s))) l).
    { unfold relay. destruct (Map_get (prop m "to") (clients s));
        [destruct (_ && _)|]; try by apply Hnil.
      simpl. split; [done|]. eexists. split; [done|]. apply Stamps_relayed. }
    destruct (case_label (prop m "type")) as [[]|]; try by apply Hnil.
    + rewrite handleRegisterHost_eq.
      destruct (_ && _); [|apply Hnil; simpl; (done || lia)].
      simpl. split; [lia|].
      eexists. split; [done|].
      apply (Stamps_app _ _ (2 + date_calls s)); [| |lia].
      * by apply (Stamps_written _ _ _ _ _ _ (1 + date_calls s)); [lia|].
      * apply (Stamps_broadcast _ _ _ _ _ (2 + date_calls s)). lia.
    + rewrite handleRegisterClient_eq.
      destruct (printable _); [|apply Hnil; simpl; (done || lia)].
      simpl. split; [lia|].
      eexists. split; [done|].
      by apply (Stamps_written _ _ _ _ _ _ (date_calls s)); [lia|].
    + rewrite handleGetDevices_eq. simpl. split; [lia|].
      eexists. split; [done|].
      by apply (Stamps_written _ _ _ _ _ _ (date_calls s)); [lia|].
    + destruct (Map_get (prop m "targetDeviceId") (clients s)) as [c|] eqn:Hc;
        [destruct (decide (client_type c = host)) as [Hh|Hh]|].
      * rewrite (handleConnectRequest_hit clock ws m s c Hc Hh).
        destruct (_ && _); [|by apply Hnil]. simpl.
        split; [lia|]. eexists. split; [done|].
        apply (Stamps_app _ _ (1 + date_calls s)); [| |lia].
        -- by apply (Stamps_written _ _ _ _ _ _ (date_calls s)); [lia|].
        -- by apply (Stamps_written _ _ _ _ _ _ (1 + date_calls s)); [lia|].
      * rewrite handleConnectRequest_miss
          by (intros c' Heq; rewrite Hc in Heq; inversion Heq; by subst).
        apply (Hcatch ws).
      * rewrite handleConnectRequest_miss
          by (intros c' Heq; rewrite Hc in Heq; inversion Heq).
        apply (Hcatch ws).
    + by rewrite handleOffer_eq.
    + by rewrite handleAnswer_eq.
    + by rewrite handleIceCandidate_eq.
    + apply disconnect_stamps.
  - rewrite step_CloseEvent.
    apply (disconnect_stamps ws (exec (set_readyState ws CLOSED) s)).
Qed.

Lemma run_stamps events :
  Stamps clock 0 (date_calls (run clock uuid initial events))
         (wire (run clock uuid initial events)).
Proof.
  induction events as [|e events IH] using rev_ind.
  - apply Stamps_nil.
  - rewrite run_snoc.
    destruct (step_stamps (run clock uuid initial events) e) as (Hle & l & Hw & Hl).
    rewrite Hw. eapply Stamps_app; [exact IH | exact Hl | lia].
Qed.

(** When the clock never goes back, the timestamps of the messages the
    server builds never go back on the wire: in every reachable state the
    timestamps of all frames written so far, relayed objects left out, are in
    non-decreasing order. *)
Theorem built_timestamps_sorted s :
  reachable clock uuid s ->
  (forall a b, a <= b -> (clock a <= clock b)%Z) ->
  StronglySorted Z.le (built_timestamps (wire s)).
Proof.
  intros (events & _ & ->) Hmono.
  destruct (run_stamps events) as (idx & -> & Hs & _).
  clear -Hs Hmono. induction Hs as [|n idx Hs IH Hn]; simpl; constructor.
  - exact IH.
  - apply Forall_fmap. eapply Forall_impl; [exact Hn|]. simpl.
    intros k Hk. by apply Hmono.
Qed.
End Timestamps_order.

Lemma example_clock_monotone a b : a <= b -> (example_clock a <= example_clock b)%Z.
Proof. unfold example_clock. lia. Qed.

Lemma built_timestamps_sorted_witness :
  StronglySorted Z.le [1001; 1003; 1005]%Z.
Proof.
  pose proof (built_timestamps_sorted example_clock example_uuid
                example_closed_state example_closed_state_reachable
                example_clock_monotone) as H.
  vm_compute in H. exact H.
Defined.

(** ** The registry in every reachable state *)

Section Registry_invariant.
Variable clock : nat -> Z.
Variable uuid : nat -> string.

(** In every reachable state no id is twice in the participant map or in
    the [devices] map; what is stored under an id is a participant with that
    id; a host holds a device, which is the very object the [devices] map
    holds under the host's id, carries that id and is online; a client holds
    no device. *)
Theorem registry_invariant s :
  reachable clock uuid s ->
  NoDup (Map_keys (clients s)) /\ NoDup (Map_keys (devices s)) /\
  forall k c, Map_get k (clients s) = Some c ->
    client_id c = k /\
    match client_type c with
    | host => exists r, client_device c = Some r /\
                        Map_get k (devices s) = Some r /\
                        deviceId (heap s r) = k /\ online (heap s r) = true
    | client => client_device c = None
    end.
Proof.
  intros Hreach. pose proof (reachable_consistent clock uuid s Hreach) as Hs.
  split; [apply (clients_NoDup s Hs)|]. split; [apply (devices_NoDup s Hs)|].
  intros k c Hget. apply Map_get_Some in Hget.
  split; [by apply (clients_key s Hs)|].
  destruct (client_type c) eqn:Ht.
  - destruct (hosts_device s Hs k c Hget Ht) as (r & Hr & Hd).
    exists r. split; [done|]. split; [|split].
    + by apply Map_get_elem_of; [apply (devices_NoDup s Hs)|].
    + by apply (devices_key s Hs).
    + by apply (devices_online s Hs k).
  - by apply (clients_device s Hs k).
Qed.

(** Along a run in which no client registers an id a device is stored
    under, whatever DEVICE_LIST lists under an id that is not an object can
    be connected to: a CONNECT_REQUEST from an open socket for the id of such
    a device, with a [clientId] that can be converted to a string, is
    answered with CONNECTION_ACCEPTED, not with an error. *)
Theorem listed_is_connectable events d ws m :
  (forall before e after, events = before ++ e :: after ->
     ~ client_takeover uuid (run clock uuid initial before) e) ->
  let s := run clock uuid initial events in
  d ∈ listed s ->
  is_object (deviceId d) = false ->
  case_label (prop m "type") = Some CONNECT_REQUEST ->
  prop m "targetDeviceId" = deviceId d ->
  printable (prop m "clientId") = true ->
  readyState s ws = OPEN ->
  (ws, ConnectionAccepted (clock (1 + date_calls s)) (deviceId d))
    ∈ sent_from s (step clock uuid s (MessageEvent ws (Parses (PObject m)))).
Proof.
  intros Hno s Hd Hprim Hlabel Htarget Hclient Hopen.
  assert (Hp : printable (prop m "targetDeviceId") = true)
    by (rewrite Htarget; by destruct (deviceId d)).
  assert (Hs : consistent s) by apply consistent_run, consistent_initial.
  pose proof (Device_invariant_run clock uuid events Hno) as Hinv.
  apply (Device_invariant_hosted s Hs) in Hinv.
  apply elem_of_listed in Hd as (k & r & Hin & ->).
  destruct (Hinv k r Hin) as (c & Hc & Hh).
  rewrite (devices_key s Hs k r Hin) in *.
  rewrite (step_label clock uuid ws m s CONNECT_REQUEST Hlabel).
  rewrite <- Htarget in Hc.
  rewrite (handleConnectRequest_hit clock ws m s c Hc Hh), Hclient, Hp. simpl.
  rewrite caught_Normal.
  erewrite sent_from_wire by (simpl; reflexivity).
  apply elem_of_app. right. unfold written. rewrite decide_True by done.
  rewrite Htarget. apply elem_of_cons. by left.
Qed.
End Registry_invariant.

Lemma registry_invariant_witness :
  NoDup (Map_keys (clients example_state)) /\
  NoDup (Map_keys (devices example_state)).
Proof.
  destruct (registry_invariant example_clock example_uuid example_state
              example_state_reachable) as (H1 & H2 & _).
  by split.
Defined.

Lemma example_events_no_takeover before e after :
  example_events = before ++ e :: after ->
  ~ client_takeover example_uuid
      (run example_clock example_uuid initial before) e.
Proof.
  intros Heq (ws & m & -> & Hl & Hd).
  destruct before as [|e0 [|e1 [|e2 [|e3 before]]]]; simpl in Heq;
    inversion Heq; subst.
  - vm_compute in Hl. discriminate.
  - apply Hd. vm_compute. reflexivity.
  - by destruct before.
Qed.

Lemma listed_is_connectable_witness :
  (2, ConnectionAccepted 1005 (VStr "h1"))
    ∈ sent_from example_state
        (step example_clock example_uuid example_state
           (MessageEvent 2 (Parses (PObject (connect_request_message "h1" "c1"))))).
Proof.
  apply (listed_is_connectable example_clock example_uuid example_events
           (mkDevice (VStr "h1") (VStr "Office-PC") (VStr "macos") true 1000)
           2 (connect_request_message "h1" "c1")
           example_events_no_takeover).
  - vm_compute. constructor.
  - reflexivity.
  - reflexivity.
  - reflexivity.
  - reflexivity.
  - reflexivity.
Defined.

(** ** More edge cases *)

Section Edge_cases.
Variable clock : nat -> Z.
Variable uuid : nat -> string.

(** [message.clientId || uuidv4()]: the values that get a generated id are
    exactly [undefined], [null], [false], [0] and the empty string, and two
    REGISTER_CLIENT messages with such a [clientId] lead to the same state;
    every other value, a string or not, is registered as it is, without a
    call of [uuidv4()]. *)
Theorem falsy_clientId_generated s ws m1 m2 :
  case_label (prop m1 "type") = Some REGISTER_CLIENT ->
  case_label (prop m2 "type") = Some REGISTER_CLIENT ->
  let s1 := step clock uuid s (MessageEvent ws (Parses (PObject m1))) in
  let s2 := step clock uuid s (MessageEvent ws (Parses (PObject m2))) in
  (truthy (prop m1 "clientId") = false <->
   prop m1 "clientId" ∈ [VUndefined; VNull; VBool false; VNum 0; VStr ""]) /\
  (truthy (prop m1 "clientId") = false -> truthy (prop m2 "clientId") = false ->
   s1 = s2) /\
  (truthy (prop m1 "clientId") = true ->
   uuid_calls s1 = uuid_calls s /\
   Map_get (prop m1 "clientId") (clients s1)
     = Some (mkClient (prop m1 "clientId") ws client None)).
Proof.
  intros Hl1 Hl2 s1 s2. split; [|split].
  - split.
    + destruct (prop m1 "clientId") as [| |[]|n|str|]; simpl; try done; intros H.
      * apply elem_of_cons; by left.
      * apply elem_of_cons; right. apply elem_of_cons; by left.
      * do 2 (apply elem_of_cons; right). apply elem_of_cons; by left.
      * apply negb_false_iff, Z.eqb_eq in H. subst.
        do 3 (apply elem_of_cons; right). apply elem_of_cons; by left.
      * apply negb_false_iff, String.eqb_eq in H. subst.
        do 4 (apply elem_of_cons; right). apply elem_of_cons; by left.
    + intros H. repeat (apply elem_of_cons in H as [->|H]; [done|]).
      by apply elem_of_nil in H.
  - intros H1 H2. subst s1 s2.
    rewrite (step_label clock uuid ws m1 s REGISTER_CLIENT Hl1).
    rewrite (step_label clock uuid ws m2 s REGISTER_CLIENT Hl2).
    by rewrite !handleRegisterClient_eq, H1, H2.
  - intros Ht.
    destruct (step_register_client clock uuid s ws m1 Hl1) as (Hc1 & _ & Hu1 & _).
    fold s1 in Hc1, Hu1. rewrite Ht in Hc1, Hu1. simpl in Hc1, Hu1.
    split; [done|]. rewrite Hc1. apply Map_get_set_eq.
Qed.

(** A device keeps its fields for as long as it stays in the [devices] map:
    an event that leaves a device object in the map leaves every field of it,
    [lastSeen] included, as it was; only a disconnect assigns to a device, and
    it takes that device out of the map. *)
Theorem listed_device_unchanged s e k r :
  reachable clock uuid s ->
  (k, r) ∈ devices s ->
  (k, r) ∈ devices (step clock uuid s e) ->
  heap (step clock uuid s e) r = heap s r.
Proof.
  intros Hreach Hin Hin'.
  pose proof (reachable_consistent clock uuid s Hreach) as Hs.
  assert (Hdisc : forall ws s0, same_registry s s0 ->
            (k, r) ∈ devices (exec (handleDisconnect clock ws) s0) ->
            heap (exec (handleDisconnect clock ws) s0) r = heap s r).
  { intros ws s0 Hsame Hk.
    pose proof (consistent_same_registry _ _ Hsame Hs) as Hs0.
    destruct Hsame as (Hc0 & Hd0 & Hh0 & _).
    revert Hk. unfold exec. rewrite handleDisconnect_eq.
    destruct (first_on ws (clients s0)) as [[id c]|] eqn:Hf.
    - apply first_on_Some in Hf as [Hcin _].
      destruct (printable id) eqn:Hp;
        [|rewrite disconnect_entry_throws by done; simpl; by rewrite Hh0].
      destruct (client_type c) eqn:Ht.
      + destruct (hosts_device s0 Hs0 id c Hcin Ht) as (r0 & Hr0 & Hd).
        destruct (disconnect_entry_host clock id c r0 s0 Hp Ht Hr0)
          as (_ & _ & Ed & Eh & _).
        unfold exec in Ed, Eh. rewrite Ed, Eh, <- Hh0. intros Hk.
        apply elem_of_Map_delete in Hk as [Hne Hk]; [|apply (devices_NoDup s0 Hs0)].
        rewrite decide_False; [done|].
        intros ->. apply Hne. by apply (devices_ref_inj s0 k id r0).
      + rewrite disconnect_entry_other by (done || by left). simpl. by rewrite Hh0.
    - simpl. by rewrite Hh0. }
  assert (Hcaught : forall ws r,
            devices (caught clock ws r) = devices (snd r) /\
            heap (caught clock ws r) = heap (snd r)).
  { intros ws [[] s1]; [done|]. by rewrite caught_Throw. }
  destruct e as [ws|ws [|[| |m]]|ws]; try done.
  - rewrite step_MessageEvent. unfold exec.
    by rewrite on_message_Unparsable, sendError_eq.
  - rewrite step_MessageEvent. unfold exec.
    by rewrite on_message_PNull, sendError_eq.
  - rewrite step_MessageEvent_PObject in *.
    destruct (Hcaught ws (dispatch clock uuid ws m s)) as [Ed Eh].
    rewrite Ed in Hin'. rewrite Eh. clear Ed Eh. unfold dispatch in *.
    destruct (case_label (prop m "type")) as [[]|] eqn:Hlabel; try done.
    + rewrite handleRegisterHost_eq. destruct (_ && _); simpl;
        (rewrite decide_False; [done|];
         pose proof (devices_allocated s Hs k r Hin); lia).
    + rewrite handleRegisterClient_eq. by destruct (printable _).
    + by rewrite handleGetDevices_eq.
    + by destruct (handleConnectRequest_same_registry clock ws m s) as (_ & _ & -> & _).
    + rewrite handleOffer_eq.
      by destruct (relay_same_registry m s) as (_ & _ & -> & _).
    + rewrite handleAnswer_eq.
      by destruct (relay_same_registry m s) as (_ & _ & -> & _).
    + rewrite handleIceCandidate_eq.
      by destruct (relay_same_registry m s) as (_ & _ & -> & _).
    + apply (Hdisc ws s); [by repeat split | done].
  - rewrite step_CloseEvent in *.
    apply (Hdisc ws (exec (set_readyState ws CLOSED) s)); [by repeat split | done].
Qed.

(** Each run of the disconnect path takes exactly one participant off the
    socket when there is one and its id can be converted to a string: a
    socket that registered under several ids and closes once leaves all but
    the first of its participants registered.  When the id of the first one
    cannot be converted, the log line throws and all of them stay. *)
Theorem disconnect_removes_exactly_one s ws e :
  reachable clock uuid s ->
  disconnects ws e ->
  length (entries_on ws (clients (step clock uuid s e))) =
  match first_on ws (clients s) with
  | Some (id, _) => if printable id then length (entries_on ws (clients s)) - 1
                    else length (entries_on ws (clients s))
  | None => 0
  end.
Proof.
  intros Hreach He.
  pose proof (reachable_consistent clock uuid s Hreach) as Hs.
  destruct (at_disconnect_same e s) as ((Hc0 & _) & _).
  assert (Ec : clients (step clock uuid s e) =
               clients (exec (handleDisconnect clock ws) (at_disconnect e s))).
  { rewrite (step_disconnects clock uuid ws e s He).
    destruct He as [->|(m & -> & _)]; [done|].
    unfold exec. simpl. destruct (handleDisconnect clock ws s) as [[] s1]; [done|].
    by rewrite caught_Throw. }
  rewrite Ec, handleDisconnect_clients, Hc0.
  destruct (first_on ws (clients s)) as [[id c]|] eqn:Hf.
  - destruct (printable id); [|done].
    apply first_on_Some in Hf as [Hin Hws].
    rewrite (entries_on_delete ws (clients s) id c (clients_NoDup s Hs) Hin Hws).
    lia.
  - apply entries_on_nil in Hf. rewrite Hf. done.
Qed.
End Edge_cases.

Lemma falsy_clientId_generated_witness :
  step example_clock example_uuid example_state
       (MessageEvent 3 (Parses (PObject zero_clientId_message)))
  = step example_clock example_uuid example_state
         (MessageEvent 3 (Parses (PObject no_clientId_message))).
Proof.
  assert (H1 : case_label (prop zero_clientId_message "type") = Some REGISTER_CLIENT)
    by (vm_compute; reflexivity).
  assert (H2 : case_label (prop no_clientId_message "type") = Some REGISTER_CLIENT)
    by (vm_compute; reflexivity).
  destruct (falsy_clientId_generated example_clock example_uuid example_state 3
              zero_clientId_message no_clientId_message H1 H2) as (_ & H & _).
  apply H; vm_compute; reflexivity.
Defined.

Lemma listed_device_unchanged_witness :
  heap (step example_clock example_uuid example_state (CloseEvent 2)) 0
  = heap example_state 0.
Proof.
  apply (listed_device_unchanged example_clock example_uuid example_state
           (CloseEvent 2) (VStr "h1") 0).
  - exact example_state_reachable.
  - vm_compute. constructor.
  - vm_compute. constructor.
Defined.

Lemma disconnect_removes_exactly_one_witness :
  length (entries_on 1 (clients (step example_clock example_uuid two_ids_state
                                      (CloseEvent 1))))
  = length (entries_on 1 (clients two_ids_state)) - 1.
Proof.
  exact (disconnect_removes_exactly_one example_clock example_uuid two_ids_state 1
           (CloseEvent 1) two_ids_state_reachable (or_introl eq_refl)).
Defined.

(** ** When the process ends *)

Lemma first_on_Map_set ws m id c :
  first_on ws m = None -> client_ws c = ws ->
  first_on ws (Map_set id c m) = Some (id, c).
Proof.
  unfold first_on. intros Hnone Hws.
  induction m as [|[k v] m IH]; simpl in *.
  - by rewrite bool_decide_eq_true_2.
  - destruct (bool_decide (client_ws v = ws)) eqn:Hv; [done|].
    destruct (decide (k = id)) as [->|Hne]; simpl.
    + by rewrite bool_decide_eq_true_2.
    + rewrite Hv. by apply IH.
Qed.

Section Process_end.
Variable clock : nat -> Z.
Variable uuid : nat -> string.

(** The message listener catches everything, the close listener nothing:
    a listener lets an exception escape exactly when a socket closes whose
    first participant is stored under an id that cannot be converted to a
    string. *)
Theorem listener_throws_exactly s e :
  uncaught clock uuid s e = true <->
  exists ws id c, e = CloseEvent ws /\
    first_on ws (clients s) = Some (id, c) /\ printable id = false.
Proof.
  split.
  - destruct e as [ws|ws data|ws]; [done| |].
    + by rewrite uncaught_MessageEvent.
    + rewrite uncaught_CloseEvent.
      destruct (first_on ws (clients s)) as [[id c]|] eqn:Hf; [|done].
      intros Hp. exists ws, id, c. split; [done|]. split; [done|].
      by destruct (printable id).
  - intros (ws & id & c & -> & Hf & Hp).
    by rewrite uncaught_CloseEvent, Hf, Hp.
Qed.

(** Any peer can bring that about: a socket with no participant on it
    registers, as host or as client, under an id that cannot be converted to
    a string.  The registration is made, the socket is sent the error of the
    listener's [catch] instead of AUTH_SUCCESS, and when the socket closes the
    exception of the log line of [handleDisconnect] escapes the close
    listener. *)
Theorem unprintable_id_ends_process s ws m label :
  case_label (prop m "type") = Some label ->
  label = REGISTER_HOST \/ label = REGISTER_CLIENT ->
  first_on ws (clients s) = None ->
  printable (registered_id uuid s label m) = false ->
  let id := registered_id uuid s label m in
  let s1 := step clock uuid s (MessageEvent ws (Parses (PObject m))) in
  (exists device,
     Map_get id (clients s1) = Some (mkClient id ws (role_of label) device)) /\
  sent_from s s1 =
    written s ws (ErrorMessage
                    (clock (match label with
                            | REGISTER_HOST => 1 + date_calls s
                            | _ => date_calls s
                            end)) "Invalid message format" VUndefined) /\
  uncaught clock uuid s1 (CloseEvent ws) = true.
Proof.
  intros Hlabel Hreg Hnone Hp id s1.
  destruct (register_maps clock uuid s ws m label Hlabel Hreg)
    as (device & Hc & _).
  fold s1 id in Hc.
  split; [exists device; rewrite Hc; apply Map_get_set_eq|]. split.
  - destruct Hreg as [-> | ->].
    + pose proof (step_register_host clock uuid s ws m Hlabel) as Hsent.
      cbv zeta in Hsent. fold s1 in Hsent. rewrite Hsent. simpl in Hp.
      rewrite Hp. by rewrite andb_false_r.
    + destruct (step_register_client clock uuid s ws m Hlabel)
        as (_ & _ & _ & Hsent).
      fold s1 in Hsent. rewrite Hsent. simpl in Hp.
      destruct (truthy (prop m "clientId")); simpl in *; by rewrite Hp.
  - rewrite uncaught_CloseEvent, Hc.
    rewrite (first_on_Map_set ws (clients s) id
               (mkClient id ws (role_of label) device) Hnone eq_refl).
    subst id. by rewrite Hp.
Qed.
End Process_end.

Lemma listener_throws_exactly_witness :
  uncaught example_clock example_uuid unprintable_host_state (CloseEvent 1) = true.
Proof.
  apply listener_throws_exactly.
  exists 1, unprintable, (mkClient unprintable 1 host (Some 0)).
  split; [reflexivity|]. split; vm_compute; reflexivity.
Defined.

Lemma unprintable_id_ends_process_witness :
  let s1 := step example_clock example_uuid example_state
              (MessageEvent 3 (Parses (PObject unprintable_client_message))) in
  Map_get unprintable (clients s1) = Some (mkClient unprintable 3 client None) /\
  uncaught example_clock example_uuid s1 (CloseEvent 3) = true.
Proof.
  intros s1.
  destruct (unprintable_id_ends_process example_clock example_uuid example_state 3
              unprintable_client_message REGISTER_CLIENT eq_refl
              (or_intror eq_refl) eq_refl eq_refl) as ((device & Hget) & _ & Hu).
  split; [|exact Hu].
  fold s1 in Hget. vm_compute in Hget. inversion Hget; subst device.
  vm_compute. reflexivity.
Defined.

(** * The applications together with the server *)

Lemma prop_absent m name : name ∉ m.*1 -> prop m name = VUndefined.
Proof.
  induction m as [|[n v] m IH]; simpl; [done|].
  rewrite not_elem_of_cons. intros [Hne Hnin].
  destruct (String.eqb n name) eqn:E; [|by apply IH].
  apply String.eqb_eq in E. congruence.
Qed.

Lemma prop_stringified m name :
  NoDup (m.*1) -> prop (stringified m) name = prop m name.
Proof.
  unfold stringified, Message.
  induction m as [|[n v] m IH]; [done|].
  intros Hnd. apply NoDup_cons in Hnd as [Hn Hnd].
  destruct (decide (v <> VUndefined)) as [Hv|Hv].
  - rewrite filter_cons_True by done. simpl.
    destruct (String.eqb n name); [done|by apply IH].
  - rewrite filter_cons_False by done. simpl. rewrite IH by done.
    destruct (String.eqb n name) eqn:E; [|done].
    apply String.eqb_eq in E. subst name.
    rewrite (prop_absent m n Hn).
    by destruct (decide (v = VUndefined)) as [->|]; [|destruct Hv].
Qed.

(** The keys of an object literal are pairwise distinct. *)
Ltac keys_distinct := apply (bool_decide_unpack _); vm_compute; exact I.


(** ** What arrives at the other end of a socket *)

Lemma copy_of_refl v : copy_of v v.
Proof. destruct v; simpl; try done. by eexists. Qed.

Lemma copy_of_primitive v v' : is_object v = false -> copy_of v v' -> v' = v.
Proof. by destruct v. Qed.

Lemma copy_of_trans v1 v2 v3 : copy_of v1 v2 -> copy_of v2 v3 -> copy_of v1 v3.
Proof.
  destruct v1 as [| | | | |a1 r1]; simpl; try (by intros ->).
  intros [a2 ->]. done.
Qed.

Lemma copy_of_printable v v' : copy_of v v' -> printable v' = printable v.
Proof.
  destruct v as [| | | | |a r]; simpl; try (by intros ->). by intros [a' ->].
Qed.

Lemma received_as_refl m : received_as m m.
Proof. intros name. apply copy_of_refl. Qed.

Lemma received_as_primitive sent got name :
  received_as sent got -> is_object (prop sent name) = false ->
  prop got name = prop sent name.
Proof. intros H Hp. by apply copy_of_primitive. Qed.

Section Delivery.
Variable clock : nat -> Z.
Variable uuid : nat -> string.

(** Handing the server the very objects is one way of delivering them. *)
Lemma delivered_same w s l :
  delivered clock uuid w s l
    (run clock uuid s (map (fun m => MessageEvent w (Parses (PObject m))) l)).
Proof.
  revert s. induction l as [|m l IH]; intros s; simpl.
  - constructor.
  - apply (delivered_cons _ _ _ _ m m); [apply received_as_refl | apply IH].
Qed.

Lemma delivered_one w s m s' :
  delivered clock uuid w s [m] s' ->
  exists got, received_as m got /\
    s' = step clock uuid s (MessageEvent w (Parses (PObject got))).
Proof.
  intros H. inversion H as [|? ? got ? ? Hr Hrest]; subst.
  inversion Hrest; subst. by exists got.
Qed.

Lemma delivered_two w s m1 m2 s' :
  delivered clock uuid w s [m1; m2] s' ->
  exists got1 got2, received_as m1 got1 /\ received_as m2 got2 /\
    s' = step clock uuid
           (step clock uuid s (MessageEvent w (Parses (PObject got1))))
           (MessageEvent w (Parses (PObject got2))).
Proof.
  intros H. inversion H as [|? ? got1 ? ? Hr1 Hrest]; subst.
  apply delivered_one in Hrest as (got2 & Hr2 & ->). by exists got1, got2.
Qed.
End Delivery.

Section Applications.
Variable clock : nat -> Z.
Variable uuid : nat -> string.
Variable clock_c clock_h : nat -> Z.

(** The two frames a client application writes when its socket opens. *)
Lemma ClientApp_on_open_frames a :
  ClientApp.ws a = Some OPEN ->
  frames (fst (ClientApp.on_open clock_c a)) =
  [[("type", VStr "register_client");
    ("timestamp", VNum (clock_c (ClientApp.date_calls a)));
    ("clientId", VStr (ClientApp.clientId a))];
   [("type", VStr "get_devices");
    ("timestamp", VNum (clock_c (S (ClientApp.date_calls a))))]].
Proof.
  destruct a as [window socket id n]. simpl. intros ->.
  by destruct window.
Qed.

(** The client's handshake.  When its socket opens, the client application
    registers under its own id and asks for the devices; the server registers
    that id (it generates none), and answers on the same socket with
    AUTH_SUCCESS for that id and then with the DEVICE_LIST of the devices it
    holds.  The application passes both on to its renderer, and the id it
    reports there is the id of the server's answer. *)
Theorem client_handshake a s w :
  ClientApp.ws a = Some OPEN ->
  ClientApp.clientId a <> "" ->
  readyState s w = OPEN ->
  let id := VStr (ClientApp.clientId a) in
  forall s', delivered clock uuid w s (frames (fst (ClientApp.on_open clock_c a))) s' ->
  let auth := AuthSuccess (clock (date_calls s)) id in
  let listing := DeviceList (clock (1 + date_calls s)) (listed s) in
  sent_from s s' = [(w, auth); (w, listing)] /\
  Map_get id (clients s') = Some (mkClient id w client None) /\
  uuid_calls s' = uuid_calls s /\
  forall a' m1 m2,
    ClientApp.clientId a' = ClientApp.clientId a ->
    ClientApp.mainWindow a' = true ->
    parsed_as auth m1 -> parsed_as listing m2 ->
    fst (ClientApp.on_message clock_c (Parses (PObject m1)) a')
      = [ToRenderer "auth-success" (Fields [("clientId", prop m1 "id")])] /\
    fst (ClientApp.on_message clock_c (Parses (PObject m2)) a')
      = [ToRenderer "device-list" (Fields [("devices", prop m2 "devices")])].
Proof.
  intros Hws Hid Hopen id s' Hdel auth listing.
  assert (Htruthy : truthy id = true).
  { simpl. apply negb_true_iff. by apply String.eqb_neq. }
  rewrite (ClientApp_on_open_frames a Hws) in Hdel.
  apply delivered_two in Hdel as (reg & get & Hreg & Hget & ->).
  assert (Ht1 : prop reg "type" = VStr "register_client")
    by (by rewrite (received_as_primitive _ _ "type" Hreg)).
  assert (Hc1 : prop reg "clientId" = id)
    by (by rewrite (received_as_primitive _ _ "clientId" Hreg)).
  assert (Ht2 : prop get "type" = VStr "get_devices")
    by (by rewrite (received_as_primitive _ _ "type" Hget)).
  rewrite (step_label clock uuid w reg s REGISTER_CLIENT) by (by rewrite Ht1).
  rewrite handleRegisterClient_eq, Hc1, Htruthy. cbn [negb printable id].
  rewrite caught_Normal.
  rewrite (step_label clock uuid w get _ GET_DEVICES) by (by rewrite Ht2).
  rewrite handleGetDevices_eq, caught_Normal.
  split; [|split; [|split]].
  - apply sent_from_wire. cbn. unfold written. cbn.
    rewrite !decide_True by done. by rewrite <- app_assoc.
  - cbn. apply Map_get_set_eq.
  - done.
  - intros a' m1 m2 Ha' Hwin [Hm1 Hid1] Hm2.
    unfold ClientApp.on_message, ClientApp.handleSignalingMessage.
    simpl in Hm1, Hm2, Hid1. rewrite Hm1, Hm2. cbn.
    unfold ClientApp.handleDeviceList, ClientApp.sendToRenderer.
    rewrite Hwin, Ha'. cbn. by rewrite Hid1.
Qed.

(** The frame a host application writes when its socket opens. *)
Lemma HostApp_on_open_frames h :
  HostApp.ws h = Some OPEN ->
  frames (fst (HostApp.on_open clock_h h)) =
  [stringified [("type", VStr "register_host");
                ("timestamp", VNum (clock_h (HostApp.date_calls h)));
                ("deviceId", HostApp.deviceId h);
                ("deviceName", VStr (HostApp.deviceName h));
                ("platform", VStr (HostApp.platform h))]].
Proof.
  destruct h as [window socket id name pf connected n]. simpl. intros ->.
  by destruct window.
Qed.

(** A host comes online.  When its socket opens, the host application
    registers its device; when the device id of its configuration is not an
    object, every registered client on an open socket, other than one
    registered under the host's own id, is sent DEVICE_ONLINE for that
    device; its application asks for the devices in answer, and the list the
    server sends back has the new device in it, online and with the host's
    name and platform. *)
Theorem host_comes_online h a s wh k c :
  HostApp.ws h = Some OPEN ->
  ClientApp.ws a = Some OPEN ->
  is_object (HostApp.deviceId h) = false ->
  Map_get k (clients s) = Some c -> client_type c = client ->
  readyState s (client_ws c) = OPEN ->
  k <> HostApp.deviceId h ->
  forall s1, delivered clock uuid wh s (frames (fst (HostApp.on_open clock_h h))) s1 ->
  let d := mkDevice (HostApp.deviceId h) (VStr (HostApp.deviceName h))
                    (VStr (HostApp.platform h)) true (clock (date_calls s)) in
  let announcement := DeviceStatus DEVICE_ONLINE (clock (2 + date_calls s)) d in
  (client_ws c, announcement) ∈ sent_from s s1 /\
  forall m, parsed_as announcement m ->
    forall s2,
      delivered clock uuid (client_ws c) s1
        (frames (fst (ClientApp.on_message clock_c (Parses (PObject m)) a))) s2 ->
      exists ds,
        sent_from s1 s2 = [(client_ws c, DeviceList (clock (3 + date_calls s)) ds)] /\
        d ∈ ds.
Proof.
  intros Hh Ha Hprim Hk Hclient Hopen Hne s1 Hdel d announcement.
  rewrite (HostApp_on_open_frames h Hh) in Hdel.
  apply delivered_one in Hdel as (reg & Hreg & Hs1).
  assert (Hfields : prop reg "type" = VStr "register_host" /\
                    prop reg "deviceId" = HostApp.deviceId h /\
                    prop reg "deviceName" = VStr (HostApp.deviceName h) /\
                    prop reg "platform" = VStr (HostApp.platform h)).
  { rewrite !(received_as_primitive _ _ _ Hreg);
      rewrite !prop_stringified by keys_distinct; done. }
  destruct Hfields as (Htype & Hid & Hname & Hpf).
  assert (Hp : printable (HostApp.deviceId h) = true)
    by (by destruct (HostApp.deviceId h)).
  rewrite (step_label clock uuid wh reg s REGISTER_HOST) in Hs1
    by (by rewrite Htype).
  rewrite handleRegisterHost_eq, Hid, Hname, Hpf, Hp in Hs1.
  cbn [printable andb] in Hs1. rewrite caught_Normal in Hs1. fold d in Hs1.
  split.
  - rewrite Hs1. erewrite sent_from_wire; [|by cbn [wire]].
    apply elem_of_app. right. unfold broadcast_frames.
    apply list_elem_of_fmap. exists c. split; [done|].
    apply list_elem_of_filter. split; [done|].
    apply (Map_values_elem_of _ k). apply Map_get_Some.
    by rewrite Map_get_set_ne.
  - intros m Ht s2 Hdel2. simpl in Ht.
    assert (Hget : frames (fst (ClientApp.on_message clock_c (Parses (PObject m)) a))
                   = [[("type", VStr "get_devices");
                       ("timestamp", VNum (clock_c (ClientApp.date_calls a)))]]).
    { unfold ClientApp.on_message, ClientApp.handleSignalingMessage.
      rewrite Ht. destruct a as [window socket id n]. simpl in Ha. subst socket.
      reflexivity. }
    rewrite Hget in Hdel2. apply delivered_one in Hdel2 as (get & Hr & ->).
    assert (Ht2 : prop get "type" = VStr "get_devices")
      by (by rewrite (received_as_primitive _ _ "type" Hr)).
    rewrite (step_label clock uuid (client_ws c) get s1 GET_DEVICES)
      by (by rewrite Ht2).
    rewrite handleGetDevices_eq, caught_Normal.
    exists (listed s1). split.
    + apply sent_from_wire. cbn [wire]. unfold written.
      rewrite decide_True by (by rewrite Hs1). by rewrite Hs1.
    + apply elem_of_listed. exists (HostApp.deviceId h), (next_ref s).
      rewrite Hs1. cbn [devices heap]. split.
      * apply Map_get_Some, Map_get_set_eq.
      * by rewrite decide_True.
Qed.

(** A connection is set up.  A registered client application asks for the
    device of a host that is registered under an id that is not an object:
    the server passes the request to the host's socket and accepts it; the
    host application keeps the requester's id and hands it to its renderer;
    and an offer which the host then sends to that id is relayed to the socket
    of the client that asked, whose application hands a copy of it to its
    renderer as coming from the host's device. *)
Theorem connect_loop a h s wc wh ch cc offer :
  ClientApp.ws a = Some OPEN -> ClientApp.mainWindow a = true ->
  HostApp.ws h = Some OPEN -> HostApp.mainWindow h = true ->
  let cid := VStr (ClientApp.clientId a) in
  let hid := HostApp.deviceId h in
  is_object hid = false ->
  Map_get hid (clients s) = Some ch -> client_type ch = host -> client_ws ch = wh ->
  Map_get cid (clients s) = Some cc -> client_ws cc = wc ->
  readyState s wh = OPEN -> readyState s wc = OPEN ->
  forall s1,
    delivered clock uuid wc s
      (frames (fst (ClientApp.on_ipc clock_c (ClientApp.connect_to_device hid) a)))
      s1 ->
  let request := ConnectRequest (clock (date_calls s)) hid cid in
  sent_from s s1 =
    [(wh, request); (wc, ConnectionAccepted (clock (1 + date_calls s)) hid)] /\
  forall m, parsed_as request m ->
    let r := HostApp.on_message (Parses (PObject m)) h in
    fst r = [ToRenderer "connection-request" (Fields [("clientId", cid)])] /\
    HostApp.connectedClientId (snd r) = cid /\
    forall s2,
      delivered clock uuid wh s1
        (frames (fst (HostApp.on_ipc clock_h
                        (HostApp.send_offer [("offer", offer); ("to", cid)]) (snd r))))
        s2 ->
      exists relayed_offer,
        sent_from s1 s2 = [(wc, Forwarded relayed_offer)] /\
        forall m', parsed_as (Forwarded relayed_offer) m' ->
          exists offer', copy_of offer offer' /\
            fst (ClientApp.on_message clock_c (Parses (PObject m')) a)
            = [ToRenderer "offer" (Fields [("offer", offer'); ("from", hid)])].
Proof.
  intros Ha Hawin Hh Hhwin cid hid Hprim Hch Hhost Hwh Hcc Hwc Hopen_h Hopen_c
         s1 Hdel request.
  assert (Hp : printable hid = true) by (by destruct hid).
  pose (req := stringified [("type", VStr "connect_request");
                            ("timestamp", VNum (clock_c (ClientApp.date_calls a)));
                            ("targetDeviceId", hid); ("clientId", cid)]).
  assert (Hreq : frames (fst (ClientApp.on_ipc clock_c
                                (ClientApp.connect_to_device hid) a)) = [req]).
  { destruct a as [window socket id n]. simpl in Ha. by subst socket. }
  rewrite Hreq in Hdel. apply delivered_one in Hdel as (req' & Hr & Hs1).
  assert (Hfields : prop req' "type" = VStr "connect_request" /\
                    prop req' "targetDeviceId" = hid /\ prop req' "clientId" = cid).
  { rewrite !(received_as_primitive _ _ _ Hr);
      subst req; rewrite !prop_stringified by keys_distinct; done. }
  destruct Hfields as (Htype & Htarget & Hclient).
  rewrite (step_label clock uuid wc req' s CONNECT_REQUEST) in Hs1
    by (by rewrite Htype).
  rewrite (handleConnectRequest_hit clock wc req' s ch) in Hs1
    by (by rewrite ?Htarget).
  rewrite Htarget, Hclient, Hwh, Hp in Hs1. cbn [printable andb cid] in Hs1.
  rewrite caught_Normal in Hs1.
  split.
  { rewrite Hs1. apply sent_from_wire. cbn [wire]. unfold written.
    by rewrite !decide_True by done. }
  intros m (Ht & Htgt & Hcid) r. simpl in Ht, Hcid.
  assert (Hr' : r = ([ToRenderer "connection-request" (Fields [("clientId", cid)])],
                     HostApp.with_connectedClientId cid h)).
  { subst r. unfold HostApp.on_message, HostApp.handleSignalingMessage.
    rewrite Ht. cbn. unfold HostApp.handleConnectionRequest, HostApp.logged,
      HostApp.sendToRenderer.
    rewrite Hcid. cbn. by rewrite Hhwin. }
  rewrite Hr'. cbn [fst snd]. split; [done|]. split; [done|].
  intros s2 Hdel2.
  pose (off := stringified [("type", VStr "offer");
                            ("timestamp", VNum (clock_h (HostApp.date_calls h)));
                            ("offer", offer); ("from", hid); ("to", cid)]).
  assert (Hoff : frames (fst (HostApp.on_ipc clock_h
                   (HostApp.send_offer [("offer", offer); ("to", cid)])
                   (HostApp.with_connectedClientId cid h))) = [off]).
  { destruct h as [window socket id name pf connected n]. simpl in Hh.
    by subst socket. }
  rewrite Hoff in Hdel2. apply delivered_one in Hdel2 as (off' & Hro & ->).
  assert (Hsent : prop off "type" = VStr "offer" /\ prop off "offer" = offer /\
                  prop off "from" = hid /\ prop off "to" = cid).
  { subst off. by rewrite !prop_stringified by keys_distinct. }
  destruct Hsent as (Hstype & Hsoffer & Hsfrom & Hsto).
  assert (Hofields : prop off' "type" = VStr "offer" /\
                     copy_of offer (prop off' "offer") /\
                     prop off' "from" = hid /\ prop off' "to" = cid).
  { split; [|split; [|split]].
    - by rewrite (received_as_primitive _ _ "type" Hro), Hstype.
    - rewrite <- Hsoffer. apply Hro.
    - by rewrite (received_as_primitive _ _ "from" Hro), Hsfrom by (by rewrite Hsfrom).
    - by rewrite (received_as_primitive _ _ "to" Hro), Hsto by (by rewrite Hsto). }
  destruct Hofields as (Hotype & Hooffer & Hofrom & Hoto).
  exists off'. split.
  - rewrite (step_label clock uuid wh off' s1 OFFER) by (by rewrite Hotype).
    rewrite handleOffer_eq. unfold relay.
    rewrite Hoto, Hofrom, Hs1. cbn [clients]. rewrite Hcc, Hwc, Hp.
    cbn [printable andb cid]. rewrite caught_Normal.
    apply sent_from_wire. cbn [snd push wire]. unfold written. cbn [readyState].
    by rewrite !decide_True by done.
  - intros m' Hall. simpl in Hall.
    exists (prop m' "offer"). split.
    + eapply copy_of_trans; [exact Hooffer | apply Hall].
    + assert (Ht' : prop m' "type" = VStr "offer")
        by (by rewrite (received_as_primitive _ _ "type" Hall), Hotype
              by (by rewrite Hotype)).
      assert (Hf' : prop m' "from" = hid)
        by (by rewrite (received_as_primitive _ _ "from" Hall), Hofrom
              by (by rewrite Hofrom)).
      unfold ClientApp.on_message, ClientApp.handleSignalingMessage.
      rewrite Ht'. cbn.
      unfold ClientApp.handleOffer, ClientApp.logged, ClientApp.sendToRenderer.
      rewrite Hf'. cbn [forallb]. rewrite Hp. cbn. by rewrite Hawin.
Qed.

Local Arguments stringified : simpl never.

(** Whatever the server or the renderer sends it, the client application
    writes on its socket only when the socket is open, only the six message
    types of a client, and only under its own id: [clientId] of a
    registration or connection request and [from] of a relayed message are
    the id it generated at start. *)
Theorem client_app_frames a e m :
  m ∈ frames (fst (ClientApp.step clock_c a e)) ->
  ClientApp.ws (snd (ClientApp.step clock_c a e)) = Some OPEN /\
  exists t, case_label (prop m "type") = Some t /\
    match t with
    | REGISTER_CLIENT | CONNECT_REQUEST =>
        prop m "clientId" = VStr (ClientApp.clientId a)
    | OFFER | ANSWER | ICE_CANDIDATE => prop m "from" = VStr (ClientApp.clientId a)
    | GET_DEVICES => True
    | _ => False
    end.
Proof.
  assert (Hreq : forall a0 m, m ∈ frames (fst (ClientApp.requestDeviceList clock_c a0)) ->
            ClientApp.ws (snd (ClientApp.requestDeviceList clock_c a0)) = Some OPEN /\
            case_label (prop m "type") = Some GET_DEVICES).
  { intros [window [[]|] id n] m0; cbn; intros H;
      try (by apply elem_of_nil in H).
    apply list_elem_of_singleton in H. by subst m0. }
  destruct e as [|[|[| |msg]]| | |[dev|arg|arg|arg|]| |];
    try (cbn; intros H; by apply elem_of_nil in H);
    try (destruct a as [[] ? ? ?]; cbn; intros H; by apply elem_of_nil in H).
  - (* open *)
    destruct a as [window socket id n]. cbn.
    destruct window; cbn; rewrite !elem_of_cons, elem_of_nil;
      (intros [->|[->|[]]]; (split; [done|]);
       [by exists REGISTER_CLIENT | by exists GET_DEVICES]).
  - (* a message of the server *)
    cbn [ClientApp.step ClientApp.on_message].
    unfold ClientApp.handleSignalingMessage.
    destruct (case_label (prop msg "type")) as [[]|];
      try (destruct a as [[] ? ? ?]; cbn; intros H; by apply elem_of_nil in H);
      try (unfold ClientApp.handleOffer, ClientApp.handleAnswer,
             ClientApp.handleIceCandidate, ClientApp.logged;
           destruct (forallb _ _); destruct a as [[] ? ? ?]; cbn; intros H;
           by apply elem_of_nil in H).
    + intros H. destruct (Hreq a m H) as [? ?]. split; [done|]. by exists GET_DEVICES.
    + intros H. destruct (Hreq a m H) as [? ?]. split; [done|]. by exists GET_DEVICES.
  - (* connect-to-device *)
    destruct a as [window [[]|] id n]; cbn; intros H;
      try (by apply elem_of_nil in H).
    apply list_elem_of_singleton in H. subst m. split; [done|].
    exists CONNECT_REQUEST.
    by rewrite !prop_stringified by keys_distinct.
  - destruct a as [window [[]|] id n]; cbn; intros H;
      try (by apply elem_of_nil in H).
    apply list_elem_of_singleton in H. subst m. split; [done|].
    exists OFFER. by rewrite !prop_stringified by keys_distinct.
  - destruct a as [window [[]|] id n]; cbn; intros H;
      try (by apply elem_of_nil in H).
    apply list_elem_of_singleton in H. subst m. split; [done|].
    exists ANSWER. by rewrite !prop_stringified by keys_distinct.
  - destruct a as [window [[]|] id n]; cbn; intros H;
      try (by apply elem_of_nil in H).
    apply list_elem_of_singleton in H. subst m. split; [done|].
    exists ICE_CANDIDATE. by rewrite !prop_stringified by keys_distinct.
  - cbn [ClientApp.step ClientApp.on_ipc]. intros H.
    destruct (Hreq a m H) as [? ?]. split; [done|]. by exists GET_DEVICES.
Qed.
(** The host application writes on its socket only when the socket is open,
    never in reaction to a message of the server, and only REGISTER_HOST, with
    its own device id, name and platform, or a relayed message type with its
    own device id as [from]. *)
Theorem host_app_frames h e m :
  m ∈ frames (fst (HostApp.step clock_h h e)) ->
  HostApp.ws (snd (HostApp.step clock_h h e)) = Some OPEN /\
  (forall data, e <> HostApp.Received data) /\
  exists t, case_label (prop m "type") = Some t /\
    match t with
    | REGISTER_HOST =>
        prop m "deviceId" = HostApp.deviceId h /\
        prop m "deviceName" = VStr (HostApp.deviceName h) /\
        prop m "platform" = VStr (HostApp.platform h)
    | OFFER | ANSWER | ICE_CANDIDATE => prop m "from" = HostApp.deviceId h
    | _ => False
    end.
Proof.
  destruct e as [|[|[| |msg]]| | |[arg|arg|arg]| |];
    try (cbn; intros H; by apply elem_of_nil in H);
    try (destruct h as [[] ? ? ? ? ? ?]; cbn; intros H; by apply elem_of_nil in H).
  - (* open *)
    destruct h as [window socket id name pf connected n]. cbn.
    destruct window; cbn; rewrite !elem_of_cons, elem_of_nil;
      (intros [->|[]]; (split; [done|]); (split; [done|]);
       exists REGISTER_HOST; by rewrite !prop_stringified by keys_distinct).
  - (* a message of the server *)
    cbn [HostApp.step HostApp.on_message].
    unfold HostApp.handleSignalingMessage.
    destruct (case_label (prop msg "type")) as [[]|];
      unfold HostApp.handleConnectionRequest, HostApp.handleOffer,
        HostApp.handleAnswer, HostApp.handleIceCandidate, HostApp.logged;
      try destruct (forallb _ _);
      destruct h as [[] ? ? ? ? ? ?]; cbn; intros H; by apply elem_of_nil in H.
  - destruct h as [window [[]|] id name pf connected n]; cbn; intros H;
      try (by apply elem_of_nil in H).
    apply list_elem_of_singleton in H. subst m. split; [done|]. split; [done|].
    exists OFFER. by rewrite !prop_stringified by keys_distinct.
  - destruct h as [window [[]|] id name pf connected n]; cbn; intros H;
      try (by apply elem_of_nil in H).
    apply list_elem_of_singleton in H. subst m. split; [done|]. split; [done|].
    exists ANSWER. by rewrite !prop_stringified by keys_distinct.
  - destruct h as [window [[]|] id name pf connected n]; cbn; intros H;
      try (by apply elem_of_nil in H).
    apply list_elem_of_singleton in H. subst m. split; [done|]. split; [done|].
    exists ICE_CANDIDATE. by rewrite !prop_stringified by keys_distinct.
Qed.
End Applications.

Lemma client_handshake_witness :
  sent_from example_state
    (run example_clock example_uuid example_state
       (map (fun m => MessageEvent 2 (Parses (PObject m)))
            (frames (fst (ClientApp.on_open example_clock example_client_app)))))
  = [(2, AuthSuccess 1004 (VStr "c1"));
     (2, DeviceList 1005
           [mkDevice (VStr "h1") (VStr "Office-PC") (VStr "macos") true 1000])].
Proof.
  assert (Hopen : readyState example_state 2 = OPEN) by (vm_compute; reflexivity).
  assert (Hid : ClientApp.clientId example_client_app <> "") by done.
  destruct (client_handshake example_clock example_uuid example_clock
              example_client_app example_state 2 eq_refl Hid Hopen _
              (delivered_same example_clock example_uuid 2 example_state _))
    as [H _].
  rewrite H. vm_compute. reflexivity.
Defined.

Lemma host_comes_online_witness :
  (2, DeviceStatus DEVICE_ONLINE 1006
        (mkDevice (VStr "h1") (VStr "Office-PC") (VStr "darwin") true 1004))
  ∈ sent_from example_state
      (run example_clock example_uuid example_state
         (map (fun m => MessageEvent 3 (Parses (PObject m)))
              (frames (fst (HostApp.on_open example_clock example_host_app))))).
Proof.
  assert (Hk : Map_get (VStr "c1") (clients example_state)
               = Some (mkClient (VStr "c1") 2 client None))
    by (vm_compute; reflexivity).
  assert (Hopen : readyState example_state 2 = OPEN) by (vm_compute; reflexivity).
  assert (Hne : VStr "c1" <> HostApp.deviceId example_host_app) by done.
  destruct (host_comes_online example_clock example_uuid example_clock example_clock
              example_host_app example_client_app example_state 3
              (VStr "c1") (mkClient (VStr "c1") 2 client None)
              eq_refl eq_refl eq_refl Hk eq_refl Hopen Hne _
              (delivered_same example_clock example_uuid 3 example_state _))
    as [H _].
  vm_compute in H. vm_compute. exact H.
Defined.

Lemma connect_loop_witness :
  sent_from example_state
    (run example_clock example_uuid example_state
       (map (fun m => MessageEvent 2 (Parses (PObject m)))
            (frames (fst (ClientApp.on_ipc example_clock
                            (ClientApp.connect_to_device (VStr "h1"))
                            example_client_app)))))
  = [(1, ConnectRequest 1004 (VStr "h1") (VStr "c1"));
     (2, ConnectionAccepted 1005 (VStr "h1"))].
Proof.
  assert (Hh : Map_get (VStr "h1") (clients example_state)
               = Some (mkClient (VStr "h1") 1 host (Some 0)))
    by (vm_compute; reflexivity).
  assert (Hc : Map_get (VStr "c1") (clients example_state)
               = Some (mkClient (VStr "c1") 2 client None))
    by (vm_compute; reflexivity).
  assert (H1 : readyState example_state 1 = OPEN) by (vm_compute; reflexivity).
  assert (H2 : readyState example_state 2 = OPEN) by (vm_compute; reflexivity).
  destruct (connect_loop example_clock example_uuid example_clock example_clock
              example_client_app example_host_app example_state 2 1
              (mkClient (VStr "h1") 1 host (Some 0))
              (mkClient (VStr "c1") 2 client None) (VObject 7 true)
              eq_refl eq_refl eq_refl eq_refl eq_refl Hh eq_refl eq_refl Hc eq_refl
              H1 H2 _ (delivered_same example_clock example_uuid 2 example_state _))
    as [H _].
  vm_compute in H. vm_compute. exact H.
Defined.

Lemma client_app_frames_witness :
  prop (stringified [("type", VStr "offer"); ("timestamp", VNum 1000);
                     ("offer", VObject 7 true); ("from", VStr "c1");
                     ("to", VStr "h1")])
       "from" = VStr "c1".
Proof.
  destruct (client_app_frames example_clock example_client_app
              (ClientApp.FromRenderer
                 (ClientApp.send_offer [("offer", VObject 7 true); ("to", VStr "h1")]))
              (stringified [("type", VStr "offer"); ("timestamp", VNum 1000);
                            ("offer", VObject 7 true); ("from", VStr "c1");
                            ("to", VStr "h1")]))
    as (_ & t & Ht & H).
  - vm_compute. constructor.
  - assert (E : t = OFFER) by (vm_compute in Ht; congruence).
    subst t. exact H.
Defined.

Lemma host_app_frames_witness :
  prop (stringified [("type", VStr "answer"); ("timestamp", VNum 1000);
                     ("answer", VObject 8 true); ("from", VStr "h1");
                     ("to", VStr "c1")])
       "from" = VStr "h1".
Proof.
  destruct (host_app_frames example_clock example_host_app
              (HostApp.FromRenderer
                 (HostApp.send_answer [("answer", VObject 8 true); ("to", VStr "c1")]))
              (stringified [("type", VStr "answer"); ("timestamp", VNum 1000);
                            ("answer", VObject 8 true); ("from", VStr "h1");
                            ("to", VStr "c1")]))
    as (_ & _ & t & Ht & H).
  - vm_compute. constructor.
  - assert (E : t = ANSWER) by (vm_compute in Ht; congruence).
    subst t. exact H.
Defined.
